(** * Layered-seed zone generation: a shallow embedding and its properties

    The development follows the JavaScript sources module by module:
    [SeededRandom] (SeededRandom.js), [SeedUtil] (SeedUtil.js),
    [MapGenerator] (MapGenerator.js), [SpawnGrid] (SpawnGrid.js),
    [Freshness] (Freshness.js), [DepthRules] (DepthRules.js),
    [World] (World.js), [Bullets] and [Loot] (the loot part of Bullets.js).

    Numbers.  JavaScript numbers that the code treats as 32-bit integers
    (seeds, RNG state, hash values, grid keys) are integers in [Z] with the
    wrap-around of [>>> 0], [| 0], [Math.imul], [^], [<<] written out.
    All other numbers (coordinates, densities, weights) are exact rationals
    in [Q]: configuration numbers come from JSON files, which have neither
    NaN nor infinities, and rounding of the double arithmetic is not
    modelled.  [Math.hypot(dx, dy)] only occurs in comparisons against a
    bound, which are stated on the squares. *)

From Stdlib Require Import ZArith QArith Qround Qpower Lia Lqa List Bool.
From stdpp Require Import base option list strings gmap.

Open Scope Z_scope.

(* ===================================================================== *)
(** ** JavaScript 32-bit integer operators *)
(* ===================================================================== *)

Module Js.

Definition two32 : Z := 4294967296.
Definition two31 : Z := 2147483648.

(** [x >>> 0] *)
Definition toUint32 (x : Z) : Z := x mod two32.

(** [x | 0] *)
Definition toInt32 (x : Z) : Z := (x + two31) mod two32 - two31.

(** [a ^ b] *)
Definition xor (a b : Z) : Z := Z.lxor (toInt32 a) (toInt32 b).

(** [a | b] *)
Definition or (a b : Z) : Z := Z.lor (toInt32 a) (toInt32 b).

(** [a & b] *)
Definition and (a b : Z) : Z := Z.land (toInt32 a) (toInt32 b).

(** [a >>> k] *)
Definition ushr (a k : Z) : Z := Z.shiftr (toUint32 a) (k mod 32).

(** [a << k] *)
Definition shl (a k : Z) : Z := toInt32 (Z.shiftl (toInt32 a) (k mod 32)).

(** [Math.imul(a, b)] *)
Definition imul (a b : Z) : Z := toInt32 (toInt32 a * toInt32 b).

(** Truncation of a number towards zero, the first step of [ToInt32] and
    [ToUint32] on a number that is not an integer. *)
Definition trunc (q : Q) : Z :=
  if Qle_bool 0 q then Qfloor q else Qceiling q.

(** [a < b], [a <= b] on numbers *)
Definition ltb (a b : Q) : bool := negb (Qle_bool b a).
Definition leb (a b : Q) : bool := Qle_bool a b.

(** [Math.min], [Math.max] *)
Definition min (a b : Q) : Q := if Qle_bool a b then a else b.
Definition max (a b : Q) : Q := if Qle_bool a b then b else a.

(** [Math.floor] *)
Definition floor (q : Q) : Z := Qfloor q.

(** [a % b] on numbers: the remainder has the sign of the dividend. *)
Definition rem (a b : Q) : Q := (a - b * inject_Z (trunc (a / b)))%Q.

(** [Math.hypot(dx, dy) < d] and [Math.hypot(dx, dy) > d], on the
    squares: the distance is not negative, so it is below [d] when [d] is
    positive and the squares compare, and above [d] when [d] is negative
    or the squares compare. *)
Definition hypot_lt (dx dy d : Q) : bool :=
  ltb 0 d && ltb (dx * dx + dy * dy) (d * d).
Definition hypot_gt (dx dy d : Q) : bool :=
  ltb d 0 || ltb (d * d) (dx * dx + dy * dy).

(** [Math.cos], [Math.sin], [Math.atan2], [Math.PI] and [Math.pow] on a
    fractional exponent are library functions of the host; the generator
    is parametric in them. *)
Class Math := {
  PI : Q;
  cos : Q -> Q;
  sin : Q -> Q;
  atan2 : Q -> Q -> Q
}.

End Js.

(* ===================================================================== *)
(** ** SeededRandom.js *)
(* ===================================================================== *)

Module SeededRandom.

Record t := mk { seed : Z; state : Z }.

(** [new SeededRandom(seed)] *)
Definition new (s : Z) : t := {| seed := Js.toUint32 s; state := Js.toUint32 s |}.

Definition reset (r : t) : t := {| seed := seed r; state := Js.toUint32 (seed r) |}.

Definition setSeed (s : Z) (_ : t) : t := new s.

(** Methods mutate [this.state]: a method is a function from the object
    before the call to its result and the object after the call. *)
Definition M (A : Type) : Type := t -> A * t.

Definition ret {A} (a : A) : M A := fun r => (a, r).
Definition bind {A B} (c : M A) (k : A -> M B) : M B :=
  fun r => let (a, r') := c r in k a r'.

(** [next()]: Mulberry32 *)
Definition next : M Q := fun r =>
  let st := Js.toUint32 (state r + 0x6D2B79F5) in
  let t0 := st in
  let t1 := Js.imul (Js.xor t0 (Js.ushr t0 15)) (Js.or t0 1) in
  let t2 := Js.xor t1 (t1 + Js.imul (Js.xor t1 (Js.ushr t1 7)) (Js.or t1 61)) in
  (inject_Z (Js.toUint32 (Js.xor t2 (Js.ushr t2 14))) / inject_Z Js.two32,
   {| seed := seed r; state := st |})%Q.

(** [range(min, max)].  The sum and the product are exact here.  The
    code's double arithmetic gives the same value wherever its three
    operations are exact, as on integer bounds of magnitude up to [2^19];
    elsewhere it rounds, and can reach [max]. *)
Definition range (min max : Q) : M Q :=
  bind next (fun n => ret (min + n * (max - min))%Q).

(** [int(min, max)], exact like [range]; where the code's [range] rounds
    up to [max + 1], the code returns [max + 1]. *)
Definition int (min max : Q) : M Z :=
  bind (range min (max + 1)%Q) (fun v => ret (Js.floor v)).

(** [chance(probability)] *)
Definition chance (probability : Q) : M bool :=
  bind next (fun n => ret (Js.ltb n probability)).

(** [pick(array)]: [null] on an empty array, else
    [array[this.int(0, array.length - 1)]] ([undefined] out of range). *)
Definition pick {A} (array : list A) : M (option A) :=
  match array with
  | [] => ret None
  | _ => bind (int 0 (inject_Z (Z.of_nat (length array)) - 1)%Q)
           (fun i => ret (if i <? 0 then None else array !! Z.to_nat i))
  end.

(** [static fromString(str)] *)
Definition fromString (str : string) : Z :=
  Js.toUint32
    (fold_left
       (fun hash c =>
          let char := Z.of_nat (Ascii.nat_of_ascii c) in
          let hash := (Js.shl hash 5 - hash) + char in
          Js.and hash hash)
       (String.list_ascii_of_string str) 0).

(** [[result[i], result[j]] = [result[j], result[i]]]: both reads come
    first, then [result[i]] and [result[j]] are written.  (Both indices
    are within the array where [shuffle] swaps; outside it the list is
    left as it is.) *)
Definition swap {A} (i j : nat) (result : list A) : list A :=
  match result !! i, result !! j with
  | Some a, Some b => <[j := a]> (<[i := b]> result)
  | _, _ => result
  end.

(** The loop of [shuffle], at [i]:
    [for (; i > 0; i--) { const j = this.int(0, i); swap }] *)
Fixpoint shuffleFrom {A} (i : nat) (result : list A) : M (list A) :=
  match i with
  | O => ret result
  | S i' =>
    bind (int 0 (inject_Z (Z.of_nat i)))
         (fun j => shuffleFrom i' (swap i (Z.to_nat j) result))
  end.

(** [shuffle(array)]: a shuffled copy *)
Definition shuffle {A} (array : list A) : M (list A) :=
  shuffleFrom (length array - 1) array.

End SeededRandom.

Declare Scope rng_scope.
Delimit Scope rng_scope with rng.
Notation "'let*' x ':=' c 'in' k" :=
  (SeededRandom.bind c (fun x => k))
  (at level 10, x pattern, c at level 100, k at level 200) : rng_scope.

(* ===================================================================== *)
(** ** SeedUtil.js *)
(* ===================================================================== *)

Module SeedUtil.

(** [mixSeed(seed, value)] *)
Definition mixSeed (seed value : Z) : Z :=
  let x := Js.toUint32 (Js.xor seed (Js.toUint32 value)) in
  let x := Js.toUint32 (Js.imul (Js.xor x (Js.ushr x 16)) 0x85ebca6b) in
  let x := Js.toUint32 (Js.imul (Js.xor x (Js.ushr x 13)) 0xc2b2ae35) in
  let x := Js.toUint32 (Js.xor x (Js.ushr x 16)) in
  Js.toUint32 x.

(** The parts handed to [seedFromParts].  Number parts are integers at
    every call site (seeds, counters, depths, [x|0]). *)
Inductive Part :=
| PNum (n : Z)
| PStr (s : string)
| PBool (b : bool)
| PNull.

Definition partToU32 (part : Part) : Z :=
  match part with
  | PNum n => Js.toUint32 n
  | PStr s => SeededRandom.fromString s
  | PBool b => if b then 1 else 0
  | PNull => 0
  end.

(** [seedFromParts(...parts)] *)
Definition seedFromParts (parts : list Part) : Z :=
  Js.toUint32
    (fold_left (fun s p => mixSeed s (partToU32 p)) parts (Js.toUint32 0xA5A5A5A5)).

End SeedUtil.

(* ===================================================================== *)
(** ** MapGenerator.js: data *)
(* ===================================================================== *)

Module MapGenerator.

Record Point := { px : Q; py : Q }.

(** A spawn descriptor.  Enemy descriptors carry a patrol tag and radius,
    elite and boss descriptors do not; a boss descriptor is created
    without [active] and [killed], which reads as [false] in every test
    the code makes on them.  [enemyId] is set once materialized.
    [type] is the result of [rng.pick(pool)], [null] on an empty pool. *)
Record Spawn := {
  sx : Q;
  sy : Q;
  stype : option string;
  patrol : option string;
  patrolRadius : option Z;
  active : bool;
  killed : bool;
  enemyId : option nat
}.

Record Obstacle := {
  ox : Q;
  oy : Q;
  otype : option string;
  radius : Z;
  rotation : option Q;
  destructible : bool;
  hp : option Z;
  damage : option Z
}.

Record Decoration := {
  dx : Q;
  dy : Q;
  dtype : option string;
  scale : Q;
  drotation : Q;
  dalpha : Q
}.

Record Star := {
  star_x : Q;
  star_y : Q;
  size : Q;
  brightness : Q;
  twinkle : bool
}.

Record Wisp := {
  wx : Q;
  wy : Q;
  wwidth : Q;
  wheight : Q;
  wcolor : string;
  walpha : Q;
  wrotation : Q
}.

Record Parallax := {
  background_color : string;
  background_stars : list Star;
  background_scrollSpeed : Q;
  midground_stars : list Star;
  midground_scrollSpeed : Q;
  foreground_objects : list Wisp;
  foreground_scrollSpeed : Q;
  particles_scrollSpeed : Q
}.

Record Portal := {
  portal_x : Q;
  portal_y : Q;
  destination : option string;
  portal_type : string
}.

(** The seed bundle of a zone ([options.seeds]). *)
Record Seeds := {
  seeds_zone : option Z;
  seeds_macro : option Z;
  seeds_meso : option Z;
  seeds_micro : option Z;
  seeds_mods : option Z;
  seeds_encounters : option Z;
  seeds_loot : option Z
}.

Definition noSeeds : Seeds :=
  {| seeds_zone := None; seeds_macro := None; seeds_meso := None;
     seeds_micro := None; seeds_mods := None; seeds_encounters := None;
     seeds_loot := None |}.

(** The [options] argument of [generate] and [generateBossZone]. *)
Record Options := {
  opt_seeds : option Seeds;
  opt_layout : option string;
  opt_backdrop : option string;
  opt_depth : option Z;
  opt_mods : option (list string)
}.

(** A generated zone.  The last six fields are attached by
    [World.loadZone] after generation. *)
Record Zone := {
  seed : Z;
  width : Q;
  height : Q;
  biome : option string;
  isBossZone : bool;
  spawn : Point;
  exit : option Point;
  enemySpawns : list Spawn;
  eliteSpawns : list Spawn;
  bossSpawn : option Spawn;
  obstacles : list Obstacle;
  decorations : list Decoration;
  parallax : Parallax;
  pickups : list Point;
  portals : list Portal;
  depth : option Z;
  mods : option (list string);
  layout : option string;
  backdrop : option string;
  signature : option string;
  seeds : option Seeds
}.

(** *** Act configuration (the fields the core reads) *)

(** [cfg.width] and [cfg.height]: an array of at least two numbers (the
    first two are used), a number, or anything else. *)
Inductive RangeSpec :=
| RArr (lo hi : Q)
| RNum (v : Q)
| ROther.

Record GenerationCfg := {
  cfg_enemyDensity : option Q;
  cfg_eliteDensity : option Q;
  cfg_obstacleDensity : option Q;
  cfg_width : RangeSpec;
  cfg_height : RangeSpec
}.

Record EnemiesCfg := {
  cfg_pool : option (list string);
  cfg_elitePool : option (list string)
}.

Record NebulaCfg := {
  nebula_enabled : bool;
  nebula_count : option Q;
  nebula_color : option string
}.

Record ParallaxCfg := {
  cfg_bgColor : option string;
  cfg_nebula : option NebulaCfg
}.

Record BossCfg := {
  cfg_arenaWidth : option Q;
  cfg_arenaHeight : option Q;
  cfg_boss_type : option string
}.

Record Modifier := { mod_id : string; mod_weight : option Q }.

Record ModifiersCfg := {
  cfg_mod_pool : option (list Modifier);
  cfg_baseline : option (list string)
}.

Record ActConfig := {
  act_id : option string;
  act_seed : option Z;
  act_biome : option string;
  act_zones : option Q;
  act_generation : option GenerationCfg;
  act_enemies : option EnemiesCfg;
  act_parallax : option ParallaxCfg;
  act_boss : option BossCfg;
  act_modifiers : option ModifiersCfg
}.

(* ===================================================================== *)
(** *** MapGenerator.js: functions *)
(* ===================================================================== *)

Local Open Scope rng_scope.
Local Abbreviation M := SeededRandom.M.
Local Abbreviation ret := SeededRandom.ret.
Local Abbreviation next := SeededRandom.next.
Local Abbreviation range := SeededRandom.range.
Local Abbreviation int := SeededRandom.int.
Local Abbreviation chance := SeededRandom.chance.
Local Abbreviation pick := SeededRandom.pick.
Local Abbreviation new := SeededRandom.new.

(** [v || d] on an optional number: [undefined] and [0] are falsy. *)
Definition num_or (v : option Q) (d : Q) : Q :=
  match v with
  | Some q => if Qeq_bool q 0 then d else q
  | None => d
  end.

(** [v || d] on an optional string: [undefined] and the empty string are
    falsy. *)
Definition str_or (v : option string) (d : string) : string :=
  match v with
  | Some s => if String.eqb s "" then d else s
  | None => d
  end.

(** [o === s] for a value that is a string or [null]/[undefined]. *)
Definition is_str (o : option string) (s : string) : bool :=
  match o with
  | Some s' => String.eqb s' s
  | None => false
  end.

(** [for (let i = 0; i < n; i++) out.push(body(i))], started at [i] with
    [n] iterations to go. *)
Fixpoint for_push {A} (n : nat) (i : Z) (body : Z -> M A) (out : list A)
  : M (list A) :=
  match n with
  | O => ret out
  | S n' => let* a := body i in for_push n' (i + 1) body (out ++ [a])
  end.

(** [pickRange] of [generate] (it draws from [rngMeso]). *)
Definition pickRange (v : RangeSpec) (fallbackMin fallbackMax : Q) : M Q :=
  match v with
  | RArr lo hi => let* n := int lo hi in ret (inject_Z n)
  | RNum n => ret n
  | ROther => let* n := int fallbackMin fallbackMax in ret (inject_Z n)
  end.

(** [generateSpawnPoint(rng, w, h, cfg)] *)
Definition generateSpawnPoint (w h : Q) : M Point :=
  let* edge := pick ["bottom"; "left"; "right"]%string in
  let margin := 100%Q in
  if is_str edge "bottom" then
    let* x := range margin (w - margin) in
    ret {| px := x; py := (h - margin)%Q |}
  else if is_str edge "left" then
    let* y := range margin (h - margin) in
    ret {| px := margin; py := y |}
  else if is_str edge "right" then
    let* y := range margin (h - margin) in
    ret {| px := (w - margin)%Q; py := y |}
  else
    ret {| px := (w / 2)%Q; py := (h - margin)%Q |}.

(** [generateExitPoint(rng, spawn, w, h)] *)
Definition generateExitPoint (spawn : Point) (w h : Q) : M Point :=
  let margin := 100%Q in
  if Js.ltb (h / 2) (py spawn) then
    let* x := range margin (w - margin) in
    ret {| px := x; py := margin |}
  else if Js.ltb (px spawn) (w / 2) then
    let* y := range margin (h - margin) in
    ret {| px := (w - margin)%Q; py := y |}
  else
    let* y := range margin (h - margin) in
    ret {| px := margin; py := y |}.

(** The minimum separation between enemy spawns, by layout. *)
Definition minDistBetween (layout : string) : Q :=
  let d := 150%Q in
  let d := if String.eqb layout "CLUTTERED" then 120%Q else d in
  let d := if String.eqb layout "OPEN" then 165%Q else d in
  let d := if String.eqb layout "CORRIDOR" then 140%Q else d in
  let d := if String.eqb layout "CRAMPED" then 115%Q else d in
  d.

Definition minDistFromSpawn : Q := 300.
Definition minDistFromExit : Q := 200.

(** The state of the rejection-sampling loop of [generateEnemySpawns] when
    it is left: the accepted spawns, the value of the loop counter [i]
    (the number of candidates drawn), and whether the model ran out of
    fuel before the loop condition failed. *)
Record Placement := {
  placed : list Spawn;
  attempts : Z;
  out_of_fuel : bool
}.

(** [for (let i = 0; i < count * 3 && spawns.length < count; i++) {...}] *)
Fixpoint placeEnemies (pool : list string) (count : Z) (w h : Q)
    (spawn exit : Point) (layout : string)
    (fuel : nat) (i : Z) (spawns : list Spawn) : M Placement :=
  if (i <? count * 3) && (Z.of_nat (length spawns) <? count) then
    match fuel with
    | O => ret {| placed := spawns; attempts := i; out_of_fuel := true |}
    | S fuel' =>
      let continue := placeEnemies pool count w h spawn exit layout fuel' (i + 1) in
      let* x := range 100 (w - 100) in
      let* y := range 100 (h - 100) in
      let* x :=
        if String.eqb layout "CORRIDOR" then
          let* biased := chance 0.7 in
          if biased then range (w * 0.35) (w * 0.65) else ret x
        else ret x in
      if Js.hypot_lt (x - px spawn) (y - py spawn) minDistFromSpawn then
        continue spawns
      else if Js.hypot_lt (x - px exit) (y - py exit) minDistFromExit then
        continue spawns
      else if existsb
                (fun s => Js.hypot_lt (x - sx s) (y - sy s) (minDistBetween layout))
                spawns then
        continue spawns
      else
        let* type := pick pool in
        let* patrol := pick ["static"; "circle"; "line"; "wander"]%string in
        let* patrolRadius := int 50 150 in
        continue
          (spawns ++ [{| sx := x; sy := y; stype := type; patrol := patrol;
                         patrolRadius := Some patrolRadius;
                         active := false; killed := false; enemyId := None |}])
    end
  else ret {| placed := spawns; attempts := i; out_of_fuel := false |}.

(** [generateEnemySpawns]: the run of its loop, from [i = 0] and no spawn,
    with fuel for [count * 3] iterations. *)
Definition enemyPlacement (pool : list string) (density w h : Q)
    (spawn exit : Point) (layout : option string) : M Placement :=
  let count := Js.floor (w * h * density) in
  let layout := str_or layout "OPEN" in
  placeEnemies pool count w h spawn exit layout (Z.to_nat (count * 3)) 0 [].

(** [generateEnemySpawns(rng, pool, density, w, h, spawn, exit, options)] *)
Definition generateEnemySpawns (pool : list string) (density w h : Q)
    (spawn exit : Point) (layout : option string) : M (list Spawn) :=
  let* run := enemyPlacement pool density w h spawn exit layout in
  ret (placed run).

(** [generateEliteSpawns(rng, pool, density, w, h)] *)
Definition generateEliteSpawns (pool : list string) (density w h : Q)
  : M (list Spawn) :=
  let count := Z.max 1 (Js.floor (w * h * density)) in
  for_push (Z.to_nat count) 0
    (fun _ =>
       let* x := range 200 (w - 200) in
       let* y := range 200 (h - 200) in
       let* type := pick pool in
       ret {| sx := x; sy := y; stype := type; patrol := None;
              patrolRadius := None; active := false; killed := false;
              enemyId := None |})
    [].

(** *** Placement predicates *)

(** The candidate [(x, y)] is not closer than [d] to [(cx, cy)]. *)
Definition apart (d x y cx cy : Q) : Prop :=
  Js.hypot_lt (x - cx) (y - cy) d = false.

(** What the rejection-sampling loop keeps true of the accepted spawns:
    each is apart from the zone spawn point and from the exit, and each
    is apart from every spawn accepted before it. *)
Definition placement_ok (spawn exit : Point) (layout : string)
    (spawns : list Spawn) : Prop :=
  Forall (fun s => apart minDistFromSpawn (sx s) (sy s) (px spawn) (py spawn)
                   /\ apart minDistFromExit (sx s) (sy s) (px exit) (py exit))
         spawns
  /\ ForallOrdPairs
       (fun a b => apart (minDistBetween layout) (sx b) (sy b) (sx a) (sy a))
       spawns.

Section WithMath.
Context {math : Js.Math}.

(** [generateObstacles(rng, density, w, h, options)] *)
Definition generateObstacles (density w h : Q)
    (depth : option Z) (mods : option (list string)) (layout : option string)
  : M (list Obstacle) :=
  let depth := match depth with
               | Some d => if d =? 0 then 1 else d
               | None => 1
               end in
  let mods := default [] mods in
  let modSet : gset string := list_to_set mods in
  let layout := str_or layout "OPEN" in
  let count := Js.floor (w * h * density) in
  for_push (Z.to_nat count) 0
    (fun _ =>
       let typePool :=
         if bool_decide ("MINEFIELD"%string ∈ modSet)
         then ["asteroid"; "debris"; "mine"; "mine"]%string
         else ["asteroid"; "debris"]%string in
       let* type := pick typePool in
       let* x :=
         if String.eqb layout "CORRIDOR" then
           let* sides := chance 0.6 in
           if sides then
             let* leftLane := chance 0.5 in
             if leftLane then range 100 (w * 0.25) else range (w * 0.75) (w - 100)
           else range 100 (w - 100)
         else range 100 (w - 100) in
       let* y := range 100 (h - 100) in
       let* radius := if is_str type "asteroid" then int 30 80 else int 15 30 in
       let* rotation := range 0 (Js.PI * 2) in
       let* hp :=
         if is_str type "asteroid" then int 25 60
         else ret (if is_str type "mine" then 6 else 12) in
       ret {| ox := x; oy := y; otype := type; radius := radius;
              rotation := Some rotation; destructible := true; hp := Some hp;
              damage := Some (if is_str type "mine"
                              then 8 + Js.floor (inject_Z depth * 0.25)
                              else 0) |})
    [].

(** [generateBossArenaObstacles(rng, w, h)] *)
Definition generateBossArenaObstacles (w h : Q) : M (list Obstacle) :=
  let* pillarCount := int 2 4 in
  for_push (Z.to_nat pillarCount) 0
    (fun i =>
       let angle := (inject_Z i / inject_Z pillarCount * Js.PI * 2)%Q in
       let* dist := range 200 350 in
       ret {| ox := (w / 2 + Js.cos angle * dist)%Q;
              oy := (h / 2 + Js.sin angle * dist)%Q;
              otype := Some "pillar"%string; radius := 40; rotation := None;
              destructible := false; hp := None; damage := None |})
    [].

(** [generateDecorations(rng, biome, w, h)] *)
Definition generateDecorations (biome : option string) (w h : Q)
  : M (list Decoration) :=
  let count := Js.floor (w * h * 0.001) in
  let pool :=
    if is_str biome "space" then ["star_cluster"; "nebula_wisp"; "dust_cloud"]%string
    else if is_str biome "asteroid" then ["rock_small"; "crystal"; "ice_chunk"]%string
    else if is_str biome "station" then ["debris"; "panel"; "wire"]%string
    else ["star_cluster"; "nebula_wisp"; "dust_cloud"]%string in
  for_push (Z.to_nat count) 0
    (fun _ =>
       let* x := range 0 w in
       let* y := range 0 h in
       let* type := pick pool in
       let* scale := range 0.5 1.5 in
       let* rotation := range 0 (Js.PI * 2) in
       let* alpha := range 0.3 0.7 in
       ret {| dx := x; dy := y; dtype := type; scale := scale;
              drotation := rotation; dalpha := alpha |})
    [].

(** [generateStarfield(rng, w, h, density)] *)
Definition generateStarfield (w h density : Q) : M (list Star) :=
  let count := Js.floor (w * h * density) in
  for_push (Z.to_nat count) 0
    (fun _ =>
       let* x := range 0 w in
       let* y := range 0 h in
       let* size := range 0.5 2 in
       let* brightness := range 0.3 1 in
       let* twinkle := chance 0.3 in
       ret {| star_x := x; star_y := y; size := size;
              brightness := brightness; twinkle := twinkle |})
    [].

(** [generateNebulaWisps(rng, w, h, nebulaConfig)].  The loop bound
    [count] is a configured number or an integer drawn from the stream; a
    loop [i < count] from [0] runs [ceil(count)] times. *)
Definition generateNebulaWisps (w h : Q) (nebulaConfig : NebulaCfg)
  : M (list Wisp) :=
  if negb (nebula_enabled nebulaConfig) then ret []
  else
    let* count :=
      match nebula_count nebulaConfig with
      | Some c => if Qeq_bool c 0
                  then (let* n := int 3 8 in ret (inject_Z n))
                  else ret c
      | None => let* n := int 3 8 in ret (inject_Z n)
      end in
    let color := str_or (nebula_color nebulaConfig) "#4400aa" in
    for_push (Z.to_nat (Qceiling count)) 0
      (fun _ =>
         let* x := range 0 w in
         let* y := range 0 h in
         let* width := range 200 500 in
         let* height := range 100 300 in
         let* alpha := range 0.05 0.15 in
         let* rotation := range 0 (Js.PI * 2) in
         ret {| wx := x; wy := y; wwidth := width; wheight := height;
                wcolor := color; walpha := alpha; wrotation := rotation |})
      [].

(** The palette of [generateParallax]: [palette[variant] || palette.A]. *)
Definition palette (variant : string) : string * string :=
  if String.eqb variant "A" then ("#0a0a15", "#4400aa")%string
  else if String.eqb variant "B" then ("#050a1a", "#0044aa")%string
  else if String.eqb variant "C" then ("#0b0515", "#aa0044")%string
  else if String.eqb variant "D" then ("#050515", "#00aa88")%string
  else ("#0a0a15", "#4400aa")%string.

(** [generateParallax(rng, actConfig, w, h, variant)] *)
Definition generateParallax (actConfig : ActConfig) (w h : Q) (variant : string)
  : M Parallax :=
  let cfg := default {| cfg_bgColor := None; cfg_nebula := None |}
                     (act_parallax actConfig) in
  let p := palette variant in
  let* stars0 := generateStarfield (w * 1.5) (h * 1.5) 0.0003 in
  let* stars1 := generateStarfield (w * 1.3) (h * 1.3) 0.0002 in
  let nebula := default {| nebula_enabled := false; nebula_count := None;
                           nebula_color := None |} (cfg_nebula cfg) in
  let* objects :=
    generateNebulaWisps w h
      {| nebula_enabled := nebula_enabled nebula;
         nebula_count := nebula_count nebula;
         nebula_color := Some (str_or (nebula_color nebula) (snd p)) |} in
  ret {| background_color := str_or (cfg_bgColor cfg) (fst p);
         background_stars := stars0;
         background_scrollSpeed := 0.1;
         midground_stars := stars1;
         midground_scrollSpeed := 0.3;
         foreground_objects := objects;
         foreground_scrollSpeed := 0.6;
         particles_scrollSpeed := 0.9 |}.

(** [generate(actConfig, zoneSeed, options)] *)
Definition generate (actConfig : ActConfig) (zoneSeed : Z) (options : Options)
  : Zone :=
  let seeds := default noSeeds (opt_seeds options) in
  let layout := str_or (opt_layout options) "OPEN" in
  let backdrop := str_or (opt_backdrop options) "A" in
  let rngMacro := new (default zoneSeed (seeds_macro seeds)) in
  let rngMeso := new (default zoneSeed (seeds_meso seeds)) in
  let rngMicro := new (default zoneSeed (seeds_micro seeds)) in
  let cfg := default {| cfg_enemyDensity := None; cfg_eliteDensity := None;
                        cfg_obstacleDensity := None; cfg_width := ROther;
                        cfg_height := ROther |} (act_generation actConfig) in
  let depth := match opt_depth options with
               | Some d => if d =? 0 then 1 else d
               | None => 1
               end in
  let mods := default [] (opt_mods options) in
  let modSet : gset string := list_to_set mods in
  let has (m : string) := bool_decide (m ∈ modSet) in
  let scale (v mult : Q) := (v * mult)%Q in
  let depthEnemyMult := (1 + Js.min (inject_Z depth * 0.012) 1.6)%Q in
  let depthEliteMult := (1 + Js.min (inject_Z depth * 0.010) 1.2)%Q in
  let depthObsMult := (1 + Js.min (inject_Z depth * 0.008) 1.0)%Q in
  let enemyDensity := (num_or (cfg_enemyDensity cfg) 0.0005 * depthEnemyMult)%Q in
  let eliteDensity := (num_or (cfg_eliteDensity cfg) 0.00008 * depthEliteMult)%Q in
  let obstacleDensity := (num_or (cfg_obstacleDensity cfg) 0.0002 * depthObsMult)%Q in
  let enemyDensity := if has "BULLET_HELL" then scale enemyDensity 1.35%Q else enemyDensity in
  let eliteDensity := if has "ELITE_PACKS" then scale eliteDensity 1.55%Q else eliteDensity in
  let enemyDensity := if has "FAST_ENEMIES" then scale enemyDensity 1.10%Q else enemyDensity in
  let obstacleDensity :=
    if has "DENSE_OBSTACLES" then scale obstacleDensity 1.35%Q else obstacleDensity in
  let obstacleDensity :=
    if has "MINEFIELD" then scale obstacleDensity 1.15%Q else obstacleDensity in
  let crampedMult := if has "CRAMPED_ZONE" then 0.85%Q else 1.0%Q in
  let '(width, rngMeso) := pickRange (cfg_width cfg) 1500 3000 rngMeso in
  let '(height, rngMeso) := pickRange (cfg_height cfg) 1500 3000 rngMeso in
  let fl (v : Q) : Q := inject_Z (Js.floor v) in
  let '(width, height, enemyDensity, eliteDensity, obstacleDensity) :=
    if String.eqb layout "CORRIDOR" then
      (fl (width * 0.75), fl (height * 1.25),
       enemyDensity * 1.05, eliteDensity, obstacleDensity * 0.85)%Q
    else if String.eqb layout "ARENA" then
      (fl (width * 1.15), fl (height * 0.9),
       enemyDensity, eliteDensity, obstacleDensity * 0.9)%Q
    else if String.eqb layout "CLUTTERED" then
      (width, height, enemyDensity, eliteDensity, obstacleDensity * 1.55)%Q
    else if String.eqb layout "CRAMPED" then
      (fl (width * 0.78), fl (height * 0.78),
       enemyDensity * 1.1, eliteDensity * 1.05, obstacleDensity * 1.6)%Q
    else
      (width, height, enemyDensity, eliteDensity, obstacleDensity * 0.9)%Q in
  let enemyDensity := Js.min enemyDensity 0.0012%Q in
  let eliteDensity := Js.min eliteDensity 0.00025%Q in
  let obstacleDensity := Js.min obstacleDensity 0.0008%Q in
  let '(width, height) :=
    if negb (Qeq_bool crampedMult 1.0)
    then (fl (width * crampedMult)%Q, fl (height * crampedMult)%Q)
    else (width, height) in
  let '(spawn, rngMeso) := generateSpawnPoint width height rngMeso in
  let '(parallax, rngMacro) :=
    generateParallax actConfig width height backdrop rngMacro in
  let '(exit, rngMeso) := generateExitPoint spawn width height rngMeso in
  let enemies := default {| cfg_pool := None; cfg_elitePool := None |}
                         (act_enemies actConfig) in
  let '(enemySpawns, rngMicro) :=
    generateEnemySpawns (default ["grunt"%string] (cfg_pool enemies))
      enemyDensity width height spawn exit (Some layout) rngMicro in
  let '(eliteSpawns, rngMicro) :=
    generateEliteSpawns (default ["commander"%string] (cfg_elitePool enemies))
      eliteDensity width height rngMicro in
  let '(obstacles, rngMeso) :=
    generateObstacles obstacleDensity width height
      (Some depth) (Some mods) (Some layout) rngMeso in
  let '(decorations, rngMicro) :=
    generateDecorations (act_biome actConfig) width height rngMicro in
  {| seed := zoneSeed;
     width := width;
     height := height;
     biome := Some (str_or (act_biome actConfig) "space");
     isBossZone := false;
     spawn := spawn;
     exit := Some exit;
     enemySpawns := enemySpawns;
     eliteSpawns := eliteSpawns;
     bossSpawn := None;
     obstacles := obstacles;
     decorations := decorations;
     parallax := parallax;
     pickups := [];
     portals := [];
     depth := None; mods := None; layout := None; backdrop := None;
     signature := None; seeds := None |}.

(** [generateBossZone(actConfig, zoneSeed, options)] *)
Definition generateBossZone (actConfig : ActConfig) (zoneSeed : Z)
    (options : Options) : Zone :=
  let seeds := default noSeeds (opt_seeds options) in
  let backdrop := str_or (opt_backdrop options) "A" in
  let rng := new (default zoneSeed (seeds_meso seeds)) in
  let rngMacro := new (default zoneSeed (seeds_macro seeds)) in
  let cfg := default {| cfg_arenaWidth := None; cfg_arenaHeight := None;
                        cfg_boss_type := None |} (act_boss actConfig) in
  let width := num_or (cfg_arenaWidth cfg) 1200 in
  let height := num_or (cfg_arenaHeight cfg) 1000 in
  let '(obstacles, rng) := generateBossArenaObstacles width height rng in
  let '(parallax, rngMacro) :=
    generateParallax actConfig width height backdrop rngMacro in
  {| seed := zoneSeed;
     width := width;
     height := height;
     biome := act_biome actConfig;
     isBossZone := true;
     spawn := {| px := width / 2; py := height - 100 |}%Q;
     exit := None;
     bossSpawn := Some {| sx := (width / 2)%Q; sy := 200;
                          stype := Some (str_or (cfg_boss_type cfg) "sentinel");
                          patrol := None; patrolRadius := None;
                          active := false; killed := false; enemyId := None |};
     enemySpawns := [];
     eliteSpawns := [];
     obstacles := obstacles;
     decorations := [];
     parallax := parallax;
     pickups := [];
     portals := [];
     depth := None; mods := None; layout := None; backdrop := None;
     signature := None; seeds := None |}.

End WithMath.

(** [createZoneSeed(actSeed, zoneIndex)] *)
Definition createZoneSeed (actSeed zoneIndex : Z) : Z :=
  let a := Js.toUint32 actSeed in
  let z := Js.toUint32 (zoneIndex + 1) in
  Js.toUint32 (Js.xor a (Js.imul z 0x9E3779B9)).

(** A descriptor nobody has materialized or killed. *)
Definition dormant (s : Spawn) : Prop :=
  active s = false /\ killed s = false /\ enemyId s = None.

(** The act configuration with [generation.obstacleDensity] replaced. *)
Definition withObstacleDensity (v : option Q) (a : ActConfig) : ActConfig :=
  let cfg := default {| cfg_enemyDensity := None; cfg_eliteDensity := None;
                        cfg_obstacleDensity := None; cfg_width := ROther;
                        cfg_height := ROther |} (act_generation a) in
  {| act_id := act_id a;
     act_seed := act_seed a;
     act_biome := act_biome a;
     act_zones := act_zones a;
     act_generation :=
       Some {| cfg_enemyDensity := cfg_enemyDensity cfg;
               cfg_eliteDensity := cfg_eliteDensity cfg;
               cfg_obstacleDensity := v;
               cfg_width := cfg_width cfg;
               cfg_height := cfg_height cfg |};
     act_enemies := act_enemies a;
     act_parallax := act_parallax a;
     act_boss := act_boss a;
     act_modifiers := act_modifiers a |}.


End MapGenerator.

(* ===================================================================== *)
(** ** SpawnGrid.js *)
(* ===================================================================== *)

Module SpawnGrid.

(** The grid stores references to spawn objects.  It is generic in the
    type [A] of references; [spawn_x] and [spawn_y] read the coordinates
    of the referenced object. *)
Record t (A : Type) := mk {
  cellSize : Z;
  cells : gmap Z (list A)
}.
Arguments mk {A}.
Arguments cellSize {A}.
Arguments cells {A}.

Section Grid.
Context {A : Type} (spawn_x spawn_y : A -> Q).

(** [new SpawnGrid(cellSize)] *)
Definition new (cellSize : Q) : t A :=
  {| cellSize := Z.max 64 (Js.toInt32 (Js.trunc cellSize)); cells := ∅ |}.

(** [_key(cx, cy)] *)
Definition _key (cx cy : Z) : Z := Js.xor (Js.shl cx 16) (Js.and cy 0xFFFF).

(** [_cellCoord(x, y)] *)
Definition _cellCoord (g : t A) (x y : Q) : Z * Z :=
  (Js.floor (x / inject_Z (cellSize g)), Js.floor (y / inject_Z (cellSize g))).

Definition clear (g : t A) : t A := {| cellSize := cellSize g; cells := ∅ |}.

(** [insert(spawn)] *)
Definition insert (spawn : A) (g : t A) : t A :=
  let '(cx, cy) := _cellCoord g (spawn_x spawn) (spawn_y spawn) in
  let k := _key cx cy in
  let arr := default [] (cells g !! k) in
  {| cellSize := cellSize g; cells := <[k := arr ++ [spawn]]> (cells g) |}.

(** [build(spawns)]: entries that are [null] are skipped. *)
Definition build (spawns : list (option A)) (g : t A) : t A :=
  fold_left
    (fun g s => match s with Some s => insert s g | None => g end)
    spawns (clear g).

(** The values [lo, lo + 1, ..., hi] of a loop
    [for (let c = lo; c <= hi; c++)]. *)
Definition cellRange (lo hi : Z) : list Z :=
  map (fun i => lo + Z.of_nat i) (seq 0 (Z.to_nat (hi - lo + 1))).

(** [query(x, y, r)] *)
Definition query (g : t A) (x y r : Q) : list A :=
  let minX := (x - r)%Q in
  let maxX := (x + r)%Q in
  let minY := (y - r)%Q in
  let maxY := (y + r)%Q in
  let c0 := _cellCoord g minX minY in
  let c1 := _cellCoord g maxX maxY in
  flat_map
    (fun cx =>
       flat_map
         (fun cy => default [] (cells g !! _key cx cy))
         (cellRange (snd c0) (snd c1)))
    (cellRange (fst c0) (fst c1)).

(** [spawn] is stored in the bucket of its own cell. *)
Definition indexed (g : t A) (spawn : A) : Prop :=
  let '(cx, cy) := _cellCoord g (spawn_x spawn) (spawn_y spawn) in
  In spawn (default [] (cells g !! _key cx cy)).

End Grid.

End SpawnGrid.

(* ===================================================================== *)
(** ** The ambient source [Math.random()] *)
(* ===================================================================== *)

Module Ambient.

(** The host's unseeded generator: the values it will return, and how
    many have been consumed. *)
Record t := mk { values : nat -> Q; calls : nat }.

(** [Math.random()] *)
Definition random (a : t) : Q * t :=
  (values a (calls a), {| values := values a; calls := S (calls a) |}).

End Ambient.

(* ===================================================================== *)
(** ** The persistent profile record [State.meta] *)
(* ===================================================================== *)

Module Meta.

(** [State.meta.freshness] *)
Record FreshnessRecord := { window : Z; recent : list string }.

(** [State.meta.depth] *)
Record DepthRecord := {
  bestDepth : Z;
  unlocked : list string;
  lastUnlockAt : Z
}.

(** [State.meta]: the fields the core reads and writes. *)
Record t := mk {
  worldSeed : option Z;
  runIndex : option Z;
  level : option Z;
  depth : option DepthRecord;
  freshness : option FreshnessRecord
}.

Definition set_depth (d : DepthRecord) (m : t) : t :=
  {| worldSeed := worldSeed m; runIndex := runIndex m; level := level m;
     depth := Some d; freshness := freshness m |}.

Definition set_freshness (f : FreshnessRecord) (m : t) : t :=
  {| worldSeed := worldSeed m; runIndex := runIndex m; level := level m;
     depth := depth m; freshness := Some f |}.

End Meta.

(* ===================================================================== *)
(** ** Freshness.js *)
(* ===================================================================== *)

Module Freshness.

Import Meta.

(** [ensure(meta, cfg)], with [cfg.window] as [cfgWindow].  Returns the
    record and the updated [meta]. *)
Definition ensure (meta : Meta.t) (cfgWindow : option Q)
  : FreshnessRecord * Meta.t :=
  let f := default {| window := 8; recent := [] |} (freshness meta) in
  let window := match cfgWindow with
                | Some w => Js.toInt32 (Js.trunc w)
                | None => Js.toInt32 (window f)
                end in
  let window := Z.max 1 (Z.min 64 window) in
  let recent :=
    if Z.of_nat (length (recent f)) >? window
    then drop (length (recent f) - Z.to_nat window) (recent f)
    else recent f in
  let f := {| window := window; recent := recent |} in
  (f, set_freshness f meta).

(** [count(meta, key)] *)
Definition count (meta : Meta.t) (key : string) : nat :=
  match freshness meta with
  | None => O
  | Some f => length (filter (fun k => k = key) (recent f))
  end.

(** [applyPenalty(weight, countRecent, penaltyBase)].  The power is exact
    here; the code's [Math.pow] rounds, and underflows to [0] for a small
    base and many occurrences. *)
Definition applyPenalty (weight : Q) (countRecent : nat) (penaltyBase : option Q) : Q :=
  let base := match penaltyBase with
              | Some b => if Js.ltb 0 b && Js.ltb b 1 then b else 0.25%Q
              | None => 0.25%Q
              end in
  (weight * Qpower base (Z.of_nat countRecent))%Q.

(** [push(meta, key)] *)
Definition push (meta : Meta.t) (key : string) : Meta.t :=
  let '(f, meta) := ensure meta None in
  let recent := recent f ++ [key] in
  let recent :=
    if Z.of_nat (length recent) >? window f
    then drop (length recent - Z.to_nat (window f)) recent
    else recent in
  set_freshness {| window := window f; recent := recent |} meta.

Section Pick.
Context {A : Type} (weight : A -> option Q) (keyFn : A -> string).

(** The rows [{opt, key, w}] built by [pick]. *)
Definition Row : Type := A * string * Q.

(** [for (const row of weights) { acc += row.w; if (r <= acc) return ... }] *)
Fixpoint scan (r acc : Q) (weights : list Row) : option (A * string) :=
  match weights with
  | [] => None
  | (opt, key, w) :: rest =>
    let acc := (acc + w)%Q in
    if Js.leb r acc then Some (opt, key) else scan r acc rest
  end.

Definition sumW (weights : list Row) : Q :=
  fold_left (fun total row => (total + snd row)%Q) weights 0%Q.

(** [pick(rng, options, keyFn, meta, penaltyBase)]: [null] on no
    options, else [{selected, key}]. *)
Definition pick (options : list A) (meta : Meta.t) (penaltyBase : option Q)
  : SeededRandom.M (option (A * string)) :=
  match options with
  | [] => SeededRandom.ret None
  | fallback :: _ =>
    let w0 opt := default 1%Q (weight opt) in
    let penalized :=
      map (fun opt =>
             (opt, keyFn opt,
              applyPenalty (Js.max 0 (w0 opt)) (count meta (keyFn opt)) penaltyBase))
          options in
    let unpenalized :=
      map (fun opt => (opt, keyFn opt, Js.max 0 (w0 opt))) options in
    let draw (weights : list Row) (total : Q) :=
      SeededRandom.bind (SeededRandom.range 0 total)
        (fun r =>
           SeededRandom.ret
             (match scan r 0 weights with
              | Some row => Some row
              | None => option_map (fun row => (fst (fst row), snd (fst row)))
                                   (last weights)
              end)) in
    if Js.leb (sumW penalized) 0 then
      if Js.leb (sumW unpenalized) 0
      then SeededRandom.ret (Some (fallback, keyFn fallback))
      else draw unpenalized (sumW unpenalized)
    else draw penalized (sumW penalized)
  end.

End Pick.

End Freshness.

(* ===================================================================== *)
(** ** DepthRules.js *)
(* ===================================================================== *)

Module DepthRules.

Import MapGenerator.
Import Meta.

Definition clamp (v a b : Z) : Z := Z.max a (Z.min b v).

Definition DEFAULT_POOL : list Modifier :=
  [ {| mod_id := "ELITE_PACKS"; mod_weight := Some 1.2%Q |};
    {| mod_id := "BULLET_HELL"; mod_weight := Some 0.9%Q |};
    {| mod_id := "FAST_ENEMIES"; mod_weight := Some 1.1%Q |};
    {| mod_id := "CRAMPED_ZONE"; mod_weight := Some 0.8%Q |};
    {| mod_id := "MINEFIELD"; mod_weight := Some 1.0%Q |};
    {| mod_id := "DENSE_OBSTACLES"; mod_weight := Some 0.9%Q |};
    {| mod_id := "RICH_LOOT"; mod_weight := Some 0.6%Q |} ].

Definition UNLOCK_EVERY_DEPTH : Z := 25.

(** [ensureMeta()]: the record is created when missing.  (The repairs of
    ill-typed fields have nothing to do on a typed record.) *)
Definition ensureMeta (meta : Meta.t) : DepthRecord * Meta.t :=
  let d := default {| bestDepth := 1; unlocked := []; lastUnlockAt := 0 |}
                   (depth meta) in
  (d, set_depth d meta).

(** [modifierSlots(depth)] *)
Definition modifierSlots (depth : Z) : Z :=
  if depth <? 25 then 1
  else if depth <? 50 then 2
  else if depth <? 100 then 3
  else if depth <? 200 then 4
  else 5 + (depth - 200) / 150.

(** The random stream handed to the sampling functions: a seeded
    generator, or [null], in which case [Math.random()] is used. *)
Record Streams := {
  rng : option SeededRandom.t;
  ambient : Ambient.t
}.

(** [rng ? rng.next() : Math.random()] *)
Definition draw (s : Streams) : Q * Streams :=
  match rng s with
  | Some r =>
    let '(v, r) := SeededRandom.next r in
    (v, {| rng := Some r; ambient := ambient s |})
  | None =>
    let '(v, a) := Ambient.random (ambient s) in
    (v, {| rng := None; ambient := a |})
  end.

(** [for (const it of list) { r -= weight; if (r <= 0) return it; }] *)
Fixpoint scan (r : Q) (list : list Modifier) : option Modifier :=
  match list with
  | [] => None
  | it :: rest =>
    let r := (r - default 1%Q (mod_weight it))%Q in
    if Js.leb r 0 then Some it else scan r rest
  end.

(** [weightedPick(list, rng)]: [undefined] only on an empty list. *)
Definition weightedPick (list : list Modifier) (s : Streams)
  : option Modifier * Streams :=
  let total :=
    fold_left (fun total it => (total + default 1%Q (mod_weight it))%Q) list 0%Q in
  let '(v, s) := draw s in
  let r := (v * total)%Q in
  (match scan r list with
   | Some it => Some it
   | None => last list
   end, s).

(** [actConfig.modifiers.pool] when it is an array, else [DEFAULT_POOL] *)
Definition poolOf (actConfig : option ActConfig) : list Modifier :=
  match actConfig with
  | Some act =>
    match act_modifiers act with
    | Some m => default DEFAULT_POOL (cfg_mod_pool m)
    | None => DEFAULT_POOL
    end
  | None => DEFAULT_POOL
  end.

(** [maybeUnlock(depth, actConfig, rng)]: the returned id ([null] when
    nothing is unlocked), the profile record and the streams after the
    call. *)
Definition maybeUnlock (depth : Z) (actConfig : option ActConfig)
    (s : Streams) (meta : Meta.t) : option string * Meta.t * Streams :=
  let '(d, meta) := ensureMeta meta in
  let last := lastUnlockAt d in
  if depth <? UNLOCK_EVERY_DEPTH then (None, meta, s)
  else
    let milestone := depth / UNLOCK_EVERY_DEPTH * UNLOCK_EVERY_DEPTH in
    if milestone <=? last then (None, meta, s)
    else
      let pool := poolOf actConfig in
      let unlockedSet : gset string := list_to_set (unlocked d) in
      let candidates :=
        filter (fun m => mod_id m ∉ unlockedSet) pool in
      match candidates with
      | [] =>
        (None,
         set_depth {| bestDepth := bestDepth d; unlocked := unlocked d;
                      lastUnlockAt := milestone |} meta,
         s)
      | _ =>
        let '(picked, s) := weightedPick candidates s in
        match picked with
        | Some picked =>
          (Some (mod_id picked),
           set_depth {| bestDepth := bestDepth d;
                        unlocked := unlocked d ++ [mod_id picked];
                        lastUnlockAt := milestone |} meta,
           s)
        | None => (None, meta, s) (* no such case: [candidates] is not empty *)
        end
      end.

(** [sampleActive]'s loop: [slots] iterations to go. *)
Fixpoint fill (slots : nat) (available : list Modifier) (picked : list string)
    (s : Streams) : list string * Streams :=
  match slots with
  | O => (picked, s)
  | S slots' =>
    let used : gset string := list_to_set picked in
    let cand := filter (fun m => mod_id m ∉ used) available in
    match cand with
    | [] => (picked, s)
    | _ =>
      let '(p, s) := weightedPick cand s in
      match p with
      | Some p => fill slots' available (picked ++ [mod_id p]) s
      | None => (picked, s) (* no such case: [cand] is not empty *)
      end
    end
  end.

(** [sampleActive(depth, actConfig, rng)] *)
Definition sampleActive (depth : Z) (actConfig : option ActConfig)
    (s : Streams) (meta : Meta.t) : list string * Meta.t * Streams :=
  let '(d, meta) := ensureMeta meta in
  let pool := poolOf actConfig in
  let baseline :=
    match actConfig with
    | Some act =>
      match act_modifiers act with
      | Some m => default ["ELITE_PACKS"%string] (cfg_baseline m)
      | None => ["ELITE_PACKS"%string]
      end
    | None => ["ELITE_PACKS"%string]
    end in
  let unlocked : gset string := list_to_set (unlocked d) ∪ list_to_set baseline in
  let available := filter (fun m => mod_id m ∈ unlocked) pool in
  match available with
  | [] => ([], meta, s)
  | _ =>
    let slots := clamp (modifierSlots depth) 0 8 in
    let '(picked, s) := fill (Z.to_nat slots) available [] s in
    (picked, meta, s)
  end.

(** [recordDepth(depth)] *)
Definition recordDepth (depth : Z) (meta : Meta.t) : Meta.t :=
  let '(d, meta) := ensureMeta meta in
  if depth >? bestDepth d
  then set_depth {| bestDepth := depth; unlocked := unlocked d;
                    lastUnlockAt := lastUnlockAt d |} meta
  else meta.

(** The unlocked ids of a profile ([[]] before the record exists). *)
Definition unlockedOf (meta : Meta.t) : list string :=
  match Meta.depth meta with
  | Some d => unlocked d
  | None => []
  end.

(** [actConfig.modifiers.baseline] when it is an array, else
    [['ELITE_PACKS']]: the baseline of [sampleActive]. *)
Definition baselineOf (actConfig : option ActConfig) : list string :=
  match actConfig with
  | Some act =>
    match act_modifiers act with
    | Some m => default ["ELITE_PACKS"%string] (cfg_baseline m)
    | None => ["ELITE_PACKS"%string]
    end
  | None => ["ELITE_PACKS"%string]
  end.

End DepthRules.

(* ===================================================================== *)
(** ** World.js: data *)
(* ===================================================================== *)

Module World.

Import MapGenerator.

(** A reference to a spawn descriptor of the current zone.  Descriptors
    are shared objects: the zone's lists, the spatial grids and
    [enemy.spawnRef] all point to the same descriptor, so the grids and
    the entities hold references and the flags live in the zone. *)
Inductive SpawnRef :=
| RefEnemy (i : nat)
| RefElite (i : nat)
| RefBoss.

#[export] Instance SpawnRef_eq_dec : EqDecision SpawnRef.
Proof. solve_decision. Defined.

(** An entity, with the fields the orchestrator reads or writes. *)
Record Enemy := {
  id : nat;
  x : Q;
  y : Q;
  vx : Q;
  vy : Q;
  speed : Q;
  dead : bool;
  isBoss : bool;
  name : option string;
  spawnRef : option SpawnRef;
  level : Z;
  epatrol : option string;
  epatrolRadius : option Z;
  patrolOrigin : option Point;
  patrolAngle : Q
}.

(** The entity factory [State.modules.Enemies] is not part of the core.
    What it builds for a type tag and the elite and boss flags is a
    parameter; [Enemies_spawn] below places it and gives it an identity. *)
Class Enemies := { template : option string -> bool -> bool -> Enemy }.

(** [State.data.config]: the entries the orchestrator reads. *)
Record Config := {
  version : option SeedUtil.Part;
  freshness_window : option Q;
  freshness_penaltyBase : option Q;
  debug_logZoneSummary : bool
}.

Record Player := { player_x : Q; player_y : Q; player_vx : Q; player_vy : Q }.

(** The [State] singleton, the document and the console, as far as the
    orchestrator touches them.  Entities are objects shared between
    [State.enemies] and [World.activeEnemies]: both lists hold addresses
    into [objects].  [State.world.currentZone] is the object
    [World.currentZone] and is not duplicated. *)
Record State := {
  data_acts : option (gmap string ActConfig);
  data_config : option Config;
  meta : Meta.t;
  run_seed : option Z;
  world_zoneIndex : option Z;
  world_seed : option Z;
  world_seeds : option Seeds;
  player : Player;
  enemies : list nat;
  objects : gmap nat Enemy;
  nextId : nat;
  scene : option string;
  announcements : list string;
  hubRendered : nat;
  console : list string;
  canvas : option (Q * Q);
  camera : Q * Q;
  random : Ambient.t
}.

(** The [World] object. *)
Record t := {
  currentZone : option Zone;
  currentAct : option ActConfig;
  zoneIndex : Z;
  spawnRadius : Q;
  despawnRadius : Q;
  activeEnemies : list nat;
  enemyGrid : option (SpawnGrid.t nat);
  eliteGrid : option (SpawnGrid.t nat);
  rngEncounters : option SeededRandom.t;
  spawnedEnemyCount : Z;
  spawnedEliteCount : Z;
  bossSpawned : bool;
  state : State
}.

(** *** Field updates *)

Definition set_active v (s : Spawn) : Spawn :=
  {| sx := sx s; sy := sy s; stype := stype s; patrol := patrol s;
     patrolRadius := patrolRadius s; active := v; killed := killed s;
     enemyId := enemyId s |}.

Definition set_killed v (s : Spawn) : Spawn :=
  {| sx := sx s; sy := sy s; stype := stype s; patrol := patrol s;
     patrolRadius := patrolRadius s; active := active s; killed := v;
     enemyId := enemyId s |}.

Definition set_enemyId v (s : Spawn) : Spawn :=
  {| sx := sx s; sy := sy s; stype := stype s; patrol := patrol s;
     patrolRadius := patrolRadius s; active := active s; killed := killed s;
     enemyId := v |}.

Definition set_enemySpawns v (z : Zone) : Zone :=
  {| seed := seed z; width := width z; height := height z; biome := biome z;
     isBossZone := isBossZone z; spawn := spawn z; exit := exit z;
     enemySpawns := v; eliteSpawns := eliteSpawns z; bossSpawn := bossSpawn z;
     obstacles := obstacles z; decorations := decorations z;
     parallax := parallax z; pickups := pickups z; portals := portals z;
     depth := depth z; mods := mods z; layout := layout z; backdrop := backdrop z;
     signature := signature z; seeds := seeds z |}.

Definition set_eliteSpawns v (z : Zone) : Zone :=
  {| seed := seed z; width := width z; height := height z; biome := biome z;
     isBossZone := isBossZone z; spawn := spawn z; exit := exit z;
     enemySpawns := enemySpawns z; eliteSpawns := v; bossSpawn := bossSpawn z;
     obstacles := obstacles z; decorations := decorations z;
     parallax := parallax z; pickups := pickups z; portals := portals z;
     depth := depth z; mods := mods z; layout := layout z; backdrop := backdrop z;
     signature := signature z; seeds := seeds z |}.

Definition set_bossSpawn v (z : Zone) : Zone :=
  {| seed := seed z; width := width z; height := height z; biome := biome z;
     isBossZone := isBossZone z; spawn := spawn z; exit := exit z;
     enemySpawns := enemySpawns z; eliteSpawns := eliteSpawns z; bossSpawn := v;
     obstacles := obstacles z; decorations := decorations z;
     parallax := parallax z; pickups := pickups z; portals := portals z;
     depth := depth z; mods := mods z; layout := layout z; backdrop := backdrop z;
     signature := signature z; seeds := seeds z |}.

Definition set_portals v (z : Zone) : Zone :=
  {| seed := seed z; width := width z; height := height z; biome := biome z;
     isBossZone := isBossZone z; spawn := spawn z; exit := exit z;
     enemySpawns := enemySpawns z; eliteSpawns := eliteSpawns z;
     bossSpawn := bossSpawn z; obstacles := obstacles z;
     decorations := decorations z; parallax := parallax z; pickups := pickups z;
     portals := v; depth := depth z; mods := mods z; layout := layout z;
     backdrop := backdrop z; signature := signature z; seeds := seeds z |}.

Definition set_depth v (z : Zone) : Zone :=
  {| seed := seed z; width := width z; height := height z; biome := biome z;
     isBossZone := isBossZone z; spawn := spawn z; exit := exit z;
     enemySpawns := enemySpawns z; eliteSpawns := eliteSpawns z;
     bossSpawn := bossSpawn z; obstacles := obstacles z;
     decorations := decorations z; parallax := parallax z; pickups := pickups z;
     portals := portals z; depth := v; mods := mods z; layout := layout z;
     backdrop := backdrop z; signature := signature z; seeds := seeds z |}.

Definition set_mods v (z : Zone) : Zone :=
  {| seed := seed z; width := width z; height := height z; biome := biome z;
     isBossZone := isBossZone z; spawn := spawn z; exit := exit z;
     enemySpawns := enemySpawns z; eliteSpawns := eliteSpawns z;
     bossSpawn := bossSpawn z; obstacles := obstacles z;
     decorations := decorations z; parallax := parallax z; pickups := pickups z;
     portals := portals z; depth := depth z; mods := v; layout := layout z;
     backdrop := backdrop z; signature := signature z; seeds := seeds z |}.

Definition set_layout v (z : Zone) : Zone :=
  {| seed := seed z; width := width z; height := height z; biome := biome z;
     isBossZone := isBossZone z; spawn := spawn z; exit := exit z;
     enemySpawns := enemySpawns z; eliteSpawns := eliteSpawns z;
     bossSpawn := bossSpawn z; obstacles := obstacles z;
     decorations := decorations z; parallax := parallax z; pickups := pickups z;
     portals := portals z; depth := depth z; mods := mods z; layout := v;
     backdrop := backdrop z; signature := signature z; seeds := seeds z |}.

Definition set_backdrop v (z : Zone) : Zone :=
  {| seed := seed z; width := width z; height := height z; biome := biome z;
     isBossZone := isBossZone z; spawn := spawn z; exit := exit z;
     enemySpawns := enemySpawns z; eliteSpawns := eliteSpawns z;
     bossSpawn := bossSpawn z; obstacles := obstacles z;
     decorations := decorations z; parallax := parallax z; pickups := pickups z;
     portals := portals z; depth := depth z; mods := mods z; layout := layout z;
     backdrop := v; signature := signature z; seeds := seeds z |}.

Definition set_signature v (z : Zone) : Zone :=
  {| seed := seed z; width := width z; height := height z; biome := biome z;
     isBossZone := isBossZone z; spawn := spawn z; exit := exit z;
     enemySpawns := enemySpawns z; eliteSpawns := eliteSpawns z;
     bossSpawn := bossSpawn z; obstacles := obstacles z;
     decorations := decorations z; parallax := parallax z; pickups := pickups z;
     portals := portals z; depth := depth z; mods := mods z; layout := layout z;
     backdrop := backdrop z; signature := v; seeds := seeds z |}.

Definition set_seeds v (z : Zone) : Zone :=
  {| seed := seed z; width := width z; height := height z; biome := biome z;
     isBossZone := isBossZone z; spawn := spawn z; exit := exit z;
     enemySpawns := enemySpawns z; eliteSpawns := eliteSpawns z;
     bossSpawn := bossSpawn z; obstacles := obstacles z;
     decorations := decorations z; parallax := parallax z; pickups := pickups z;
     portals := portals z; depth := depth z; mods := mods z; layout := layout z;
     backdrop := backdrop z; signature := signature z; seeds := v |}.

Definition set_e_id v (e : Enemy) : Enemy :=
  {| id := v; x := x e; y := y e; vx := vx e; vy := vy e; speed := speed e;
     dead := dead e; isBoss := isBoss e; name := name e; spawnRef := spawnRef e;
     level := level e; epatrol := epatrol e; epatrolRadius := epatrolRadius e;
     patrolOrigin := patrolOrigin e; patrolAngle := patrolAngle e |}.

Definition set_e_x v (e : Enemy) : Enemy :=
  {| id := id e; x := v; y := y e; vx := vx e; vy := vy e; speed := speed e;
     dead := dead e; isBoss := isBoss e; name := name e; spawnRef := spawnRef e;
     level := level e; epatrol := epatrol e; epatrolRadius := epatrolRadius e;
     patrolOrigin := patrolOrigin e; patrolAngle := patrolAngle e |}.

Definition set_e_y v (e : Enemy) : Enemy :=
  {| id := id e; x := x e; y := v; vx := vx e; vy := vy e; speed := speed e;
     dead := dead e; isBoss := isBoss e; name := name e; spawnRef := spawnRef e;
     level := level e; epatrol := epatrol e; epatrolRadius := epatrolRadius e;
     patrolOrigin := patrolOrigin e; patrolAngle := patrolAngle e |}.

Definition set_e_vx v (e : Enemy) : Enemy :=
  {| id := id e; x := x e; y := y e; vx := v; vy := vy e; speed := speed e;
     dead := dead e; isBoss := isBoss e; name := name e; spawnRef := spawnRef e;
     level := level e; epatrol := epatrol e; epatrolRadius := epatrolRadius e;
     patrolOrigin := patrolOrigin e; patrolAngle := patrolAngle e |}.

Definition set_e_vy v (e : Enemy) : Enemy :=
  {| id := id e; x := x e; y := y e; vx := vx e; vy := v; speed := speed e;
     dead := dead e; isBoss := isBoss e; name := name e; spawnRef := spawnRef e;
     level := level e; epatrol := epatrol e; epatrolRadius := epatrolRadius e;
     patrolOrigin := patrolOrigin e; patrolAngle := patrolAngle e |}.

Definition set_e_spawnRef v (e : Enemy) : Enemy :=
  {| id := id e; x := x e; y := y e; vx := vx e; vy := vy e; speed := speed e;
     dead := dead e; isBoss := isBoss e; name := name e; spawnRef := v;
     level := level e; epatrol := epatrol e; epatrolRadius := epatrolRadius e;
     patrolOrigin := patrolOrigin e; patrolAngle := patrolAngle e |}.

Definition set_e_level v (e : Enemy) : Enemy :=
  {| id := id e; x := x e; y := y e; vx := vx e; vy := vy e; speed := speed e;
     dead := dead e; isBoss := isBoss e; name := name e; spawnRef := spawnRef e;
     level := v; epatrol := epatrol e; epatrolRadius := epatrolRadius e;
     patrolOrigin := patrolOrigin e; patrolAngle := patrolAngle e |}.

Definition set_e_epatrol v (e : Enemy) : Enemy :=
  {| id := id e; x := x e; y := y e; vx := vx e; vy := vy e; speed := speed e;
     dead := dead e; isBoss := isBoss e; name := name e; spawnRef := spawnRef e;
     level := level e; epatrol := v; epatrolRadius := epatrolRadius e;
     patrolOrigin := patrolOrigin e; patrolAngle := patrolAngle e |}.

Definition set_e_epatrolRadius v (e : Enemy) : Enemy :=
  {| id := id e; x := x e; y := y e; vx := vx e; vy := vy e; speed := speed e;
     dead := dead e; isBoss := isBoss e; name := name e; spawnRef := spawnRef e;
     level := level e; epatrol := epatrol e; epatrolRadius := v;
     patrolOrigin := patrolOrigin e; patrolAngle := patrolAngle e |}.

Definition set_e_patrolOrigin v (e : Enemy) : Enemy :=
  {| id := id e; x := x e; y := y e; vx := vx e; vy := vy e; speed := speed e;
     dead := dead e; isBoss := isBoss e; name := name e; spawnRef := spawnRef e;
     level := level e; epatrol := epatrol e; epatrolRadius := epatrolRadius e;
     patrolOrigin := v; patrolAngle := patrolAngle e |}.

Definition set_e_patrolAngle v (e : Enemy) : Enemy :=
  {| id := id e; x := x e; y := y e; vx := vx e; vy := vy e; speed := speed e;
     dead := dead e; isBoss := isBoss e; name := name e; spawnRef := spawnRef e;
     level := level e; epatrol := epatrol e; epatrolRadius := epatrolRadius e;
     patrolOrigin := patrolOrigin e; patrolAngle := v |}.

Definition set_data_acts v (st : State) : State :=
  {| data_acts := v; data_config := data_config st; meta := meta st;
     run_seed := run_seed st; world_zoneIndex := world_zoneIndex st;
     world_seed := world_seed st; world_seeds := world_seeds st;
     player := player st; enemies := enemies st; objects := objects st;
     nextId := nextId st; scene := scene st; announcements := announcements st;
     hubRendered := hubRendered st; console := console st; canvas := canvas st;
     camera := camera st; random := random st |}.

Definition set_meta v (st : State) : State :=
  {| data_acts := data_acts st; data_config := data_config st; meta := v;
     run_seed := run_seed st; world_zoneIndex := world_zoneIndex st;
     world_seed := world_seed st; world_seeds := world_seeds st;
     player := player st; enemies := enemies st; objects := objects st;
     nextId := nextId st; scene := scene st; announcements := announcements st;
     hubRendered := hubRendered st; console := console st; canvas := canvas st;
     camera := camera st; random := random st |}.

Definition set_world_zoneIndex v (st : State) : State :=
  {| data_acts := data_acts st; data_config := data_config st; meta := meta st;
     run_seed := run_seed st; world_zoneIndex := v; world_seed := world_seed st;
     world_seeds := world_seeds st; player := player st; enemies := enemies st;
     objects := objects st; nextId := nextId st; scene := scene st;
     announcements := announcements st; hubRendered := hubRendered st;
     console := console st; canvas := canvas st; camera := camera st;
     random := random st |}.

Definition set_world_seed v (st : State) : State :=
  {| data_acts := data_acts st; data_config := data_config st; meta := meta st;
     run_seed := run_seed st; world_zoneIndex := world_zoneIndex st;
     world_seed := v; world_seeds := world_seeds st; player := player st;
     enemies := enemies st; objects := objects st; nextId := nextId st;
     scene := scene st; announcements := announcements st;
     hubRendered := hubRendered st; console := console st; canvas := canvas st;
     camera := camera st; random := random st |}.

Definition set_world_seeds v (st : State) : State :=
  {| data_acts := data_acts st; data_config := data_config st; meta := meta st;
     run_seed := run_seed st; world_zoneIndex := world_zoneIndex st;
     world_seed := world_seed st; world_seeds := v; player := player st;
     enemies := enemies st; objects := objects st; nextId := nextId st;
     scene := scene st; announcements := announcements st;
     hubRendered := hubRendered st; console := console st; canvas := canvas st;
     camera := camera st; random := random st |}.

Definition set_player v (st : State) : State :=
  {| data_acts := data_acts st; data_config := data_config st; meta := meta st;
     run_seed := run_seed st; world_zoneIndex := world_zoneIndex st;
     world_seed := world_seed st; world_seeds := world_seeds st; player := v;
     enemies := enemies st; objects := objects st; nextId := nextId st;
     scene := scene st; announcements := announcements st;
     hubRendered := hubRendered st; console := console st; canvas := canvas st;
     camera := camera st; random := random st |}.

Definition set_enemies v (st : State) : State :=
  {| data_acts := data_acts st; data_config := data_config st; meta := meta st;
     run_seed := run_seed st; world_zoneIndex := world_zoneIndex st;
     world_seed := world_seed st; world_seeds := world_seeds st;
     player := player st; enemies := v; objects := objects st; nextId := nextId st;
     scene := scene st; announcements := announcements st;
     hubRendered := hubRendered st; console := console st; canvas := canvas st;
     camera := camera st; random := random st |}.

Definition set_objects v (st : State) : State :=
  {| data_acts := data_acts st; data_config := data_config st; meta := meta st;
     run_seed := run_seed st; world_zoneIndex := world_zoneIndex st;
     world_seed := world_seed st; world_seeds := world_seeds st;
     player := player st; enemies := enemies st; objects := v; nextId := nextId st;
     scene := scene st; announcements := announcements st;
     hubRendered := hubRendered st; console := console st; canvas := canvas st;
     camera := camera st; random := random st |}.

Definition set_nextId v (st : State) : State :=
  {| data_acts := data_acts st; data_config := data_config st; meta := meta st;
     run_seed := run_seed st; world_zoneIndex := world_zoneIndex st;
     world_seed := world_seed st; world_seeds := world_seeds st;
     player := player st; enemies := enemies st; objects := objects st;
     nextId := v; scene := scene st; announcements := announcements st;
     hubRendered := hubRendered st; console := console st; canvas := canvas st;
     camera := camera st; random := random st |}.

Definition set_scene v (st : State) : State :=
  {| data_acts := data_acts st; data_config := data_config st; meta := meta st;
     run_seed := run_seed st; world_zoneIndex := world_zoneIndex st;
     world_seed := world_seed st; world_seeds := world_seeds st;
     player := player st; enemies := enemies st; objects := objects st;
     nextId := nextId st; scene := v; announcements := announcements st;
     hubRendered := hubRendered st; console := console st; canvas := canvas st;
     camera := camera st; random := random st |}.

Definition set_announcements v (st : State) : State :=
  {| data_acts := data_acts st; data_config := data_config st; meta := meta st;
     run_seed := run_seed st; world_zoneIndex := world_zoneIndex st;
     world_seed := world_seed st; world_seeds := world_seeds st;
     player := player st; enemies := enemies st; objects := objects st;
     nextId := nextId st; scene := scene st; announcements := v;
     hubRendered := hubRendered st; console := console st; canvas := canvas st;
     camera := camera st; random := random st |}.

Definition set_hubRendered v (st : State) : State :=
  {| data_acts := data_acts st; data_config := data_config st; meta := meta st;
     run_seed := run_seed st; world_zoneIndex := world_zoneIndex st;
     world_seed := world_seed st; world_seeds := world_seeds st;
     player := player st; enemies := enemies st; objects := objects st;
     nextId := nextId st; scene := scene st; announcements := announcements st;
     hubRendered := v; console := console st; canvas := canvas st;
     camera := camera st; random := random st |}.

Definition set_console v (st : State) : State :=
  {| data_acts := data_acts st; data_config := data_config st; meta := meta st;
     run_seed := run_seed st; world_zoneIndex := world_zoneIndex st;
     world_seed := world_seed st; world_seeds := world_seeds st;
     player := player st; enemies := enemies st; objects := objects st;
     nextId := nextId st; scene := scene st; announcements := announcements st;
     hubRendered := hubRendered st; console := v; canvas := canvas st;
     camera := camera st; random := random st |}.

Definition set_camera v (st : State) : State :=
  {| data_acts := data_acts st; data_config := data_config st; meta := meta st;
     run_seed := run_seed st; world_zoneIndex := world_zoneIndex st;
     world_seed := world_seed st; world_seeds := world_seeds st;
     player := player st; enemies := enemies st; objects := objects st;
     nextId := nextId st; scene := scene st; announcements := announcements st;
     hubRendered := hubRendered st; console := console st; canvas := canvas st;
     camera := v; random := random st |}.

Definition set_random v (st : State) : State :=
  {| data_acts := data_acts st; data_config := data_config st; meta := meta st;
     run_seed := run_seed st; world_zoneIndex := world_zoneIndex st;
     world_seed := world_seed st; world_seeds := world_seeds st;
     player := player st; enemies := enemies st; objects := objects st;
     nextId := nextId st; scene := scene st; announcements := announcements st;
     hubRendered := hubRendered st; console := console st; canvas := canvas st;
     camera := camera st; random := v |}.

Definition set_currentZone v (w : t) : t :=
  {| currentZone := v; currentAct := currentAct w; zoneIndex := zoneIndex w;
     spawnRadius := spawnRadius w; despawnRadius := despawnRadius w;
     activeEnemies := activeEnemies w; enemyGrid := enemyGrid w;
     eliteGrid := eliteGrid w; rngEncounters := rngEncounters w;
     spawnedEnemyCount := spawnedEnemyCount w;
     spawnedEliteCount := spawnedEliteCount w; bossSpawned := bossSpawned w;
     state := state w |}.

Definition set_currentAct v (w : t) : t :=
  {| currentZone := currentZone w; currentAct := v; zoneIndex := zoneIndex w;
     spawnRadius := spawnRadius w; despawnRadius := despawnRadius w;
     activeEnemies := activeEnemies w; enemyGrid := enemyGrid w;
     eliteGrid := eliteGrid w; rngEncounters := rngEncounters w;
     spawnedEnemyCount := spawnedEnemyCount w;
     spawnedEliteCount := spawnedEliteCount w; bossSpawned := bossSpawned w;
     state := state w |}.

Definition set_zoneIndex v (w : t) : t :=
  {| currentZone := currentZone w; currentAct := currentAct w; zoneIndex := v;
     spawnRadius := spawnRadius w; despawnRadius := despawnRadius w;
     activeEnemies := activeEnemies w; enemyGrid := enemyGrid w;
     eliteGrid := eliteGrid w; rngEncounters := rngEncounters w;
     spawnedEnemyCount := spawnedEnemyCount w;
     spawnedEliteCount := spawnedEliteCount w; bossSpawned := bossSpawned w;
     state := state w |}.

Definition set_spawnRadius v (w : t) : t :=
  {| currentZone := currentZone w; currentAct := currentAct w;
     zoneIndex := zoneIndex w; spawnRadius := v; despawnRadius := despawnRadius w;
     activeEnemies := activeEnemies w; enemyGrid := enemyGrid w;
     eliteGrid := eliteGrid w; rngEncounters := rngEncounters w;
     spawnedEnemyCount := spawnedEnemyCount w;
     spawnedEliteCount := spawnedEliteCount w; bossSpawned := bossSpawned w;
     state := state w |}.

Definition set_despawnRadius v (w : t) : t :=
  {| currentZone := currentZone w; currentAct := currentAct w;
     zoneIndex := zoneIndex w; spawnRadius := spawnRadius w; despawnRadius := v;
     activeEnemies := activeEnemies w; enemyGrid := enemyGrid w;
     eliteGrid := eliteGrid w; rngEncounters := rngEncounters w;
     spawnedEnemyCount := spawnedEnemyCount w;
     spawnedEliteCount := spawnedEliteCount w; bossSpawned := bossSpawned w;
     state := state w |}.

Definition set_activeEnemies v (w : t) : t :=
  {| currentZone := currentZone w; currentAct := currentAct w;
     zoneIndex := zoneIndex w; spawnRadius := spawnRadius w;
     despawnRadius := despawnRadius w; activeEnemies := v;
     enemyGrid := enemyGrid w; eliteGrid := eliteGrid w;
     rngEncounters := rngEncounters w; spawnedEnemyCount := spawnedEnemyCount w;
     spawnedEliteCount := spawnedEliteCount w; bossSpawned := bossSpawned w;
     state := state w |}.

Definition set_enemyGrid v (w : t) : t :=
  {| currentZone := currentZone w; currentAct := currentAct w;
     zoneIndex := zoneIndex w; spawnRadius := spawnRadius w;
     despawnRadius := despawnRadius w; activeEnemies := activeEnemies w;
     enemyGrid := v; eliteGrid := eliteGrid w; rngEncounters := rngEncounters w;
     spawnedEnemyCount := spawnedEnemyCount w;
     spawnedEliteCount := spawnedEliteCount w; bossSpawned := bossSpawned w;
     state := state w |}.

Definition set_eliteGrid v (w : t) : t :=
  {| currentZone := currentZone w; currentAct := currentAct w;
     zoneIndex := zoneIndex w; spawnRadius := spawnRadius w;
     despawnRadius := despawnRadius w; activeEnemies := activeEnemies w;
     enemyGrid := enemyGrid w; eliteGrid := v; rngEncounters := rngEncounters w;
     spawnedEnemyCount := spawnedEnemyCount w;
     spawnedEliteCount := spawnedEliteCount w; bossSpawned := bossSpawned w;
     state := state w |}.

Definition set_rngEncounters v (w : t) : t :=
  {| currentZone := currentZone w; currentAct := currentAct w;
     zoneIndex := zoneIndex w; spawnRadius := spawnRadius w;
     despawnRadius := despawnRadius w; activeEnemies := activeEnemies w;
     enemyGrid := enemyGrid w; eliteGrid := eliteGrid w; rngEncounters := v;
     spawnedEnemyCount := spawnedEnemyCount w;
     spawnedEliteCount := spawnedEliteCount w; bossSpawned := bossSpawned w;
     state := state w |}.

Definition set_spawnedEnemyCount v (w : t) : t :=
  {| currentZone := currentZone w; currentAct := currentAct w;
     zoneIndex := zoneIndex w; spawnRadius := spawnRadius w;
     despawnRadius := despawnRadius w; activeEnemies := activeEnemies w;
     enemyGrid := enemyGrid w; eliteGrid := eliteGrid w;
     rngEncounters := rngEncounters w; spawnedEnemyCount := v;
     spawnedEliteCount := spawnedEliteCount w; bossSpawned := bossSpawned w;
     state := state w |}.

Definition set_spawnedEliteCount v (w : t) : t :=
  {| currentZone := currentZone w; currentAct := currentAct w;
     zoneIndex := zoneIndex w; spawnRadius := spawnRadius w;
     despawnRadius := despawnRadius w; activeEnemies := activeEnemies w;
     enemyGrid := enemyGrid w; eliteGrid := eliteGrid w;
     rngEncounters := rngEncounters w; spawnedEnemyCount := spawnedEnemyCount w;
     spawnedEliteCount := v; bossSpawned := bossSpawned w; state := state w |}.

Definition set_bossSpawned v (w : t) : t :=
  {| currentZone := currentZone w; currentAct := currentAct w;
     zoneIndex := zoneIndex w; spawnRadius := spawnRadius w;
     despawnRadius := despawnRadius w; activeEnemies := activeEnemies w;
     enemyGrid := enemyGrid w; eliteGrid := eliteGrid w;
     rngEncounters := rngEncounters w; spawnedEnemyCount := spawnedEnemyCount w;
     spawnedEliteCount := spawnedEliteCount w; bossSpawned := v; state := state w |}.

Definition set_state v (w : t) : t :=
  {| currentZone := currentZone w; currentAct := currentAct w;
     zoneIndex := zoneIndex w; spawnRadius := spawnRadius w;
     despawnRadius := despawnRadius w; activeEnemies := activeEnemies w;
     enemyGrid := enemyGrid w; eliteGrid := eliteGrid w;
     rngEncounters := rngEncounters w; spawnedEnemyCount := spawnedEnemyCount w;
     spawnedEliteCount := spawnedEliteCount w; bossSpawned := bossSpawned w;
     state := v |}.

(* ===================================================================== *)
(** *** World.js: zone loading *)
(* ===================================================================== *)

(** Whether the boss descriptor of the current zone is active. *)
Definition bossActive (w : t) : option bool :=
  zone ← currentZone w; boss ← bossSpawn zone; Some (active boss).

Section WithEnv.
Context {math : Js.Math} {factory : Enemies}.

(** The descriptor a reference denotes, and its update in place. *)
Definition getSpawn (zone : Zone) (ref : SpawnRef) : option Spawn :=
  match ref with
  | RefEnemy i => enemySpawns zone !! i
  | RefElite i => eliteSpawns zone !! i
  | RefBoss => bossSpawn zone
  end.

Definition updSpawn (f : Spawn -> Spawn) (ref : SpawnRef) (zone : Zone) : Zone :=
  match ref with
  | RefEnemy i => set_enemySpawns (alter f i (enemySpawns zone)) zone
  | RefElite i => set_eliteSpawns (alter f i (eliteSpawns zone)) zone
  | RefBoss => set_bossSpawn (f <$> bossSpawn zone) zone
  end.

(** [array.slice().sort()] on strings (insertion into a sorted list). *)
Fixpoint insertSorted (s : string) (l : list string) : list string :=
  match l with
  | [] => [s]
  | h :: t => if String.leb s h then s :: l else h :: insertSorted s t
  end.

Definition sortStrings (l : list string) : list string :=
  foldr insertSorted [] l.

(** [array.join(',')] *)
Fixpoint join (l : list string) : string :=
  match l with
  | [] => ""
  | [s] => s
  | s :: rest => s +:+ "," +:+ join rest
  end.

Record MacroPack := {
  pack_id : string;
  pack_layout : string;
  pack_backdrop : string;
  pack_weight : Q
}.

Definition layouts : list (string * Q) :=
  [("OPEN", 1.0); ("CLUTTERED", 0.9); ("CORRIDOR", 0.7); ("ARENA", 0.7);
   ("CRAMPED", 0.5)]%Q%string.

Definition backdrops : list (string * Q) :=
  [("A", 1.0); ("B", 0.9); ("C", 0.8); ("D", 0.7)]%Q%string.

Definition macroPacks : list MacroPack :=
  flat_map
    (fun l =>
       map (fun b => {| pack_id := fst l +:+ "|" +:+ fst b;
                        pack_layout := fst l;
                        pack_backdrop := fst b;
                        pack_weight := (snd l * snd b)%Q |})
           backdrops)
    layouts.

(** The boss interval of [loadZone]: [act.zones] when it is a positive
    number, else [4]. *)
Definition bossInterval (act : ActConfig) : Q :=
  match act_zones act with
  | Some zones => if Js.ltb 0 zones then zones else 4%Q
  | None => 4%Q
  end.

(** [loadZone(index)].  [None] stands for the [TypeError] of reading
    [this.currentAct.seed] when no act is set. *)
Definition loadZone (index : Z) (w : t) : option t :=
  act ← currentAct w;
  let st := state w in
  let depth := index + 1 in
  let zoneSeed := createZoneSeed (default 0 (act_seed act)) index in
  let part (tag : string) :=
    SeedUtil.seedFromParts [SeedUtil.PNum zoneSeed; SeedUtil.PStr tag] in
  let zoneSeeds :=
    {| seeds_zone := Some zoneSeed;
       seeds_macro := Some (part "MACRO");
       seeds_meso := Some (part "MESO");
       seeds_micro := Some (part "MICRO");
       seeds_mods := Some (part "MODS");
       seeds_encounters := Some (part "ENCOUNTERS");
       seeds_loot := Some (part "LOOT") |} in
  let unlockSeed :=
    SeedUtil.seedFromParts
      [SeedUtil.PNum (default 0 (act_seed act)); SeedUtil.PStr "UNLOCK";
       SeedUtil.PNum depth] in
  let '(_, meta, streams) :=
    DepthRules.maybeUnlock depth (Some act)
      {| DepthRules.rng := Some (SeededRandom.new unlockSeed);
         DepthRules.ambient := random st |} (meta st) in
  let meta := DepthRules.recordDepth depth meta in
  let isBossZone := Qeq_bool (Js.rem (inject_Z depth) (bossInterval act)) 0 in
  let '(activeMods, meta, streams) :=
    DepthRules.sampleActive depth (Some act)
      {| DepthRules.rng := Some (SeededRandom.new (part "MODS"));
         DepthRules.ambient := DepthRules.ambient streams |} meta in
  let fWindow := cfg ← data_config st; freshness_window cfg in
  let '(_, meta) := Freshness.ensure meta fWindow in
  let penaltyBase :=
    Some (default 0.25%Q (cfg ← data_config st; freshness_penaltyBase cfg)) in
  let biomeId := str_or (act_biome act) "space" in
  let rngMacro := SeededRandom.new (part "MACRO") in
  let keyFn (o : MacroPack) :=
    biomeId +:+ "|" +:+ pack_layout o +:+ "|" +:+ pack_backdrop o in
  let '(pick, _) :=
    Freshness.pick (fun o => Some (pack_weight o)) keyFn macroPacks meta
      penaltyBase rngMacro in
  let layout := str_or (pack_layout <$> (fst <$> pick)) "OPEN" in
  let backdrop := str_or (pack_backdrop <$> (fst <$> pick)) "A" in
  let freshnessKey := biomeId +:+ "|" +:+ layout +:+ "|" +:+ backdrop in
  let meta := Freshness.push meta freshnessKey in
  let modsKey :=
    match activeMods with
    | [] => "-"
    | _ => join (sortStrings activeMods)
    end in
  let zoneSignature :=
    freshnessKey +:+ "|mods:" +:+ modsKey +:+ "|boss:"
      +:+ (if isBossZone then "1" else "0") in
  let options :=
    {| opt_seeds := Some zoneSeeds; opt_layout := Some layout;
       opt_backdrop := Some backdrop; opt_depth := Some depth;
       opt_mods := Some activeMods |} in
  let zone :=
    if isBossZone then generateBossZone act zoneSeed options
    else generate act zoneSeed options in
  let zone :=
    set_seeds (Some zoneSeeds)
      (set_signature (Some zoneSignature)
         (set_backdrop (Some backdrop)
            (set_layout (Some layout)
               (set_mods (Some activeMods)
                  (set_depth (Some depth) zone))))) in
  let cellSize := Js.max 200 (spawnRadius w) in
  let refs (l : list Spawn) : list (option nat) := Some <$> seq 0 (length l) in
  let coord (l : list Spawn) (f : Spawn -> Q) (i : nat) : Q :=
    default 0%Q (f <$> l !! i) in
  let enemyGrid :=
    SpawnGrid.build (coord (enemySpawns zone) sx) (coord (enemySpawns zone) sy)
      (refs (enemySpawns zone)) (SpawnGrid.new cellSize) in
  let eliteGrid :=
    SpawnGrid.build (coord (eliteSpawns zone) sx) (coord (eliteSpawns zone) sy)
      (refs (eliteSpawns zone)) (SpawnGrid.new cellSize) in
  let pl := {| player_x := px (spawn zone); player_y := py (spawn zone);
               player_vx := 0; player_vy := 0 |} in
  let screenW := num_or (fst <$> canvas st) 800 in
  let screenH := num_or (snd <$> canvas st) 600 in
  let mapW := num_or (Some (width zone)) 2000 in
  let mapH := num_or (Some (height zone)) 2000 in
  let rawX := (player_x pl - screenW / 2)%Q in
  let rawY := (player_y pl - screenH / 2)%Q in
  let clampedX := Js.max 0 (Js.min (mapW - screenW) rawX) in
  let clampedY := Js.max 0 (Js.min (mapH - screenH) rawY) in
  let logging := default false (debug_logZoneSummary <$> data_config st) in
  let st :=
    set_console (if logging then console st ++ ["[ZONE]"%string] else console st)
      (set_camera (clampedX, clampedY)
         (set_player pl
            (set_world_seeds (Some zoneSeeds)
               (set_world_seed (Some zoneSeed)
                  (set_world_zoneIndex (Some index)
                     (set_random (DepthRules.ambient streams)
                        (set_meta meta st))))))) in
  Some {| currentZone := Some zone;
          currentAct := Some act;
          zoneIndex := index;
          spawnRadius := spawnRadius w;
          despawnRadius := despawnRadius w;
          activeEnemies := [];
          enemyGrid := Some enemyGrid;
          eliteGrid := Some eliteGrid;
          rngEncounters := Some (SeededRandom.new (part "ENCOUNTERS"));
          spawnedEnemyCount := 0;
          spawnedEliteCount := 0;
          bossSpawned := false;
          state := st |}.

(** The names a plain object inherits from [Object.prototype]: the
    property read [obj[name]] finds a value for each of them (a function,
    for [__proto__] the prototype itself) on every object parsed from
    JSON, whether or not the object has an entry of its own. *)
Definition inheritedNames : list string :=
  ["constructor"; "toString"; "toLocaleString"; "valueOf"; "hasOwnProperty";
   "isPrototypeOf"; "propertyIsEnumerable"; "__proto__"; "__defineGetter__";
   "__defineSetter__"; "__lookupGetter__"; "__lookupSetter__"]%string.

(** What [State.data.acts?.[actId]] finds. *)
Inductive ActLookup :=
| OwnAct (actConfig : ActConfig)
| InheritedValue
| NoAct.

(** [State.data.acts?.[actId]]: the table's own entry, else the value
    inherited under that name, else [undefined]; [undefined] also when
    there is no table.  An inherited value is an object and hence truthy;
    it has none of the fields of an act configuration. *)
Definition lookupAct (st : State) (actId : string) : ActLookup :=
  match data_acts st with
  | None => NoAct
  | Some acts =>
    match acts !! actId with
    | Some actConfig => OwnAct actConfig
    | None =>
      if bool_decide (actId ∈ inheritedNames) then InheritedValue else NoAct
    end
  end.

(** [init(actId, seed)]: the returned flag and the world after the call.
    [init] is declared [async] and has no [await]: its body runs within
    the call and the promise it returns is settled on return; the result
    here is the value the promise is fulfilled with, [None] standing for
    a rejection.
    The object found under [actId] becomes [World.currentAct] and gets
    [id] and [seed] written.  When it is the table's own entry, the table
    shows the writes.  When it is an inherited value, the writes land on
    that value: the table keeps its entries, and the current act reads as
    a configuration with [id] and [seed] only.  (For [__proto__] the value
    is [Object.prototype], so every object inherits the two fields from
    then on; of that the model keeps the current act only.) *)
Definition init (actId : string) (seed : option Z) (w : t) : option (bool * t) :=
  let st := state w in
  let start (actConfig : ActConfig) (own : bool) :=
    let fallback :=
      SeedUtil.seedFromParts
        [SeedUtil.PNum (default 0 (Meta.worldSeed (meta st)));
         SeedUtil.PStr "ACT";
         SeedUtil.PStr actId;
         SeedUtil.PNum (default 0 (Meta.runIndex (meta st)));
         default (SeedUtil.PStr "0") (cfg ← data_config st; version cfg)] in
    let actSeed :=
      match seed with
      | Some s => Js.toUint32 s
      | None =>
        match run_seed st with
        | Some s => if s =? 0 then fallback else Js.toUint32 s
        | None => fallback
        end
      end in
    let act :=
      {| act_id := Some actId;
         act_seed := Some (Js.toUint32 actSeed);
         act_biome := act_biome actConfig;
         act_zones := act_zones actConfig;
         act_generation := act_generation actConfig;
         act_enemies := act_enemies actConfig;
         act_parallax := act_parallax actConfig;
         act_boss := act_boss actConfig;
         act_modifiers := act_modifiers actConfig |} in
    let st :=
      if own then set_data_acts (insert actId act <$> data_acts st) st else st in
    let w := set_zoneIndex 0 (set_currentAct (Some act) (set_state st w)) in
    w ← loadZone 0 w;
    Some (true, w) in
  match lookupAct st actId with
  | NoAct =>
    Some (false,
          set_state
            (set_console
               (console st ++ ["Act " +:+ actId +:+ " not found!"]) st) w)
  | OwnAct actConfig => start actConfig true
  | InheritedValue =>
    start {| act_id := None; act_seed := None; act_biome := None;
             act_zones := None; act_generation := None; act_enemies := None;
             act_parallax := None; act_boss := None; act_modifiers := None |}
          false
  end.

(* ===================================================================== *)
(** *** World.js: the per-tick update *)
(* ===================================================================== *)

(** Modelled from the spec: [Enemies.spawn(typeTag, x, y, isElite, isBoss)]
    of Enemies.js, the entity factory, which is not part of the core
    ("spawn(typeTag, x, y, isElite, isBoss) -> EntityHandle with an
    assigned identity").  It builds the entity for the tag, places it at
    [(x, y)], assigns a fresh identity and registers the object in
    [State.enemies].  The result is the address of the new object. *)
Definition Enemies_spawn (type : option string) (ex ey : Q)
    (isElite isBoss : bool) (st : State) : nat * State :=
  let addr := nextId st in
  let enemy := set_e_y ey (set_e_x ex (set_e_id addr (template type isElite isBoss))) in
  (addr,
   set_nextId (S addr)
     (set_enemies (enemies st ++ [addr])
        (set_objects (<[addr := enemy]> (objects st)) st))).

(** [State.world?.currentZone?.depth || (State.meta.level || 1)] *)
Definition displayLevel (zone : Zone) (st : State) : Z :=
  let fallback :=
    match Meta.level (meta st) with
    | Some l => if l =? 0 then 1 else l
    | None => 1
    end in
  match depth zone with
  | Some d => if d =? 0 then fallback else d
  | None => fallback
  end.

(** [spawnEnemy(spawn, isElite)], on the descriptor [ref] denotes *)
Definition spawnEnemy (ref : SpawnRef) (isElite : bool) (w : t) : t :=
  match currentZone w with
  | None => w
  | Some zone =>
    match getSpawn zone ref with
    | None => w
    | Some spawn =>
      let '(addr, st) :=
        Enemies_spawn (stype spawn) (sx spawn) (sy spawn) isElite false (state w) in
      let '(r, rngE, ambient) :=
        match rngEncounters w with
        | Some g => let '(r, g) := SeededRandom.next g in (r, Some g, random st)
        | None => let '(r, a) := Ambient.random (random st) in (r, None, a)
        end in
      let setup (e : Enemy) :=
        set_e_patrolAngle (r * Js.PI * 2)%Q
          (set_e_patrolOrigin (Some {| px := sx spawn; py := sy spawn |})
             (set_e_epatrolRadius (patrolRadius spawn)
                (set_e_epatrol (patrol spawn)
                   (set_e_level (displayLevel zone st)
                      (set_e_spawnRef (Some ref) e))))) in
      let st := set_random ambient (set_objects (alter setup addr (objects st)) st) in
      let enemyId := id <$> objects st !! addr in
      let zone := updSpawn (fun s => set_enemyId enemyId (set_active true s)) ref zone in
      set_activeEnemies (activeEnemies w ++ [addr])
        (set_rngEncounters rngE
           (set_currentZone (Some zone) (set_state st w)))
    end
  end.

(** [spawnBoss(spawn)], on the boss descriptor of the current zone *)
Definition spawnBoss (w : t) : t :=
  match currentZone w with
  | None => w
  | Some zone =>
    match bossSpawn zone with
    | None => w
    | Some spawn =>
      let '(addr, st) :=
        Enemies_spawn (stype spawn) (sx spawn) (sy spawn) false true (state w) in
      let setup (e : Enemy) :=
        set_e_level (displayLevel zone st) (set_e_spawnRef (Some RefBoss) e) in
      let st := set_objects (alter setup addr (objects st)) st in
      let enemy := objects st !! addr in
      let zone :=
        updSpawn (fun s => set_enemyId (id <$> enemy) (set_active true s))
                 RefBoss zone in
      let announcement :=
        "!! " +:+ default "BOSS" (e ← enemy; name e) +:+ " APPEARS!" in
      let st := set_announcements (announcements st ++ [announcement]) st in
      set_activeEnemies (activeEnemies w ++ [addr])
        (set_currentZone (Some zone) (set_state st w))
    end
  end.

(** [State.enemies.splice(idx, 1)] for the first entry whose [id] is
    [enemyId], when there is one. *)
Fixpoint removeFirstById (objs : gmap nat Enemy) (enemyId : option nat)
    (l : list nat) : list nat :=
  match l with
  | [] => []
  | a :: rest =>
    if bool_decide ((id <$> objs !! a) = enemyId /\ is_Some (objs !! a))
    then rest
    else a :: removeFirstById objs enemyId rest
  end.

(** [despawnEnemy(spawn)], on the descriptor [ref] denotes *)
Definition despawnEnemy (ref : SpawnRef) (w : t) : t :=
  match currentZone w with
  | None => w
  | Some zone =>
    match getSpawn zone ref with
    | None => w
    | Some spawn =>
      let st := state w in
      let st :=
        set_enemies (removeFirstById (objects st) (enemyId spawn) (enemies st)) st in
      let zone := updSpawn (fun s => set_enemyId None (set_active false s)) ref zone in
      let keep (a : nat) :=
        bool_decide ((e ← objects st !! a; spawnRef e) ≠ Some ref) in
      set_activeEnemies (List.filter keep (activeEnemies w))
        (set_currentZone (Some zone) (set_state st w))
    end
  end.

(** The proximity test of the enemy and elite passes of [update] on one
      candidate: skip killed descriptors, materialize a dormant one within
      [spawnRadius] of the player. *)
Definition considerSpawn (isElite : bool) (w : t) (ref : SpawnRef) : t :=
  match currentZone w with
  | None => w
  | Some zone =>
    match getSpawn zone ref with
    | None => w
    | Some spawn =>
      let p := player (state w) in
      if killed spawn then w
      else if negb (active spawn)
              && Js.hypot_lt (player_x p - sx spawn) (player_y p - sy spawn)
                   (spawnRadius w)
      then spawnEnemy ref isElite w
      else w
    end
  end.

(** "Check enemy spawns (spatial hash)" *)
Definition checkEnemySpawns (w : t) : t :=
  match currentZone w with
  | None => w
  | Some zone =>
    let p := player (state w) in
    let candidates :=
      match enemyGrid w with
      | Some g => SpawnGrid.query g (player_x p) (player_y p) (spawnRadius w)
      | None => seq 0 (length (enemySpawns zone))
      end in
    fold_left (considerSpawn false) (RefEnemy <$> candidates) w
  end.

(** The body of the despawn loop on one entity of the snapshot *)
Definition considerDespawn (w : t) (addr : nat) : t :=
  match currentZone w, objects (state w) !! addr with
  | Some zone, Some enemy =>
    if dead enemy then w
    else
      match spawnRef enemy with
      | None => w
      | Some ref =>
        match getSpawn zone ref with
        | None => w
        | Some spawn =>
          let p := player (state w) in
          if active spawn
             && Js.hypot_gt (player_x p - x enemy) (player_y p - y enemy)
                  (despawnRadius w)
          then despawnEnemy ref w
          else w
        end
      end
  | _, _ => w
  end.

(** "Despawn active enemies if too far": the loop runs over a copy
    [[...this.activeEnemies]] taken before the first iteration. *)
Definition despawnFar (w : t) : t :=
  fold_left considerDespawn (activeEnemies w) w.

(** "Check elite spawns (spatial hash)" *)
Definition checkEliteSpawns (w : t) : t :=
  match currentZone w with
  | None => w
  | Some zone =>
    let p := player (state w) in
    let candidates :=
      match eliteGrid w with
      | Some g => SpawnGrid.query g (player_x p) (player_y p) (spawnRadius w)
      | None => seq 0 (length (eliteSpawns zone))
      end in
    fold_left (considerSpawn true) (RefElite <$> candidates) w
  end.

(** "Check boss spawn" *)
Definition checkBossSpawn (w : t) : t :=
  match currentZone w with
  | None => w
  | Some zone =>
    match bossSpawn zone with
    | None => w
    | Some spawn =>
      if killed spawn then w
      else
        let p := player (state w) in
        if negb (active spawn)
           && Js.hypot_lt (player_x p - sx spawn) (player_y p - sy spawn)
                (spawnRadius w * 1.5)
        then spawnBoss w
        else w
    end
  end.

(** [onExitReached()] *)
Definition onExitReached (w : t) : option t := loadZone (zoneIndex w + 1) w.

(** "Check exit collision" *)
Definition checkExit (w : t) : option t :=
  match currentZone w with
  | None => Some w
  | Some zone =>
    match exit zone with
    | None => Some w
    | Some e =>
      let p := player (state w) in
      if Js.hypot_lt (player_x p - px e) (player_y p - py e) 50
      then onExitReached w
      else Some w
    end
  end.

(** [onPortalEnter(portal)].  [init] is asynchronous but has no
    suspension point: its body runs within the call, and its result is
    dropped. *)
Definition onPortalEnter (portal : Portal) (w : t) : t :=
  if is_str (destination portal) "hub" then
    let st := state w in
    set_state (set_hubRendered (S (hubRendered st)) (set_scene (Some "hub"%string) st)) w
  else
    match destination portal with
    | Some dest =>
      if String.eqb dest "" then w
      else match init dest None w with
           | Some (_, w') => w'
           | None => w
           end
    | None => w
    end.

(** "Check portal collision": the loop runs over the portal list of the
    zone that is current when the loop starts. *)
Definition checkPortals (w : t) : t :=
  match currentZone w with
  | None => w
  | Some zone =>
    fold_left
      (fun w portal =>
         let p := player (state w) in
         if Js.hypot_lt (player_x p - portal_x portal) (player_y p - portal_y portal) 60
         then onPortalEnter portal w
         else w)
      (portals zone) w
  end.

(** The body of [updateEnemyPatrols] on one entity: the entity and the
      ambient generator after it.  A patrol tag comes with its origin and
      radius ([spawnEnemy] sets the three together); an entity without them
      is left as it is. *)
Definition patrolStep (dt : Q) (enemy : Enemy) (a : Ambient.t) : Enemy * Ambient.t :=
  match epatrol enemy, patrolOrigin enemy, epatrolRadius enemy with
  | Some tag, Some origin, Some pr =>
    if String.eqb tag "" || dead enemy then (enemy, a)
    else if String.eqb tag "circle" then
      let angle := (patrolAngle enemy + dt * 0.5)%Q in
      (set_e_y (py origin + Js.sin angle * inject_Z pr)%Q
         (set_e_x (px origin + Js.cos angle * inject_Z pr)%Q
            (set_e_patrolAngle angle enemy)), a)
    else if String.eqb tag "line" then
      let angle := (patrolAngle enemy + dt * 0.8)%Q in
      (set_e_x (px origin + Js.sin angle * inject_Z pr)%Q
         (set_e_patrolAngle angle enemy), a)
    else if String.eqb tag "wander" then
      let '(r, a) := Ambient.random a in
      let '(enemy, a) :=
        if Js.ltb r (dt * 0.5) then
          let '(r1, a) := Ambient.random a in
          let enemy := set_e_vx ((r1 - 0.5) * speed enemy)%Q enemy in
          let '(r2, a) := Ambient.random a in
          (set_e_vy ((r2 - 0.5) * speed enemy)%Q enemy, a)
        else (enemy, a) in
      if Js.hypot_gt (x enemy - px origin) (y enemy - py origin) (inject_Z pr) then
        let angle := Js.atan2 (py origin - y enemy) (px origin - x enemy) in
        (set_e_vy (Js.sin angle * speed enemy * 0.5)%Q
           (set_e_vx (Js.cos angle * speed enemy * 0.5)%Q enemy), a)
      else (enemy, a)
    else (enemy, a)
  | _, _, _ => (enemy, a)
  end.

(** [updateEnemyPatrols(dt)] *)
Definition updateEnemyPatrols (dt : Q) (w : t) : t :=
  fold_left
    (fun w addr =>
       let st := state w in
       match objects st !! addr with
       | None => w
       | Some enemy =>
         let '(enemy, a) := patrolStep dt enemy (random st) in
         set_state (set_random a (set_objects (<[addr := enemy]> (objects st)) st)) w
       end)
    (activeEnemies w) w.

(** [update(dt)] *)
Definition update (dt : Q) (w : t) : option t :=
  match currentZone w with
  | None => Some w
  | Some _ =>
    let w := checkEnemySpawns w in
    let w := despawnFar w in
    let w := checkEliteSpawns w in
    let w := checkBossSpawn w in
    w ← checkExit w;
    let w := checkPortals w in
    Some (updateEnemyPatrols dt w)
  end.

(** The descriptor [ref] denotes in the current zone. *)
Definition descriptor (w : t) (ref : SpawnRef) : option Spawn :=
  zone ← currentZone w; getSpawn zone ref.

(** The spawn and despawn passes of [update], in its order. *)
Definition spawnPasses (w : t) : t :=
  checkBossSpawn (checkEliteSpawns (despawnFar (checkEnemySpawns w))).

End WithEnv.

End World.

(* ===================================================================== *)
(** ** Bullets.js: the item seed of a loot drop *)
(* ===================================================================== *)

Module Bullets.

(** The part of [State.run] read by [checkLootDrop] for the item seed. *)
Record Run := { run_seed : option Z; lootSerial : Z }.

(** The kill payload: the position of the kill. *)
Record KillData := { kill_x : Q; kill_y : Q }.

(** [x | 0] on a number *)
Definition or0 (v : Q) : Z := Js.toInt32 (Js.trunc v).

(** The seed expression of [checkLootDrop], evaluated when the drop roll
    succeeds:
    [seedFromParts(State.run?.seed || (State.meta.worldSeed || 0), 'ITEM',
       (State.run.lootSerial++), (killData.x|0), (killData.y|0), depth)]
    and then [itemSeed >>> 0].  It returns the seed and the run record
    with the serial counter incremented. *)
Definition itemSeed (run : Run) (worldSeed : option Z) (killData : KillData)
    (depth : Z) : Z * Run :=
  let runSeed :=
    match run_seed run with
    | Some s => if s =? 0 then default 0 worldSeed else s
    | None => default 0 worldSeed
    end in
  let serial := lootSerial run in
  let run := {| run_seed := run_seed run; lootSerial := serial + 1 |} in
  (Js.toUint32
     (SeedUtil.seedFromParts
        [SeedUtil.PNum runSeed; SeedUtil.PStr "ITEM"; SeedUtil.PNum serial;
         SeedUtil.PNum (or0 (kill_x killData));
         SeedUtil.PNum (or0 (kill_y killData));
         SeedUtil.PNum depth]),
   run).

End Bullets.

(* ===================================================================== *)
(** ** Bullets.js: rarity resolution and loot drops *)
(* ===================================================================== *)

Module Loot.

(** A rarity weight table: the entries of an object of numbers, in
    insertion order. *)
Definition Weights : Type := list (string * Q).

(** [State.data.config.loot] *)
Record LootCfg := {
  baseDropChance : option Q;
  eliteDropChance : option Q;
  bossDropChance : option Q;
  scrapDropChance : option Q;
  bias_normal : option Weights;
  bias_elite : option Weights;
  bias_boss : option Weights
}.

(** The kill payload *)
Record Kill := {
  at_ : Bullets.KillData;
  isElite : bool;
  isBoss : bool
}.

Record Pickup := {
  ptype : string;
  pickup_x : Q;
  pickup_y : Q;
  pickup_vx : Q;
  pickup_vy : Q;
  life : Q;
  rarity : option string;
  itemSeed : option Z;
  value : option Z
}.

(** What [checkLootDrop] reads and writes: the loot configuration, the
    depth of the current zone, the run record, the run's loot stream
    ([State.run.rng.loot], a shared object), the world seed, the
    player's luck and the pickup list. *)
Record State := {
  cfg : option LootCfg;
  zoneDepth : option Z;
  run : Bullets.Run;
  lootRng : option SeededRandom.t;
  worldSeed : option Z;
  luck : option Q;
  pickups : list Pickup
}.

Definition defaults_normal : Weights :=
  [("common", 1.0); ("uncommon", 0.9); ("rare", 0.55); ("epic", 0.20);
   ("legendary", 0.06); ("mythic", 0.01)]%Q%string.
Definition defaults_elite : Weights :=
  [("common", 0.6); ("uncommon", 0.9); ("rare", 1.2); ("epic", 0.7);
   ("legendary", 0.18); ("mythic", 0.03)]%Q%string.
Definition defaults_boss : Weights :=
  [("common", 0.25); ("uncommon", 0.6); ("rare", 1.1); ("epic", 0.9);
   ("legendary", 0.65); ("mythic", 0.15)]%Q%string.

(** [w[key]] *)
Fixpoint get (key : string) (w : Weights) : option Q :=
  match w with
  | [] => None
  | (k, v) :: rest => if String.eqb k key then Some v else get key rest
  end.

(** [w[key] = v]: an existing entry keeps its place, a new one goes
    last. *)
Fixpoint set (key : string) (v : Q) (w : Weights) : Weights :=
  match w with
  | [] => [(key, v)]
  | (k, v') :: rest =>
    if String.eqb k key then (k, v) :: rest else (k, v') :: set key v rest
  end.

(** [w.key = (w.key ?? 0) * factor] *)
Definition scaleKey (key : string) (factor : Q) (w : Weights) : Weights :=
  set key (default 0%Q (get key w) * factor)%Q w.

(** The depth tilt of [pickRarityForDrop] *)
Definition tiltOf (depth : Z) : Q :=
  let d := Z.max 1 (if depth =? 0 then 1 else depth) in
  Js.min 0.25 (Js.max 0 ((inject_Z d - 50) / 400)).

(** The table of the kill's tier *)
Definition tierWeights (cfg : option LootCfg) (kill : Kill) : Weights :=
  let pick (bias : option Weights) (dflt : Weights) :=
    match bias with
    | Some w => w
    | None => dflt
    end in
  if isBoss kill then pick (c ← cfg; bias_boss c) defaults_boss
  else if isElite kill then pick (c ← cfg; bias_elite c) defaults_elite
  else pick (c ← cfg; bias_normal c) defaults_normal.

(** The table after the tilt *)
Definition tilted (tilt : Q) (weights : Weights) : Weights :=
  if Js.ltb 0 tilt then
    scaleKey "mythic" (1 + 1.2 * tilt)
      (scaleKey "legendary" (1 + 0.8 * tilt)
         (scaleKey "uncommon" (1 - 0.4 * tilt)
            (scaleKey "common" (1 - 0.6 * tilt) weights)))
  else weights.

(** [for (const [k, v] of entries) { r -= v; if (r <= 0) return k; }] *)
Fixpoint scan (r : Q) (entries : Weights) : option string :=
  match entries with
  | [] => None
  | (k, v) :: rest =>
    let r := (r - v)%Q in
    if Js.leb r 0 then Some k else scan r rest
  end.

(** [pickRarityForDrop(killData, depth, rng)], drawing from a seeded
    stream *)
Definition pickRarityForDrop (cfg : option LootCfg) (kill : Kill) (depth : Z)
  : SeededRandom.M (option string) :=
  let w := tilted (tiltOf depth) (tierWeights cfg kill) in
  let entries := List.filter (fun e => Js.ltb 0 (snd e)) w in
  let total := fold_left (fun total e => (total + snd e)%Q) entries 0%Q in
  if Js.leb total 0 then SeededRandom.ret None
  else
    SeededRandom.bind SeededRandom.next
      (fun n =>
         SeededRandom.ret
           (match scan (n * total) entries with
            | Some k => Some k
            | None => fst <$> last entries
            end)).

(** [getLootRng()]: the run's stream, or a stream seeded afresh from the
    world seed. *)
Definition getLootRng (st : State) : SeededRandom.t :=
  match lootRng st with
  | Some r => r
  | None =>
    SeededRandom.new
      (SeedUtil.seedFromParts
         [SeedUtil.PNum (default 0 (worldSeed st)); SeedUtil.PStr "LOOT_FALLBACK"])
  end.

(** [checkLootDrop(killData)].  Draws on the run's stream advance it;
    draws on the fallback stream are lost with it. *)
Definition checkLootDrop (kill : Kill) (st : State) : State :=
  match cfg st with
  | None => st
  | Some c =>
    let depth := match zoneDepth st with
                 | Some d => if d =? 0 then 1 else d
                 | None => 1
                 end in
    let rng := getLootRng st in
    let kx := Bullets.kill_x (at_ kill) in
    let ky := Bullets.kill_y (at_ kill) in
    let dropChance := default 0.02%Q (baseDropChance c) in
    let dropChance :=
      if isElite kill then default 0.18%Q (eliteDropChance c) else dropChance in
    let dropChance :=
      if isBoss kill then default 0.85%Q (bossDropChance c) else dropChance in
    let dropChance :=
      (dropChance * (1 + MapGenerator.num_or (luck st) 0 * 0.02))%Q in
    let '(drop, rng) := SeededRandom.chance dropChance rng in
    let '(run, pickups, rng) :=
      if drop then
        let '(seed, run) := Bullets.itemSeed (run st) (worldSeed st) (at_ kill) depth in
        let '(rarity, rng) := pickRarityForDrop (cfg st) kill depth rng in
        let '(n1, rng) := SeededRandom.next rng in
        let '(n2, rng) := SeededRandom.next rng in
        (run,
         pickups st ++
           [{| ptype := "item"; pickup_x := kx; pickup_y := ky;
               pickup_vx := ((n1 - 0.5) * 50)%Q; pickup_vy := (-50 + n2 * 30)%Q;
               life := 10; rarity := rarity; itemSeed := Some seed;
               value := None |}],
         rng)
      else (run st, pickups st, rng) in
    let '(n1, rng) := SeededRandom.next rng in
    let '(n2, rng) := SeededRandom.next rng in
    let '(n3, rng) := SeededRandom.next rng in
    let pickups :=
      pickups ++
        [{| ptype := "cells"; pickup_x := (kx + (n1 - 0.5) * 20)%Q; pickup_y := ky;
            pickup_vx := ((n2 - 0.5) * 40)%Q; pickup_vy := (-30 + n3 * 20)%Q;
            life := 8; rarity := None; itemSeed := None;
            value := Some (if isBoss kill then 50
                           else if isElite kill then 20 else 5) |}] in
    let scrapChance := default 0.12%Q (scrapDropChance c) in
    let '(scrap, rng) := SeededRandom.chance scrapChance rng in
    let '(pickups, rng) :=
      if scrap then
        let '(n1, rng) := SeededRandom.next rng in
        let '(n2, rng) := SeededRandom.next rng in
        let '(n3, rng) := SeededRandom.next rng in
        (pickups ++
           [{| ptype := "scrap"; pickup_x := (kx + (n1 - 0.5) * 20)%Q;
               pickup_y := ky;
               pickup_vx := ((n2 - 0.5) * 40)%Q; pickup_vy := (-30 + n3 * 20)%Q;
               life := 8; rarity := None; itemSeed := None;
               value := Some (if isBoss kill then 10
                              else if isElite kill then 5 else 1) |}],
         rng)
      else (pickups, rng) in
    {| cfg := cfg st; zoneDepth := zoneDepth st; run := run;
       lootRng := (fun _ => rng) <$> lootRng st;
       worldSeed := worldSeed st; luck := luck st; pickups := pickups |}
  end.

End Loot.

(* ===================================================================== *)
(** ** Sample inputs *)
(* ===================================================================== *)

(** Concrete inputs on which the definitions are evaluated. *)
Module Samples.

Import MapGenerator.

(** A host library of coarse rational approximations (exactness of the
    trigonometric values plays no role in what is evaluated). *)
Definition math : Js.Math :=
  {| Js.PI := 3.141592653589793%Q;
     Js.cos := fun a => (1 - a * a / 2 + a * a * a * a / 24)%Q;
     Js.sin := fun a => (a - a * a * a / 6 + a * a * a * a * a / 120)%Q;
     Js.atan2 := fun y x =>
       if Qeq_bool x 0 then (if Js.ltb y 0 then - (1.5707963267948966) else 1.5707963267948966)%Q
       else (y / x / (1 + 0.28 * (y / x) * (y / x)))%Q |}.

(** An entity factory whose entities are named after their type tag. *)
Definition factory : World.Enemies :=
  {| World.template := fun type isElite isBoss =>
       {| World.id := 0; World.x := 0; World.y := 0; World.vx := 0;
          World.vy := 0; World.speed := 100; World.dead := false;
          World.isBoss := isBoss; World.name := type;
          World.spawnRef := None; World.level := 0; World.epatrol := None;
          World.epatrolRadius := None; World.patrolOrigin := None;
          World.patrolAngle := 0 |} |}.

Definition noOptions : Options :=
  {| opt_seeds := None; opt_layout := None; opt_backdrop := None;
     opt_depth := None; opt_mods := None |}.

Definition emptyAct : ActConfig :=
  {| act_id := None; act_seed := None; act_biome := None; act_zones := None;
     act_generation := None; act_enemies := None; act_parallax := None;
     act_boss := None; act_modifiers := None |}.

(** An act whose zones are 50 by 50. *)
Definition smallAct : ActConfig :=
  {| act_id := None; act_seed := None; act_biome := None; act_zones := None;
     act_generation :=
       Some {| cfg_enemyDensity := None; cfg_eliteDensity := None;
               cfg_obstacleDensity := None;
               cfg_width := RNum 50; cfg_height := RNum 50 |};
     act_enemies := None; act_parallax := None; act_boss := None;
     act_modifiers := None |}.

(** An act whose zones are 600 by 600. *)
Definition midAct : ActConfig :=
  {| act_id := None; act_seed := None; act_biome := None; act_zones := None;
     act_generation :=
       Some {| cfg_enemyDensity := None; cfg_eliteDensity := None;
               cfg_obstacleDensity := None;
               cfg_width := RNum 600; cfg_height := RNum 600 |};
     act_enemies := None; act_parallax := None; act_boss := None;
     act_modifiers := None |}.

(** An act in which every zone is a boss zone, with a tall arena. *)
Definition bossAct : ActConfig :=
  {| act_id := None; act_seed := None; act_biome := None;
     act_zones := Some 1%Q;
     act_generation := None; act_enemies := None; act_parallax := None;
     act_boss := Some {| cfg_arenaWidth := Some 600%Q;
                         cfg_arenaHeight := Some 3000%Q;
                         cfg_boss_type := None |};
     act_modifiers := None |}.

Definition state0 : World.State :=
  {| World.data_acts := Some {[ "boss"%string := bossAct; "small"%string := smallAct ]};
     World.data_config := None;
     World.meta := {| Meta.worldSeed := Some 7; Meta.runIndex := None;
                      Meta.level := None; Meta.depth := None;
                      Meta.freshness := None |};
     World.run_seed := None;
     World.world_zoneIndex := None;
     World.world_seed := None;
     World.world_seeds := None;
     World.player := {| World.player_x := 0; World.player_y := 0;
                        World.player_vx := 0; World.player_vy := 0 |};
     World.enemies := [];
     World.objects := ∅;
     World.nextId := 0;
     World.scene := None;
     World.announcements := [];
     World.hubRendered := 0;
     World.console := [];
     World.canvas := None;
     World.camera := (0, 0)%Q;
     World.random := {| Ambient.values := fun _ => 0.5%Q; Ambient.calls := 0 |} |}.

(** The [World] object as the module declares it. *)
Definition world0 : World.t :=
  {| World.currentZone := None;
     World.currentAct := None;
     World.zoneIndex := 0;
     World.spawnRadius := 600;
     World.despawnRadius := 1200;
     World.activeEnemies := [];
     World.enemyGrid := None;
     World.eliteGrid := None;
     World.rngEncounters := None;
     World.spawnedEnemyCount := 0;
     World.spawnedEliteCount := 0;
     World.bossSpawned := false;
     World.state := state0 |}.

(** The player moves (by the player controller, outside the core). *)
Definition movePlayer (px py : Q) (w : World.t) : World.t :=
  World.set_state
    (World.set_player
       {| World.player_x := px; World.player_y := py;
          World.player_vx := 0; World.player_vy := 0 |} (World.state w)) w.

(** A boss arena written out, with its boss descriptor dormant or
    active. *)
Definition noParallax : Parallax :=
  {| background_color := "#0a0a15"; background_stars := [];
     background_scrollSpeed := 0.1; midground_stars := [];
     midground_scrollSpeed := 0.3; foreground_objects := [];
     foreground_scrollSpeed := 0.6; particles_scrollSpeed := 0.9 |}.

Definition bossDescriptor (isActive : bool) : Spawn :=
  {| sx := 300; sy := 200; stype := Some "sentinel"%string; patrol := None;
     patrolRadius := None; active := isActive; killed := false;
     enemyId := if isActive then Some 0%nat else None |}.

Definition arena (isActive : bool) : Zone :=
  {| seed := 1; width := 600; height := 3000; biome := None;
     isBossZone := true;
     spawn := {| px := 300; py := 2900 |};
     exit := None;
     enemySpawns := []; eliteSpawns := [];
     bossSpawn := Some (bossDescriptor isActive);
     obstacles := []; decorations := []; parallax := noParallax;
     pickups := []; portals := [];
     depth := Some 1; mods := Some []; layout := Some "OPEN"%string;
     backdrop := Some "A"%string; signature := None; seeds := None |}.

Definition bossEntity : World.Enemy :=
  World.set_e_spawnRef (Some World.RefBoss)
    (World.set_e_y 200%Q
       (World.set_e_x 300%Q
          (@World.template factory (Some "sentinel"%string) false true))).

(** The boss is dormant and the player stands 800 below its spawn. *)
Definition dormantWorld : World.t :=
  movePlayer 300 1000 (World.set_currentZone (Some (arena false)) world0).

(** The boss is materialized and the player stands 1300 below it. *)
Definition activeWorld : World.t :=
  movePlayer 300 1500
    (World.set_activeEnemies [0%nat]
       (World.set_currentZone (Some (arena true))
          (World.set_state
             (World.set_nextId 1%nat
                (World.set_enemies [0%nat]
                   (World.set_objects {[ 0%nat := bossEntity ]} state0)))
             world0))).

(** A zone written out, with one enemy descriptor, killed or not, and an
    exit; the world standing in it at depth 3, with the player at a given
    position. *)
Definition scout (isKilled : bool) : Spawn :=
  {| sx := 400; sy := 400; stype := Some "grunt"%string;
     patrol := Some "circle"%string; patrolRadius := Some 60;
     active := false; killed := isKilled; enemyId := None |}.

Definition outpost (isKilled : bool) : Zone :=
  {| seed := 2; width := 1000; height := 1000; biome := None;
     isBossZone := false;
     spawn := {| px := 500; py := 900 |};
     exit := Some {| px := 500; py := 100 |};
     enemySpawns := [scout isKilled]; eliteSpawns := [];
     bossSpawn := None;
     obstacles := []; decorations := []; parallax := noParallax;
     pickups := []; portals := [];
     depth := Some 3; mods := Some []; layout := Some "OPEN"%string;
     backdrop := Some "A"%string; signature := None; seeds := None |}.

Definition outpostWorld (isKilled : bool) (px py : Q) : World.t :=
  movePlayer px py
    (World.set_currentAct (Some smallAct)
       (World.set_zoneIndex 2
          (World.set_currentZone (Some (outpost isKilled)) world0))).

(** A run with a loot configuration that leaves every chance and table
    at its default. *)
Definition lootState : Loot.State :=
  {| Loot.cfg :=
       Some {| Loot.baseDropChance := None; Loot.eliteDropChance := None;
               Loot.bossDropChance := None; Loot.scrapDropChance := None;
               Loot.bias_normal := None; Loot.bias_elite := None;
               Loot.bias_boss := None |};
     Loot.zoneDepth := Some 60;
     Loot.run := {| Bullets.run_seed := Some 7; Bullets.lootSerial := 0 |};
     Loot.lootRng := Some (SeededRandom.new 11);
     Loot.worldSeed := Some 7;
     Loot.luck := None;
     Loot.pickups := [] |}.

Definition bossKill : Loot.Kill :=
  {| Loot.at_ := {| Bullets.kill_x := 300; Bullets.kill_y := 200 |};
     Loot.isElite := false; Loot.isBoss := true |}.

(** Three points to index, by their coordinates. *)
Definition points : list (option Point) :=
  [Some {| px := 100; py := 100 |}; None;
   Some {| px := 700; py := 650 |}; Some {| px := 3000; py := 40 |}].

End Samples.

(* ===================================================================== *)
(** * Properties *)
(* ===================================================================== *)

(** ** Reference values *)

Module ReferenceValues.

Example next_42 :
  fst (SeededRandom.next (SeededRandom.new 42)) = (inject_Z 2581720956 / inject_Z Js.two32)%Q.
Proof. vm_compute. reflexivity. Qed.

Example seedFromParts_item :
  SeedUtil.seedFromParts
    [SeedUtil.PNum 42; SeedUtil.PStr "ITEM"; SeedUtil.PNum 0; SeedUtil.PNum 10;
     SeedUtil.PNum 20; SeedUtil.PNum 1] = 4278121778.
Proof. vm_compute. reflexivity. Qed.

Example seedFromParts_macro :
  SeedUtil.seedFromParts [SeedUtil.PNum 42; SeedUtil.PStr "MACRO"] = 3062043965.
Proof. vm_compute. reflexivity. Qed.

End ReferenceValues.

(** ** 32-bit arithmetic *)

Module JsFacts.

Import Js.

Lemma two32_pow : two32 = 2 ^ 32.
Proof. reflexivity. Qed.

Lemma toUint32_range x : 0 <= toUint32 x < two32.
Proof. unfold toUint32. apply Z.mod_pos_bound. reflexivity. Qed.

Lemma toUint32_small x : 0 <= x < two32 -> toUint32 x = x.
Proof. intros. unfold toUint32. now apply Z.mod_small. Qed.

Lemma toUint32_idem x : toUint32 (toUint32 x) = toUint32 x.
Proof. apply toUint32_small, toUint32_range. Qed.

Lemma toUint32_toInt32 x : toUint32 (toInt32 x) = toUint32 x.
Proof.
  unfold toUint32, toInt32.
  rewrite Zminus_mod_idemp_l.
  f_equal. unfold two31. lia.
Qed.

Lemma toInt32_range x : - two31 <= toInt32 x < two31.
Proof.
  unfold toInt32.
  pose proof (Z.mod_pos_bound (x + two31) two32 eq_refl).
  unfold two31, two32 in *. lia.
Qed.

(** Bits below 32 only depend on the value modulo [2^32]. *)
Lemma testbit_toUint32 x i :
  Z.testbit (toUint32 x) i = (i <? 32) && Z.testbit x i.
Proof.
  unfold toUint32. rewrite two32_pow.
  destruct (Z.ltb_spec i 32) as [Hlt | Hge]; simpl.
  - destruct (Z.neg_nonneg_cases i) as [Hneg | Hpos].
    + now rewrite !Z.testbit_neg_r.
    + apply Z.mod_pow2_bits_low. lia.
  - apply Z.mod_pow2_bits_high. lia.
Qed.

Lemma testbit_toInt32_low x i :
  i < 32 -> Z.testbit (toInt32 x) i = Z.testbit x i.
Proof.
  intros Hi.
  pose proof (testbit_toUint32 (toInt32 x) i) as H1.
  pose proof (testbit_toUint32 x i) as H2.
  rewrite toUint32_toInt32 in H1.
  apply Z.ltb_lt in Hi. rewrite Hi in *. simpl in *. congruence.
Qed.

Lemma toUint32_xor a b :
  toUint32 (xor a b) = Z.lxor (toUint32 a) (toUint32 b).
Proof.
  apply Z.bits_inj'. intros i _. unfold xor.
  rewrite testbit_toUint32, !Z.lxor_spec, !testbit_toUint32.
  destruct (Z.ltb_spec i 32) as [Hlt | Hge]; simpl; [| reflexivity].
  now rewrite !testbit_toInt32_low.
Qed.

Lemma toUint32_imul a b : toUint32 (imul a b) = (a * b) mod two32.
Proof.
  unfold imul. rewrite toUint32_toInt32.
  pose proof (toUint32_toInt32 a) as Ha.
  pose proof (toUint32_toInt32 b) as Hb.
  unfold toUint32 in *.
  rewrite (Z.mul_mod (toInt32 a)), Ha, Hb by discriminate.
  now rewrite <- Z.mul_mod by discriminate.
Qed.

Lemma ushr_small x k :
  0 <= x < two32 -> 0 <= k < 32 -> ushr x k = Z.shiftr x k.
Proof.
  intros Hx Hk. unfold ushr.
  now rewrite toUint32_small, Z.mod_small.
Qed.

(** A value below [2^32] has no bit at position 32 or above. *)
Lemma testbit_high x i : 0 <= x < two32 -> 32 <= i -> Z.testbit x i = false.
Proof.
  intros Hx Hi. rewrite <- (toUint32_small x Hx), testbit_toUint32.
  apply Z.ltb_ge in Hi. now rewrite Hi.
Qed.

Lemma small_of_bits x :
  0 <= x -> (forall i, 32 <= i -> Z.testbit x i = false) -> 0 <= x < two32.
Proof.
  intros Hx Hbits. split; [assumption |].
  destruct (Z.lt_ge_cases x two32) as [? | Hge]; [assumption | exfalso].
  assert (Hpos : 0 < x) by (unfold two32 in *; lia).
  pose proof (Z.bit_log2 x Hpos) as Hb.
  rewrite Hbits in Hb; [discriminate |].
  apply Z.log2_le_pow2; [lia |]. now rewrite <- two32_pow.
Qed.

(** [x ^ (x >>> k)] stays below [2^32]. *)
Lemma xorshift_range x k :
  0 <= x < two32 -> 0 <= k -> 0 <= Z.lxor x (Z.shiftr x k) < two32.
Proof.
  intros Hx Hk. apply small_of_bits.
  - apply Z.lxor_nonneg. split; intros _; [apply Z.shiftr_nonneg |]; lia.
  - intros i Hi. rewrite Z.lxor_spec, Z.shiftr_spec by lia.
    rewrite !testbit_high by (assumption || lia). reflexivity.
Qed.

(** [x ^ (x >>> k)] is injective on 32-bit values when [k > 0]: the bits
    of [x] are recovered from the top down. *)
Lemma xorshift_inj x y k :
  0 < k -> 0 <= x < two32 -> 0 <= y < two32 ->
  Z.lxor x (Z.shiftr x k) = Z.lxor y (Z.shiftr y k) -> x = y.
Proof.
  intros Hk Hx Hy Heq.
  assert (Hbits : forall n : nat, forall i, 32 - Z.of_nat n <= i ->
                     Z.testbit x i = Z.testbit y i).
  { induction n as [| n IH]; intros i Hi.
    - rewrite !testbit_high by (assumption || lia). reflexivity.
    - destruct (Z.neg_nonneg_cases i) as [Hneg | Hpos].
      + now rewrite !Z.testbit_neg_r.
      + pose proof (f_equal (fun v => Z.testbit v i) Heq) as Hb.
        simpl in Hb. rewrite !Z.lxor_spec, !Z.shiftr_spec in Hb by assumption.
        rewrite (IH (i + k)) in Hb by lia.
        destruct (Z.testbit x i), (Z.testbit y i), (Z.testbit y (i + k));
          simpl in Hb; congruence. }
  apply Z.bits_inj'. intros i Hi.
  apply (Hbits (Z.to_nat 32)). lia.
Qed.

(** Multiplication by a unit modulo [2^32] is injective on 32-bit values. *)
Lemma mulmod_inj c c' x y :
  (c * c') mod two32 = 1 ->
  0 <= x < two32 -> 0 <= y < two32 ->
  (x * c) mod two32 = (y * c) mod two32 -> x = y.
Proof.
  intros Hc Hx Hy Heq.
  assert (H : forall z, 0 <= z < two32 -> ((z * c) mod two32 * c') mod two32 = z).
  { intros z Hz. rewrite Z.mul_mod_idemp_l by discriminate.
    rewrite <- Z.mul_assoc, <- Z.mul_mod_idemp_r by discriminate.
    rewrite Hc, Z.mul_1_r. now apply Z.mod_small. }
  rewrite <- (H x Hx), <- (H y Hy). now rewrite Heq.
Qed.

End JsFacts.

(** ** Seed mixing is injective in each argument *)

Module SeedUtilFacts.

Import Js JsFacts SeedUtil.

Lemma xorshift_step_inj k x y :
  0 < k < 32 -> 0 <= x < two32 -> 0 <= y < two32 ->
  toUint32 (xor x (ushr x k)) = toUint32 (xor y (ushr y k)) -> x = y.
Proof.
  intros Hk Hx Hy. rewrite !toUint32_xor, !ushr_small by (assumption || lia).
  assert (Hs : forall z, 0 <= z < two32 -> toUint32 (Z.shiftr z k) = Z.shiftr z k).
  { intros z Hz. apply toUint32_small. split.
    - apply Z.shiftr_nonneg. lia.
    - rewrite Z.shiftr_div_pow2 by lia.
      apply Z.le_lt_trans with z; [| lia].
      assert (0 < 2 ^ k) by (apply Z.pow_pos_nonneg; lia).
      apply Z.div_le_upper_bound; [assumption | nia]. }
  rewrite !Hs, !toUint32_small by assumption.
  apply xorshift_inj; (assumption || lia).
Qed.

Lemma imul_step_inj c c' a b :
  (c * c') mod two32 = 1 ->
  toUint32 (imul a c) = toUint32 (imul b c) -> toUint32 a = toUint32 b.
Proof.
  intros Hc. rewrite !toUint32_imul.
  rewrite <- (Z.mul_mod_idemp_l a), <- (Z.mul_mod_idemp_l b) by discriminate.
  apply (mulmod_inj c c'); [assumption | apply toUint32_range ..].
Qed.

Lemma mixSeed_range s v : 0 <= mixSeed s v < two32.
Proof. unfold mixSeed. apply toUint32_range. Qed.

(** Two mixes agree only when [seed ^ value] agrees on 32 bits. *)
Lemma mixSeed_inj s v s' v' :
  mixSeed s v = mixSeed s' v' ->
  Z.lxor (toUint32 s) (toUint32 v) = Z.lxor (toUint32 s') (toUint32 v').
Proof.
  unfold mixSeed. rewrite !toUint32_idem. intros H.
  apply xorshift_step_inj in H; [| lia | apply toUint32_range ..].
  apply (imul_step_inj _ 0x7ed1b41d) in H; [| reflexivity].
  apply xorshift_step_inj in H; [| lia | apply toUint32_range ..].
  apply (imul_step_inj _ 0xa5cb9243) in H; [| reflexivity].
  apply xorshift_step_inj in H; [| lia | apply toUint32_range ..].
  now rewrite !toUint32_xor, !toUint32_idem in H.
Qed.

Lemma lxor_cancel_l a b c : Z.lxor a b = Z.lxor a c -> b = c.
Proof.
  intros H. apply (f_equal (Z.lxor a)) in H.
  now rewrite <- !Z.lxor_assoc, Z.lxor_nilpotent, !Z.lxor_0_l in H.
Qed.

Lemma lxor_cancel_r a b c : Z.lxor b a = Z.lxor c a -> b = c.
Proof. rewrite !(Z.lxor_comm _ a). apply lxor_cancel_l. Qed.

Lemma mixSeed_inj_value s v v' :
  mixSeed s v = mixSeed s v' -> toUint32 v = toUint32 v'.
Proof. intros H. apply mixSeed_inj in H. eapply lxor_cancel_l, H. Qed.

Lemma mixSeed_inj_seed s s' v :
  mixSeed s v = mixSeed s' v -> toUint32 s = toUint32 s'.
Proof. intros H. apply mixSeed_inj in H. eapply lxor_cancel_r, H. Qed.

(** Two generic facts on [fold_left]: an invariant of the step is an
    invariant of the fold, and a relation kept by the step on equal
    inputs is kept by the fold. *)
Lemma fold_left_invariant {A B} (f : A -> B -> A) (P : A -> Prop) :
  (forall a b, P a -> P (f a b)) ->
  forall l a, P a -> P (fold_left f l a).
Proof.
  intros Hstep l. induction l as [| b l IH]; intros a Ha; cbn [fold_left];
    [assumption | apply IH, Hstep, Ha].
Qed.

Lemma fold_left_related {A B} (f : A -> B -> A) (R : A -> A -> Prop) :
  (forall a a' b, R a a' -> R (f a b) (f a' b)) ->
  forall l a a', R a a' -> R (fold_left f l a) (fold_left f l a').
Proof.
  intros Hstep l. induction l as [| b l IH]; intros a a' Ha; cbn [fold_left];
    [assumption | apply IH, Hstep, Ha].
Qed.

(** The fold of [seedFromParts], from a given seed. *)
Lemma fold_range parts s :
  0 <= s < two32 ->
  0 <= fold_left (fun s p => mixSeed s (partToU32 p)) parts s < two32.
Proof.
  apply (fold_left_invariant _ (fun s => 0 <= s < two32)).
  intros a b _. apply mixSeed_range.
Qed.

(** Distinct running seeds stay distinct through the same parts. *)
Lemma fold_distinct parts s s' :
  0 <= s < two32 -> 0 <= s' < two32 -> s <> s' ->
  fold_left (fun s p => mixSeed s (partToU32 p)) parts s
  <> fold_left (fun s p => mixSeed s (partToU32 p)) parts s'.
Proof.
  intros Hs Hs' Hne.
  apply (fold_left_related _
           (fun a a' => (0 <= a < two32 /\ 0 <= a' < two32) /\ a <> a'));
    [| tauto].
  intros a a' b [[Ha Ha'] Hd]. split; [split; apply mixSeed_range |].
  intros H. apply mixSeed_inj_seed in H.
  rewrite (toUint32_small a), (toUint32_small a') in H by assumption.
  contradiction.
Qed.

Lemma fold_left_cons {A B} (f : A -> B -> A) b l a :
  fold_left f (b :: l) a = fold_left f l (f a b).
Proof. reflexivity. Qed.

Lemma partToU32_num n : partToU32 (PNum n) = toUint32 n.
Proof. reflexivity. Qed.

Lemma seedFromParts_fold parts :
  seedFromParts parts
  = fold_left (fun s p => mixSeed s (partToU32 p)) parts (toUint32 0xA5A5A5A5).
Proof.
  unfold seedFromParts. apply toUint32_small, fold_range, toUint32_range.
Qed.

Lemma seedFromParts_range parts : 0 <= seedFromParts parts < two32.
Proof. unfold seedFromParts. apply toUint32_range. Qed.

(** Two part lists that differ in one number part, by values distinct
    modulo [2^32], give distinct seeds. *)
Lemma seedFromParts_distinct pre post a b :
  toUint32 a <> toUint32 b ->
  seedFromParts (pre ++ PNum a :: post) <> seedFromParts (pre ++ PNum b :: post).
Proof.
  intros Hab. rewrite !seedFromParts_fold.
  rewrite !fold_left_app, !fold_left_cons.
  apply fold_distinct; [apply mixSeed_range .. |].
  intros H. apply mixSeed_inj_value in H.
  rewrite !partToU32_num, !toUint32_idem in H. contradiction.
Qed.

End SeedUtilFacts.

(** ** Loot drops: the serial counter separates item seeds *)

Module BulletsFacts.

Import Js SeedUtil Bullets.

(** C7. The item seed of a drop is the fold of (run seed, "ITEM", serial
    counter, [x|0], [y|0], depth) through [seedFromParts]; two drops with
    the same run seed, kill position and depth whose serial counters are
    distinct modulo 2^32 never get the same item seed. *)
Theorem itemSeed_serial_unique (run1 run2 : Run) worldSeed killData depth :
  run_seed run1 = run_seed run2 ->
  toUint32 (lootSerial run1) <> toUint32 (lootSerial run2) ->
  fst (itemSeed run1 worldSeed killData depth)
  <> fst (itemSeed run2 worldSeed killData depth)
  /\ fst (itemSeed run1 worldSeed killData depth)
     = seedFromParts
         [PNum (match run_seed run1 with
                | Some s => if s =? 0 then default 0 worldSeed else s
                | None => default 0 worldSeed
                end);
          PStr "ITEM"; PNum (lootSerial run1);
          PNum (or0 (kill_x killData)); PNum (or0 (kill_y killData));
          PNum depth].
Proof.
  intros Hseed Hserial. unfold itemSeed. cbn [fst]. rewrite <- Hseed.
  rewrite 2!(JsFacts.toUint32_small (seedFromParts _))
    by apply SeedUtilFacts.seedFromParts_range.
  split; [| reflexivity].
  apply (SeedUtilFacts.seedFromParts_distinct [_; _] [_; _; _]). assumption.
Qed.

Lemma itemSeed_serial_unique_witness :
  let run1 := {| run_seed := Some 42; lootSerial := 0 |} in
  let run2 := {| run_seed := Some 42; lootSerial := 1 |} in
  let kill := {| kill_x := 10.5; kill_y := 20 |} in
  fst (itemSeed run1 None kill 1) <> fst (itemSeed run2 None kill 1)
  /\ fst (itemSeed run1 None kill 1) = 4278121778.
Proof.
  intros run1 run2 kill.
  destruct (itemSeed_serial_unique run1 run2 None kill 1) as [Hne Heq].
  - reflexivity.
  - vm_compute. discriminate.
  - split; [exact Hne |]. rewrite Heq. vm_compute. reflexivity.
Defined.

End BulletsFacts.

(** ** Zone generation: placement and counts *)

Module MapGeneratorFacts.

Import MapGenerator.

(** Unfold the sequencing of stream draws and name each draw. *)
Ltac draws :=
  unfold SeededRandom.bind, SeededRandom.ret;
  repeat match goal with
         | |- context [let (_, _) := ?e in _] =>
           let v := fresh "v" in
           let r := fresh "r" in
           destruct e as [v r] eqn:?
         end.

Lemma existsb_false_Forall {A} (f : A -> bool) l :
  existsb f l = false -> Forall (fun a => f a = false) l.
Proof.
  induction l as [| a l IH]; cbn [existsb]; intros H; constructor.
  - now apply orb_false_iff in H.
  - apply IH. now apply orb_false_iff in H.
Qed.

Lemma ForallOrdPairs_snoc {A} (R : A -> A -> Prop) l b :
  ForallOrdPairs R l -> Forall (fun a => R a b) l -> ForallOrdPairs R (l ++ [b]).
Proof.
  induction 1 as [| a l Ha Hl IH]; intros Hb; cbn [app].
  - constructor; constructor.
  - inversion Hb; subst. constructor.
    + apply Forall_app. split; [assumption | now constructor].
    + now apply IH.
Qed.

Lemma placeEnemies_spec pool count w h spawn exit layout fuel :
  forall i spawns rng,
    0 <= i ->
    count * 3 <= i + Z.of_nat fuel ->
    placement_ok spawn exit layout spawns ->
    let run := fst (placeEnemies pool count w h spawn exit layout fuel i spawns rng) in
    out_of_fuel run = false
    /\ i <= attempts run <= Z.max i (count * 3)
    /\ Z.of_nat (length (placed run)) <= Z.max (Z.of_nat (length spawns)) count
    /\ placement_ok spawn exit layout (placed run).
Proof.
  induction fuel as [| fuel IH]; intros i spawns rng Hi Hfuel Hok.
  - cbn [placeEnemies].
    destruct ((i <? count * 3) && (Z.of_nat (length spawns) <? count)) eqn:Hc.
    + apply andb_true_iff in Hc. destruct Hc as [Hc _].
      apply Z.ltb_lt in Hc. lia.
    + unfold SeededRandom.ret. cbn [fst placed attempts out_of_fuel].
      repeat split; try reflexivity; try assumption; try apply Hok; lia.
  - cbn [placeEnemies].
    destruct ((i <? count * 3) && (Z.of_nat (length spawns) <? count)) eqn:Hc.
    2: { unfold SeededRandom.ret. cbn [fst placed attempts out_of_fuel].
         repeat split; try reflexivity; try assumption; try apply Hok; lia. }
    apply andb_true_iff in Hc. destruct Hc as [Hc1 Hc2].
    apply Z.ltb_lt in Hc1. apply Z.ltb_lt in Hc2.
    assert (Hnext : forall spawns' rng',
               Z.of_nat (length spawns') <= count ->
               Z.of_nat (length spawns) <= Z.of_nat (length spawns') ->
               placement_ok spawn exit layout spawns' ->
               let run := fst (placeEnemies pool count w h spawn exit layout
                                 fuel (i + 1) spawns' rng') in
               out_of_fuel run = false
               /\ i <= attempts run <= Z.max i (count * 3)
               /\ Z.of_nat (length (placed run))
                  <= Z.max (Z.of_nat (length spawns)) count
               /\ placement_ok spawn exit layout (placed run)).
    { intros spawns' rng' Hlen Hge Hok'.
      destruct (IH (i + 1) spawns' rng') as (H1 & H2 & H3 & H4);
        [lia | lia | assumption |].
      cbv zeta. repeat split; try assumption; try apply H4; lia. }
    draws.
    destruct (Js.hypot_lt _ _ minDistFromSpawn) eqn:Hs;
      [apply Hnext; [lia | lia | assumption] |].
    destruct (Js.hypot_lt _ _ minDistFromExit) eqn:He;
      [apply Hnext; [lia | lia | assumption] |].
    destruct (existsb _ spawns) eqn:Hb;
      [apply Hnext; [lia | lia | assumption] |].
    draws.
    apply Hnext.
    + rewrite length_app. cbn [length]. lia.
    + rewrite length_app. lia.
    + destruct Hok as [Hfar Hpairs]. split.
      * apply Forall_app. split; [assumption |].
        constructor; [| constructor]. cbn [sx sy]. split; assumption.
      * apply ForallOrdPairs_snoc; [assumption |].
        apply existsb_false_Forall in Hb.
        eapply Forall_impl; [exact Hb |]. intros a Ha. exact Ha.
Qed.

Lemma minDistBetween_pos layout : (0 < minDistBetween layout)%Q.
Proof.
  unfold minDistBetween.
  repeat match goal with |- context [String.eqb ?a ?b] => destruct (String.eqb a b) end;
    reflexivity.
Qed.

(** For a positive bound, "not closer than [d]" is the inequality on the
    squared distance. *)
Lemma apart_squares d x y cx cy :
  (0 < d)%Q -> apart d x y cx cy ->
  (d * d <= (x - cx) * (x - cx) + (y - cy) * (y - cy))%Q.
Proof.
  unfold apart, Js.hypot_lt, Js.ltb. intros Hd H.
  apply andb_false_iff in H. destruct H as [H | H].
  - apply negb_false_iff, Qle_bool_iff in H. exfalso.
    apply (Qlt_irrefl d). eapply Qle_lt_trans; eassumption.
  - apply negb_false_iff, Qle_bool_iff in H. exact H.
Qed.

(** C5. The rejection sampling of [generateEnemySpawns] leaves its loop
    through the loop condition after at most [3 * target] candidates,
    [target = floor(w * h * density)]; it accepts at most [target]
    points; every accepted point is at least 300 from the zone spawn
    point, at least 200 from the exit point and at least the layout's
    minimum separation from every point accepted before it. *)
Theorem enemy_placement_bounded pool density w h spawn exit layout rng :
  let target := Js.floor (w * h * density) in
  let d := minDistBetween (str_or layout "OPEN") in
  let run := fst (enemyPlacement pool density w h spawn exit layout rng) in
  fst (generateEnemySpawns pool density w h spawn exit layout rng) = placed run
  /\ out_of_fuel run = false
  /\ 0 <= attempts run <= Z.max 0 (3 * target)
  /\ Z.of_nat (length (placed run)) <= Z.max 0 target
  /\ Forall
       (fun s =>
          (300 * 300 <= (sx s - px spawn) * (sx s - px spawn)
                        + (sy s - py spawn) * (sy s - py spawn))%Q
          /\ (200 * 200 <= (sx s - px exit) * (sx s - px exit)
                           + (sy s - py exit) * (sy s - py exit))%Q)
       (placed run)
  /\ ForallOrdPairs
       (fun a b =>
          (d * d <= (sx b - sx a) * (sx b - sx a)
                    + (sy b - sy a) * (sy b - sy a))%Q)
       (placed run).
Proof.
  cbv zeta.
  assert (Hok0 : placement_ok spawn exit (str_or layout "OPEN") []).
  { split; constructor. }
  destruct (placeEnemies_spec pool (Js.floor (w * h * density)) w h spawn exit
              (str_or layout "OPEN")
              (Z.to_nat (Js.floor (w * h * density) * 3)) 0 [] rng)
    as (H1 & H2 & H3 & [H4 H5]); [lia | lia | exact Hok0 |].
  cbn [length] in H3.
  unfold generateEnemySpawns, SeededRandom.bind, SeededRandom.ret.
  unfold enemyPlacement.
  destruct (placeEnemies pool (Js.floor (w * h * density)) w h spawn exit
              (str_or layout "OPEN")
              (Z.to_nat (Js.floor (w * h * density) * 3)) 0 [] rng)
    as [run rng'].
  cbn [fst] in *.
  split; [| split; [| split; [| split; [| split]]]].
  - reflexivity.
  - exact H1.
  - lia.
  - lia.
  - eapply Forall_impl; [exact H4 |]. intros s [Hs He]. split.
    + apply (apart_squares minDistFromSpawn); [reflexivity | exact Hs].
    + apply (apart_squares minDistFromExit); [reflexivity | exact He].
  - clear - H5. induction H5 as [| a l Ha Hl IH]; constructor; [| exact IH].
    eapply Forall_impl; [exact Ha |]. intros b Hb.
    apply apart_squares; [apply minDistBetween_pos | exact Hb].
Qed.

(** *** Counts of the simple generators *)

Lemma for_push_length {A} (body : Z -> SeededRandom.M A) n :
  forall i out rng,
    length (fst (for_push n i body out rng)) = (length out + n)%nat.
Proof.
  induction n as [| n IH]; intros i out rng; cbn [for_push].
  - unfold SeededRandom.ret. cbn [fst]. lia.
  - unfold SeededRandom.bind. destruct (body i rng) as [a rng'].
    rewrite IH, length_app. cbn [length]. lia.
Qed.

Lemma generateEliteSpawns_length pool density w h rng :
  length (fst (generateEliteSpawns pool density w h rng))
  = Z.to_nat (Z.max 1 (Js.floor (w * h * density))).
Proof. unfold generateEliteSpawns. now rewrite for_push_length. Qed.

Lemma generateEnemySpawns_length pool density w h spawn exit layout rng :
  Z.of_nat (length (fst (generateEnemySpawns pool density w h spawn exit layout rng)))
  <= Z.max 0 (Js.floor (w * h * density)).
Proof.
  assert (Hok0 : placement_ok spawn exit (str_or layout "OPEN") []).
  { split; constructor. }
  destruct (placeEnemies_spec pool (Js.floor (w * h * density)) w h spawn exit
              (str_or layout "OPEN")
              (Z.to_nat (Js.floor (w * h * density) * 3)) 0 [] rng)
    as (_ & _ & H3 & _); [lia | lia | exact Hok0 |].
  cbn [length] in H3.
  unfold generateEnemySpawns, SeededRandom.bind, SeededRandom.ret, enemyPlacement.
  destruct (placeEnemies pool (Js.floor (w * h * density)) w h spawn exit
              (str_or layout "OPEN")
              (Z.to_nat (Js.floor (w * h * density) * 3)) 0 [] rng)
    as [run rng'].
  cbn [fst] in *. lia.
Qed.

Lemma generateObstacles_length `{Js.Math} density w h depth mods layout rng :
  length (fst (generateObstacles density w h depth mods layout rng))
  = Z.to_nat (Js.floor (w * h * density)).
Proof. unfold generateObstacles. now rewrite for_push_length. Qed.

Lemma min_le_r a b : (Js.min a b <= b)%Q.
Proof.
  unfold Js.min. destruct (Qle_bool a b) eqn:Hab.
  - now apply Qle_bool_iff.
  - apply Qle_refl.
Qed.

(** The spawn and obstacle lists of a generated zone come from the three
    placement functions, run on the zone's final dimensions with
    densities that are at most the hard caps. *)
Lemma generate_lists `{Js.Math} actConfig zoneSeed options :
  let zone := generate actConfig zoneSeed options in
  exists enemyDensity eliteDensity obstacleDensity pool elitePool
         spawn exit layout depth mods rng1 rng2 rng3,
    (enemyDensity <= 0.0012)%Q
    /\ (eliteDensity <= 0.00025)%Q
    /\ (obstacleDensity <= 0.0008)%Q
    /\ enemySpawns zone
       = fst (generateEnemySpawns pool enemyDensity (width zone) (height zone)
                spawn exit layout rng1)
    /\ eliteSpawns zone
       = fst (generateEliteSpawns elitePool eliteDensity (width zone)
                (height zone) rng2)
    /\ obstacles zone
       = fst (generateObstacles obstacleDensity (width zone) (height zone)
                depth mods layout rng3).
Proof.
  unfold generate. draws. cbn [enemySpawns eliteSpawns obstacles width height].
  repeat match goal with
         | H : ?f _ = (?v, _) |- context [?v] =>
           match type of v with
           | list _ => rewrite (f_equal fst H : _ = v) || fail 1
           end
         end.
  do 13 eexists.
  split; [apply min_le_r |]. split; [apply min_le_r |]. split; [apply min_le_r |].
  repeat split;
    match goal with
    | H : ?e = (?v, _) |- ?v = fst _ =>
      transitivity (fst e); [now rewrite H | reflexivity]
    end.
Qed.

Lemma count_le_cap (area density cap : Q) :
  (0 <= area)%Q -> (0 <= cap)%Q -> (density <= cap)%Q ->
  (inject_Z (Z.max 0 (Js.floor (area * density))) <= area * cap)%Q.
Proof.
  intros Ha Hc Hd.
  assert (Hcap : (area * density <= area * cap)%Q).
  { rewrite !(Qmult_comm area). now apply Qmult_le_compat_r. }
  destruct (Z.max_spec 0 (Js.floor (area * density))) as [[_ ->] | [_ ->]].
  - eapply Qle_trans; [apply Qfloor_le | exact Hcap].
  - now apply Qmult_le_0_compat.
Qed.

(** C2 (amended). In a generated zone of non-negative area the enemy
    count is at most [width * height * 0.0012] and the obstacle count at
    most [width * height * 0.0008]; the elite count is
    [max(1, floor(width * height * eliteDensity))] for an elite density of
    at most [0.00025], hence at most [max(1, width * height * 0.00025)]. *)
Theorem density_caps `{Js.Math} actConfig zoneSeed options :
  let zone := generate actConfig zoneSeed options in
  let area := (width zone * height zone)%Q in
  (0 <= area)%Q ->
  (inject_Z (Z.of_nat (length (enemySpawns zone))) <= area * 0.0012)%Q
  /\ (inject_Z (Z.of_nat (length (obstacles zone))) <= area * 0.0008)%Q
  /\ (inject_Z (Z.of_nat (length (eliteSpawns zone)))
      <= Js.max 1 (area * 0.00025))%Q.
Proof.
  cbv zeta.
  destruct (generate_lists actConfig zoneSeed options)
    as (ed & eld & od & pool & epool & sp & ex & lay & dep & mods
        & r1 & r2 & r3 & Hed & Held & Hod & He & Hel & Ho).
  rewrite He, Hel, Ho.
  generalize (width (generate actConfig zoneSeed options))
             (height (generate actConfig zoneSeed options)).
  intros zw zh Harea. split; [| split].
  - eapply Qle_trans; [| apply (count_le_cap (zw * zh) ed); [assumption | discriminate | assumption]].
    rewrite <- Zle_Qle. apply generateEnemySpawns_length.
  - rewrite generateObstacles_length.
    eapply Qle_trans; [| apply (count_le_cap (zw * zh) od); [assumption | discriminate | assumption]].
    rewrite <- Zle_Qle. lia.
  - rewrite generateEliteSpawns_length.
    assert (Hc : (inject_Z (Z.max 0 (Js.floor (zw * zh * eld))) <= zw * zh * 0.00025)%Q)
      by (apply count_le_cap; [assumption | discriminate | assumption]).
    unfold Js.max. destruct (Qle_bool 1 (zw * zh * 0.00025)) eqn:Hone.
    + apply Qle_bool_iff in Hone.
      destruct (Z.max_spec 1 (Js.floor (zw * zh * eld))) as [[_ Hm] | [_ Hm]];
        rewrite Hm.
      * eapply Qle_trans; [| exact Hc]. rewrite <- Zle_Qle. lia.
      * exact Hone.
    + assert (Hlt : (zw * zh * 0.00025 < 1)%Q).
      { apply Qnot_le_lt. intros Hle. apply Qle_bool_iff in Hle. congruence. }
      assert (Hfl : Js.floor (zw * zh * eld) < 1).
      { rewrite Zlt_Qlt. eapply Qle_lt_trans; [apply Qfloor_le |].
        eapply Qle_lt_trans; [| exact Hlt].
        rewrite !(Qmult_comm (zw * zh)). now apply Qmult_le_compat_r. }
      rewrite Z.max_l by lia. apply Qle_refl.
Qed.



End MapGeneratorFacts.

(** ** The spatial index *)

Module SpawnGridFacts.

Import SpawnGrid.

Section Grid.
Context {A : Type} (spawn_x spawn_y : A -> Q).

Local Abbreviation indexed := (SpawnGrid.indexed spawn_x spawn_y).

Lemma insert_cellSize s g : cellSize (insert spawn_x spawn_y s g) = cellSize g.
Proof. unfold insert. destruct (_cellCoord g _ _). reflexivity. Qed.

Lemma insert_indexed s g : indexed (insert spawn_x spawn_y s g) s.
Proof.
  unfold indexed, _cellCoord. rewrite insert_cellSize.
  unfold insert, _cellCoord. cbn [cells].
  rewrite lookup_insert_eq. cbn [default]. apply in_or_app. right. now left.
Qed.

Lemma insert_keeps s s' g : indexed g s' -> indexed (insert spawn_x spawn_y s g) s'.
Proof.
  unfold indexed, _cellCoord. rewrite insert_cellSize.
  unfold insert, _cellCoord. cbn [cells]. intros H.
  match goal with
  | |- In _ (default [] (<[?k := _]> _ !! ?k')) =>
    destruct (decide (k = k')) as [-> | Hne]
  end.
  - rewrite lookup_insert_eq. cbn [default]. apply in_or_app. now left.
  - now rewrite lookup_insert_ne.
Qed.

Lemma inserts_indexed (extra : list A) g s :
  indexed g s \/ In s extra ->
  indexed (fold_left (fun g s => insert spawn_x spawn_y s g) extra g) s.
Proof.
  revert g. induction extra as [| e extra IH]; intros g H; cbn [fold_left].
  - destruct H as [H | []]. exact H.
  - apply IH. destruct H as [H | [-> | H]].
    + left. now apply insert_keeps.
    + left. apply insert_indexed.
    + now right.
Qed.

Lemma build_steps_indexed (spawns : list (option A)) g s :
  indexed g s \/ In (Some s) spawns ->
  indexed
    (fold_left (fun g o => match o with
                           | Some s => insert spawn_x spawn_y s g
                           | None => g
                           end) spawns g) s.
Proof.
  revert g. induction spawns as [| o spawns IH]; intros g H; cbn [fold_left].
  - destruct H as [H | []]. exact H.
  - apply IH. destruct H as [H | [-> | H]].
    + left. destruct o; [now apply insert_keeps | exact H].
    + left. apply insert_indexed.
    + now right.
Qed.

Lemma build_indexed spawns g s :
  In (Some s) spawns -> indexed (build spawn_x spawn_y spawns g) s.
Proof. intros H. unfold build. apply build_steps_indexed. now right. Qed.

Lemma fold_insert_cellSize (extra : list A) g :
  cellSize (fold_left (fun g s => insert spawn_x spawn_y s g) extra g) = cellSize g.
Proof.
  revert g. induction extra as [| e extra IH]; intros g; cbn [fold_left];
    [reflexivity |]. now rewrite IH, insert_cellSize.
Qed.

Lemma build_cellSize spawns g :
  cellSize (build spawn_x spawn_y spawns g) = cellSize g.
Proof.
  unfold build. change (cellSize g) with (cellSize (clear g)).
  generalize (clear g). induction spawns as [| o spawns IH]; intros g';
    cbn [fold_left]; [reflexivity |].
  rewrite IH. destruct o; [apply insert_cellSize | reflexivity].
Qed.

Lemma new_cellSize c : 64 <= cellSize (new (A := A) c).
Proof. unfold new. cbn [cellSize]. lia. Qed.

Lemma in_cellRange lo hi c : lo <= c <= hi -> In c (cellRange lo hi).
Proof.
  intros H. unfold cellRange. apply in_map_iff.
  exists (Z.to_nat (c - lo)). split; [lia |]. apply in_seq. lia.
Qed.

Lemma floor_div_mono (c : Z) (a b : Q) :
  0 < c -> (a <= b)%Q ->
  Js.floor (a / inject_Z c) <= Js.floor (b / inject_Z c).
Proof.
  intros Hc Hab. apply Qfloor_resp_le. unfold Qdiv.
  apply Qmult_le_compat_r; [exact Hab |].
  apply Qinv_le_0_compat. change 0%Q with (inject_Z 0).
  rewrite <- Zle_Qle. lia.
Qed.

(** A stored spawn inside the bounding box of a query is returned. *)
Lemma query_box g s x y r :
  0 < cellSize g -> indexed g s ->
  (x - r <= spawn_x s <= x + r)%Q -> (y - r <= spawn_y s <= y + r)%Q ->
  In s (query g x y r).
Proof.
  intros Hc Hs [Hx0 Hx1] [Hy0 Hy1]. unfold query, indexed, _cellCoord in *.
  cbn [fst snd]. apply in_flat_map.
  exists (Js.floor (spawn_x s / inject_Z (cellSize g))). split.
  - apply in_cellRange. split; now apply floor_div_mono.
  - apply in_flat_map.
    exists (Js.floor (spawn_y s / inject_Z (cellSize g))). split.
    + apply in_cellRange. split; now apply floor_div_mono.
    + exact Hs.
Qed.

(** Within distance [r] means within the bounding box. *)
Lemma disc_in_box (dx dy r : Q) :
  (0 <= r)%Q -> (dx * dx + dy * dy <= r * r)%Q -> (- r <= dx <= r)%Q.
Proof. intros Hr H. split; nra. Qed.

(** C6. Every spawn inserted into a grid, by [build] or by a later
    [insert], whose distance to [(x, y)] is at most [r] is among the
    results of [query(x, y, r)]: the query returns a superset of the
    spawns within the circle. *)
Theorem query_sound cellSize0 (spawns : list (option A)) (extra : list A)
    (s : A) (x y r : Q) :
  let g := fold_left (fun g s => insert spawn_x spawn_y s g) extra
             (build spawn_x spawn_y spawns (new cellSize0)) in
  In (Some s) spawns \/ In s extra ->
  (0 <= r)%Q ->
  ((spawn_x s - x) * (spawn_x s - x) + (spawn_y s - y) * (spawn_y s - y)
   <= r * r)%Q ->
  In s (query g x y r).
Proof.
  intros g Hin Hr Hd.
  apply query_box.
  - unfold g. rewrite fold_insert_cellSize, build_cellSize.
    pose proof (new_cellSize cellSize0). lia.
  - unfold g. apply inserts_indexed. destruct Hin as [H | H].
    + left. now apply build_indexed.
    + now right.
  - pose proof (disc_in_box _ _ _ Hr Hd) as [H1 H2]. split; lra.
  - rewrite Qplus_comm in Hd.
    pose proof (disc_in_box _ _ _ Hr Hd) as [H1 H2]. split; lra.
Qed.

End Grid.

End SpawnGridFacts.

(** ** Milestone unlocks *)

Module DepthRulesFacts.

Import MapGenerator Meta DepthRules.

Lemma weightedPick_nonempty l s :
  l <> [] -> is_Some (fst (weightedPick l s)).
Proof.
  intros Hne. unfold weightedPick. destruct (draw s) as [v s']. cbn [fst].
  destruct (scan _ l); [eauto |].
  destruct l as [| a l]; [contradiction |].
  clear. revert a. induction l as [| b l IH]; intros a; [cbn; eauto |].
  apply (IH b).
Qed.

Lemma weightedPick_member l s it :
  fst (weightedPick l s) = Some it -> In it l.
Proof.
  unfold weightedPick. destruct (draw s) as [v s']. cbn [fst].
  match goal with |- context [scan ?r l] => generalize r end. intros r.
  destruct (scan r l) eqn:Hscan.
  - intros [= <-]. revert r Hscan.
    induction l as [| a l IH]; intros r; cbn [scan]; [discriminate |].
    destruct (Js.leb _ 0).
    + intros [= ->]. now left.
    + intros H. right. eapply IH, H.
  - clear. induction l as [| a l IH]; [discriminate |].
    destruct l as [| b l]; cbn [last] in *.
    + intros [= ->]. now left.
    + intros H. right. now apply IH.
Qed.

(** On a profile whose depth record exists, [ensureMeta] changes nothing. *)
Lemma ensureMeta_some meta d :
  Meta.depth meta = Some d -> ensureMeta meta = (d, meta).
Proof. destruct meta. cbn. now intros ->. Qed.

Lemma maybeUnlock_ensured depth actConfig s meta :
  maybeUnlock depth actConfig s meta
  = maybeUnlock depth actConfig s (snd (ensureMeta meta)).
Proof. reflexivity. Qed.

(** A check at [depth] on a record whose last unlock already covers the
    milestone of [depth] returns [null] and changes nothing. *)
Lemma maybeUnlock_covered depth actConfig s meta d :
  Meta.depth meta = Some d ->
  depth < UNLOCK_EVERY_DEPTH
  \/ depth / UNLOCK_EVERY_DEPTH * UNLOCK_EVERY_DEPTH <= lastUnlockAt d ->
  maybeUnlock depth actConfig s meta = (None, meta, s).
Proof.
  intros Hd Hcov. unfold maybeUnlock. rewrite (ensureMeta_some _ _ Hd).
  destruct (Z.ltb_spec depth UNLOCK_EVERY_DEPTH); [reflexivity |].
  destruct (Z.leb_spec (depth / UNLOCK_EVERY_DEPTH * UNLOCK_EVERY_DEPTH)
              (lastUnlockAt d)); [reflexivity | lia].
Qed.

(** What a check does to a profile whose depth record exists: nothing
    when the milestone is covered, else it records the milestone and
    appends the id it returns. *)
Lemma maybeUnlock_step depth actConfig s meta d :
  Meta.depth meta = Some d ->
  let '(r, meta', _) := maybeUnlock depth actConfig s meta in
  ((depth < UNLOCK_EVERY_DEPTH
    \/ depth / UNLOCK_EVERY_DEPTH * UNLOCK_EVERY_DEPTH <= lastUnlockAt d)
   /\ r = None /\ meta' = meta)
  \/ (exists d',
        Meta.depth meta' = Some d'
        /\ lastUnlockAt d' = depth / UNLOCK_EVERY_DEPTH * UNLOCK_EVERY_DEPTH
        /\ unlocked d' = unlocked d ++ from_option (fun id => [id]) [] r).
Proof.
  intros Hd. unfold maybeUnlock. rewrite (ensureMeta_some _ _ Hd).
  destruct (Z.ltb_spec depth UNLOCK_EVERY_DEPTH); [left; tauto |].
  destruct (Z.leb_spec (depth / UNLOCK_EVERY_DEPTH * UNLOCK_EVERY_DEPTH)
              (lastUnlockAt d)); [left; tauto |].
  destruct (filter _ (poolOf actConfig)) as [| c cs] eqn:Hf.
  - right. eexists. cbn [set_depth Meta.depth lastUnlockAt unlocked from_option].
    rewrite app_nil_r. repeat split.
  - pose proof (weightedPick_nonempty (c :: cs) s ltac:(discriminate)) as Hs.
    destruct (weightedPick (c :: cs) s) as [[picked |] s'] eqn:Hp.
    + right. eexists. cbn [set_depth Meta.depth lastUnlockAt unlocked from_option].
      repeat split.
    + destruct Hs as [? Hs]. discriminate.
Qed.

(** C8. Two successive milestone checks at the same depth: the second one
    returns [null] and changes nothing, whatever streams it is given, so
    the two calls together append at most one id to the unlocked set (the
    id the first call returned, if any). *)
Theorem maybeUnlock_twice depth actConfig s1 s2 meta :
  let '(r1, meta1, _) := maybeUnlock depth actConfig s1 meta in
  let '(r2, meta2, _) := maybeUnlock depth actConfig s2 meta1 in
  r2 = None
  /\ meta2 = meta1
  /\ (length (unlockedOf meta2) <= length (unlockedOf meta) + 1)%nat
  /\ unlockedOf meta2 = unlockedOf meta ++ from_option (fun id => [id]) [] r1.
Proof.
  rewrite maybeUnlock_ensured.
  destruct (ensureMeta meta) as [d m0] eqn:He. cbn [snd].
  assert (Hd : Meta.depth m0 = Some d).
  { unfold ensureMeta in He. injection He as <- <-. reflexivity. }
  assert (Hu : unlockedOf meta = unlocked d).
  { unfold ensureMeta in He. injection He as <- _. unfold unlockedOf.
    now destruct (Meta.depth meta). }
  pose proof (maybeUnlock_step depth actConfig s1 m0 d Hd) as Hstep.
  destruct (maybeUnlock depth actConfig s1 m0) as [[r1 meta1] s1'].
  assert (Hlen : forall (l : list string) r,
             (length (l ++ from_option (fun id => [id]) [] r) <= length l + 1)%nat).
  { intros l [id |]; rewrite length_app; cbn; lia. }
  destruct Hstep as [(Hcov & -> & ->) | (d' & Hd' & Hlast & Hunl)].
  - rewrite (maybeUnlock_covered depth actConfig s2 m0 d Hd Hcov).
    assert (Hm : unlockedOf m0 = unlockedOf meta)
      by (unfold unlockedOf at 1; now rewrite Hd, Hu).
    rewrite Hm. cbn [from_option]. rewrite app_nil_r.
    repeat split; lia.
  - rewrite (maybeUnlock_covered depth actConfig s2 meta1 d' Hd')
      by (right; lia).
    assert (Hm : unlockedOf meta1 = unlockedOf meta ++ from_option (fun id => [id]) [] r1)
      by (unfold unlockedOf at 1; now rewrite Hd', Hunl, Hu).
    rewrite Hm. repeat split. apply Hlen.
Qed.

End DepthRulesFacts.

(** ** The zone orchestrator *)

Module WorldFacts.

Import MapGenerator World.

Section WithEnv.
Context {math : Js.Math} {factory : Enemies}.

(** When the property read finds nothing under the requested id (no
    own entry, and the id is not a name every object inherits), [init]
    returns [false]; the world after the call is the world before it
    except for the error line on the console. *)
Lemma init_missing_act actId seed w :
  lookupAct (state w) actId = NoAct ->
  exists w',
    init actId seed w = Some (false, w')
    /\ currentAct w' = currentAct w
    /\ currentZone w' = currentZone w
    /\ zoneIndex w' = zoneIndex w
    /\ activeEnemies w' = activeEnemies w
    /\ enemyGrid w' = enemyGrid w
    /\ eliteGrid w' = eliteGrid w
    /\ rngEncounters w' = rngEncounters w
    /\ player (state w') = player (state w)
    /\ meta (state w') = meta (state w)
    /\ data_acts (state w') = data_acts (state w)
    /\ enemies (state w') = enemies (state w)
    /\ objects (state w') = objects (state w)
    /\ camera (state w') = camera (state w)
    /\ random (state w') = random (state w)
    /\ console (state w')
       = console (state w) ++ ["Act " +:+ actId +:+ " not found!"].
Proof.
  intros Habsent. unfold init. rewrite Habsent.
  eexists. split; [reflexivity |]. repeat split.
Qed.

Lemma isBossZone_generate actConfig zoneSeed options :
  isBossZone (generate actConfig zoneSeed options) = false
  /\ bossSpawn (generate actConfig zoneSeed options) = None.
Proof.
  unfold generate.
  repeat match goal with
         | |- context [let (_, _) := ?e in _] => destruct e
         end.
  split; reflexivity.
Qed.

Lemma isBossZone_generateBossZone actConfig zoneSeed options :
  let zone := generateBossZone actConfig zoneSeed options in
  isBossZone zone = true
  /\ is_Some (bossSpawn zone)
  /\ enemySpawns zone = []
  /\ eliteSpawns zone = []
  /\ exit zone = None.
Proof.
  unfold generateBossZone.
  repeat match goal with
         | |- context [let (_, _) := ?e in _] => destruct e
         end.
  cbn. repeat split. eauto.
Qed.

(** [loadZone] succeeds when an act is set; the zone it installs is
    the generated boss zone or the generated ordinary zone, according
    to [depth % bossInterval], with the depth attached. *)
Lemma loadZone_zone index w act :
  currentAct w = Some act ->
  exists w' zone zoneSeed options,
    let zone0 :=
      if Qeq_bool (Js.rem (inject_Z (index + 1)) (bossInterval act)) 0
      then generateBossZone act zoneSeed options
      else generate act zoneSeed options in
    loadZone index w = Some w'
    /\ currentZone w' = Some zone
    /\ zoneIndex w' = index
    /\ activeEnemies w' = []
    /\ depth zone = Some (index + 1)
    /\ isBossZone zone = isBossZone zone0
    /\ bossSpawn zone = bossSpawn zone0
    /\ enemySpawns zone = enemySpawns zone0
    /\ eliteSpawns zone = eliteSpawns zone0
    /\ exit zone = exit zone0
    /\ spawn zone = spawn zone0
    /\ player_x (player (state w')) = px (spawn zone)
    /\ player_y (player (state w')) = py (spawn zone).
Proof.
  intros Hact. unfold loadZone. rewrite Hact. cbn [mbind option_bind].
  repeat match goal with
         | |- context [let (_, _) := ?e in _] => destruct e
         end.
  do 4 eexists. cbv zeta. split; [reflexivity |].
  cbn [currentZone zoneIndex activeEnemies state player player_x player_y
       set_console set_camera set_player].
  split; [reflexivity |]. repeat split.
Qed.

Lemma trunc_comp q q' : (q == q')%Q -> Js.trunc q = Js.trunc q'.
Proof.
  intros H. unfold Js.trunc.
  rewrite (Qleb_comp 0%Q 0%Q (Qeq_refl 0%Q) q q' H).
  now rewrite (Qfloor_comp q q' H), (Qceiling_comp q q' H).
Qed.

Lemma rem_comp a b b' : (b == b')%Q -> (Js.rem a b == Js.rem a b')%Q.
Proof.
  intros H. unfold Js.rem.
  rewrite (trunc_comp (a / b) (a / b')) by now rewrite H.
  now rewrite H.
Qed.

(** C4. The zone installed by [loadZone(index)] is a boss zone exactly
    when [depth % bossInterval == 0] for [depth = index + 1], where
    [bossInterval] is the act's [zones] when that is a positive number
    and 4 otherwise.  A boss zone has a boss spawn and no enemy or
    elite spawns; an ordinary zone has no boss spawn.  With interval 4,
    depth 1 (index 0) gives an ordinary zone and depth 4 (index 3) a
    boss zone. *)
Theorem loadZone_boss_zone index w act :
  currentAct w = Some act ->
  exists w' zone,
    loadZone index w = Some w'
    /\ currentZone w' = Some zone
    /\ depth zone = Some (index + 1)
    /\ bossInterval act
       = match act_zones act with
         | Some zones => if Js.ltb 0 zones then zones else 4%Q
         | None => 4%Q
         end
    /\ (isBossZone zone = true
        <-> (Js.rem (inject_Z (index + 1)) (bossInterval act) == 0)%Q)
    /\ (isBossZone zone = true ->
        is_Some (bossSpawn zone) /\ enemySpawns zone = []
        /\ eliteSpawns zone = [])
    /\ (isBossZone zone = false -> bossSpawn zone = None)
    /\ ((bossInterval act == 4)%Q ->
        (index = 0 -> isBossZone zone = false)
        /\ (index = 3 ->
            isBossZone zone = true /\ is_Some (bossSpawn zone)
            /\ enemySpawns zone = [] /\ eliteSpawns zone = [])).
Proof.
  intros Hact.
  destruct (loadZone_zone index w act Hact)
    as (w' & zone & zoneSeed & options & Hload & Hzone & _ & _ & Hdepth
        & Hboss & Hbs & Hes & Hel & _).
  destruct (isBossZone_generate act zoneSeed options) as [Hg1 Hg2].
  destruct (isBossZone_generateBossZone act zoneSeed options)
    as (Hb1 & Hb2 & Hb3 & Hb4 & _).
  assert (Hiff : isBossZone zone = true
                 <-> (Js.rem (inject_Z (index + 1)) (bossInterval act) == 0)%Q).
  { rewrite Hboss, <- Qeq_bool_iff.
    destruct (Qeq_bool _ 0); [rewrite Hb1 | rewrite Hg1];
      split; (reflexivity || discriminate || assumption). }
  assert (Hshape : isBossZone zone = true ->
                   is_Some (bossSpawn zone) /\ enemySpawns zone = []
                   /\ eliteSpawns zone = []).
  { rewrite Hboss, Hbs, Hes, Hel.
    destruct (Qeq_bool _ 0); [tauto | rewrite Hg1; discriminate]. }
  exists w', zone.
  split; [exact Hload |]. split; [exact Hzone |]. split; [exact Hdepth |].
  split; [reflexivity |]. split; [exact Hiff |]. split; [exact Hshape |].
  split.
  - rewrite Hboss, Hbs.
    destruct (Qeq_bool _ 0); [rewrite Hb1; discriminate | now rewrite Hg2].
  - intros Hfour. split; intros ->.
    + destruct (isBossZone zone) eqn:Hz; [| reflexivity].
      destruct Hiff as [Hiff _]. specialize (Hiff eq_refl).
      rewrite (rem_comp _ _ 4 Hfour) in Hiff. discriminate Hiff.
    + assert (Hz : isBossZone zone = true).
      { apply Hiff. rewrite (rem_comp _ _ 4 Hfour). reflexivity. }
      split; [exact Hz | apply Hshape, Hz].
Qed.

End WithEnv.

End WorldFacts.

Module BossFacts.

Import MapGenerator World.

Section WithEnv.
Context {math : Js.Math} {factory : Enemies}.

(** *** The despawn pass *)

Lemma despawnEnemy_frame ref w :
  objects (state (despawnEnemy ref w)) = objects (state w)
  /\ player (state (despawnEnemy ref w)) = player (state w)
  /\ despawnRadius (despawnEnemy ref w) = despawnRadius w.
Proof.
  unfold despawnEnemy. destruct (currentZone w) as [zone |]; [| tauto].
  destruct (getSpawn zone ref); [| tauto]. repeat split.
Qed.

Lemma despawnEnemy_boss ref w :
  bossActive (despawnEnemy ref w)
  = match ref with
    | RefBoss => (fun _ => false) <$> bossActive w
    | _ => bossActive w
    end.
Proof.
  unfold despawnEnemy.
  destruct (currentZone w) as [zone |] eqn:Hz.
  2: { unfold bossActive. rewrite Hz. destruct ref; reflexivity. }
  destruct (getSpawn zone ref) as [spawn |] eqn:Hs.
  - unfold bossActive. rewrite Hz.
    destruct ref; cbn [currentZone set_activeEnemies set_currentZone mbind
      option_bind updSpawn bossSpawn set_enemySpawns set_eliteSpawns
      set_bossSpawn]; try reflexivity.
    cbn [getSpawn] in Hs. rewrite Hs. reflexivity.
  - unfold bossActive. rewrite Hz. cbn [mbind option_bind].
    destruct ref; try reflexivity.
    cbn [getSpawn] in Hs. rewrite Hs. reflexivity.
Qed.

Lemma considerDespawn_frame w addr :
  objects (state (considerDespawn w addr)) = objects (state w)
  /\ player (state (considerDespawn w addr)) = player (state w)
  /\ despawnRadius (considerDespawn w addr) = despawnRadius w.
Proof.
  unfold considerDespawn.
  destruct (currentZone w) as [zone |]; [| tauto].
  destruct (objects (state w) !! addr) as [enemy |]; [| tauto].
  destruct (dead enemy); [tauto |].
  destruct (spawnRef enemy) as [ref |]; [| tauto].
  destruct (getSpawn zone ref) as [spawn |]; [| tauto].
  destruct (_ && _); [apply despawnEnemy_frame | tauto].
Qed.

(** The pass only ever clears the boss flag. *)
Lemma considerDespawn_boss_inactive w addr :
  bossActive w = Some false -> bossActive (considerDespawn w addr) = Some false.
Proof.
  intros Hb. unfold considerDespawn.
  destruct (currentZone w) as [zone |]; [| exact Hb].
  destruct (objects (state w) !! addr) as [enemy |]; [| exact Hb].
  destruct (dead enemy); [exact Hb |].
  destruct (spawnRef enemy) as [ref |]; [| exact Hb].
  destruct (getSpawn zone ref) as [spawn |]; [| exact Hb].
  destruct (_ && _); [| exact Hb].
  rewrite despawnEnemy_boss. destruct ref; now rewrite Hb.
Qed.

Lemma considerDespawn_boss_some w addr :
  is_Some (bossActive w) -> is_Some (bossActive (considerDespawn w addr)).
Proof.
  intros Hb. unfold considerDespawn.
  destruct (currentZone w) as [zone |]; [| exact Hb].
  destruct (objects (state w) !! addr) as [enemy |]; [| exact Hb].
  destruct (dead enemy); [exact Hb |].
  destruct (spawnRef enemy) as [ref |]; [| exact Hb].
  destruct (getSpawn zone ref) as [spawn |]; [| exact Hb].
  destruct (_ && _); [| exact Hb].
  rewrite despawnEnemy_boss. destruct ref; try exact Hb.
  destruct Hb as [b ->]. cbn. eauto.
Qed.

(** On the boss entity, alive and farther than [despawnRadius] from
    the player, the loop body leaves the boss descriptor inactive. *)
Lemma considerDespawn_boss_far w addr enemy :
  is_Some (bossActive w) ->
  objects (state w) !! addr = Some enemy ->
  dead enemy = false ->
  spawnRef enemy = Some RefBoss ->
  Js.hypot_gt (player_x (player (state w)) - x enemy)
              (player_y (player (state w)) - y enemy)
              (despawnRadius w) = true ->
  bossActive (considerDespawn w addr) = Some false.
Proof.
  intros [b Hb] Hobj Hdead Href Hfar. unfold considerDespawn.
  unfold bossActive in Hb.
  destruct (currentZone w) as [zone |] eqn:Hz; [| discriminate].
  cbn [mbind option_bind] in Hb.
  destruct (bossSpawn zone) as [spawn |] eqn:Hs; [| discriminate].
  cbn [mbind option_bind] in Hb. injection Hb as Hb.
  rewrite Hobj, Hdead, Href. cbn [getSpawn]. rewrite Hs, Hfar, Hb.
  destruct b; cbn [andb].
  - rewrite despawnEnemy_boss. unfold bossActive. rewrite Hz.
    cbn [mbind option_bind]. rewrite Hs. reflexivity.
  - unfold bossActive. rewrite Hz. cbn [mbind option_bind]. rewrite Hs.
    cbn [mbind option_bind]. now rewrite Hb.
Qed.

Lemma despawn_loop_boss (l : list nat) : forall w addr enemy,
  is_Some (bossActive w) ->
  (bossActive w = Some false \/ In addr l) ->
  objects (state w) !! addr = Some enemy ->
  dead enemy = false ->
  spawnRef enemy = Some RefBoss ->
  Js.hypot_gt (player_x (player (state w)) - x enemy)
              (player_y (player (state w)) - y enemy)
              (despawnRadius w) = true ->
  bossActive (fold_left considerDespawn l w) = Some false.
Proof.
  induction l as [| a l IH]; intros w addr enemy Hsome Hin Hobj Hdead Href Hfar;
    cbn [fold_left].
  - destruct Hin as [H | []]. exact H.
  - destruct (considerDespawn_frame w a) as (Ho & Hp & Hr).
    apply (IH _ addr enemy).
    + now apply considerDespawn_boss_some.
    + destruct Hin as [H | [-> | H]].
      * left. now apply considerDespawn_boss_inactive.
      * left. now apply (considerDespawn_boss_far w addr enemy).
      * now right.
    + now rewrite Ho.
    + exact Hdead.
    + exact Href.
    + now rewrite Hp, Hr.
Qed.

(** *** The boss check *)

Lemma checkBossSpawn_materializes w zone boss :
  currentZone w = Some zone ->
  bossSpawn zone = Some boss ->
  killed boss = false ->
  active boss = false ->
  Js.hypot_lt (player_x (player (state w)) - sx boss)
              (player_y (player (state w)) - sy boss)
              (spawnRadius w * 1.5) = true ->
  bossActive (checkBossSpawn w) = Some true
  /\ activeEnemies (checkBossSpawn w) = activeEnemies w ++ [nextId (state w)]
  /\ (spawnRef <$> objects (state (checkBossSpawn w)) !! nextId (state w))
     = Some (Some RefBoss).
Proof.
  intros Hz Hb Hk Ha Hnear.
  unfold checkBossSpawn. rewrite Hz, Hb, Hk, Ha, Hnear. cbn [negb andb].
  unfold spawnBoss. rewrite Hz, Hb. unfold Enemies_spawn, bossActive.
  cbn [currentZone set_activeEnemies set_currentZone set_state state
       activeEnemies objects set_announcements set_objects set_nextId
       set_enemies mbind option_bind updSpawn bossSpawn set_bossSpawn].
  rewrite Hb. cbn [fmap option_fmap option_map mbind option_bind active
                   set_enemyId set_active].
  repeat split.
  rewrite lookup_alter_eq, lookup_insert_eq. reflexivity.
Qed.

Lemma checkBossSpawn_keeps_active w :
  bossActive w = Some true -> bossActive (checkBossSpawn w) = Some true.
Proof.
  intros Hb. unfold checkBossSpawn. pose proof Hb as Hb'.
  unfold bossActive in Hb'.
  destruct (currentZone w) as [zone |]; [| discriminate].
  cbn [mbind option_bind] in Hb'.
  destruct (bossSpawn zone) as [spawn |]; [| discriminate].
  cbn [mbind option_bind] in Hb'. injection Hb' as Hb'.
  destruct (killed spawn); [exact Hb |].
  rewrite Hb'. cbn [negb andb]. exact Hb.
Qed.

(** C3 (amended). A dormant boss spawn that is not killed is
    materialized by the boss check of [update] when the player is
    within [1.5 * spawnRadius] of it, and the boss check never clears
    the flag of an active boss.  The materialized boss is an entry of
    the active-entity list, and the distance-based despawn pass of
    [update] treats it like any other entry: when the player is
    farther than [despawnRadius] from the live boss entity, the pass
    leaves the boss descriptor inactive. *)
Theorem boss_materialized_then_despawned_when_far w :
  (forall zone boss,
      currentZone w = Some zone ->
      bossSpawn zone = Some boss ->
      killed boss = false ->
      active boss = false ->
      Js.hypot_lt (player_x (player (state w)) - sx boss)
                  (player_y (player (state w)) - sy boss)
                  (spawnRadius w * 1.5) = true ->
      bossActive (checkBossSpawn w) = Some true
      /\ activeEnemies (checkBossSpawn w)
         = activeEnemies w ++ [nextId (state w)]
      /\ (spawnRef <$> objects (state (checkBossSpawn w)) !! nextId (state w))
         = Some (Some RefBoss))
  /\ (bossActive w = Some true -> bossActive (checkBossSpawn w) = Some true)
  /\ (forall addr enemy,
        is_Some (bossActive w) ->
        In addr (activeEnemies w) ->
        objects (state w) !! addr = Some enemy ->
        dead enemy = false ->
        spawnRef enemy = Some RefBoss ->
        Js.hypot_gt (player_x (player (state w)) - x enemy)
                    (player_y (player (state w)) - y enemy)
                    (despawnRadius w) = true ->
        bossActive (despawnFar w) = Some false).
Proof.
  split; [| split].
  - intros zone boss. apply checkBossSpawn_materializes.
  - apply checkBossSpawn_keeps_active.
  - intros addr enemy Hsome Hin Hobj Hdead Href Hfar. unfold despawnFar.
    apply (despawn_loop_boss _ w addr enemy); auto.
Qed.

End WithEnv.

Import Samples.
#[local] Existing Instance Samples.math.
#[local] Existing Instance Samples.factory.

(** C3, as stated, fails: in a boss arena 3000 high the player walks
    from the spawn point to within 900 of the boss spawn (the boss is
    materialized by that tick), then back to 1300 from the boss; the
    next tick despawns the boss. *)
Lemma boss_despawn_counterexample :
  (r ← init "boss" (Some 42) world0;
   w1 ← update 0.016 (movePlayer 300 1000 (snd r));
   w2 ← update 0.016 (movePlayer 300 1500 w1);
   Some (fst r, bossActive w1, activeEnemies w1, bossActive w2, activeEnemies w2))
  = Some (true, Some true, [0%nat], Some false, []).
Proof. vm_compute. reflexivity. Qed.

End BossFacts.

(** ** Determinism of zone generation *)

Module DeterminismFacts.

Import MapGenerator World.

(** *** Seeded sampling never touches the ambient generator *)

Lemma draw_seeded r :
  exists v r', forall a,
    DepthRules.draw {| DepthRules.rng := Some r; DepthRules.ambient := a |}
    = (v, {| DepthRules.rng := Some r'; DepthRules.ambient := a |}).
Proof.
  unfold DepthRules.draw. cbn [DepthRules.rng DepthRules.ambient].
  destruct (SeededRandom.next r) as [v r']. now exists v, r'.
Qed.

Lemma weightedPick_seeded l r :
  exists res r', forall a,
    DepthRules.weightedPick l {| DepthRules.rng := Some r; DepthRules.ambient := a |}
    = (res, {| DepthRules.rng := Some r'; DepthRules.ambient := a |}).
Proof.
  destruct (draw_seeded r) as (v & r' & Hd). unfold DepthRules.weightedPick.
  eexists _, r'. intros a. rewrite Hd. reflexivity.
Qed.

Lemma maybeUnlock_seeded depth actConfig r meta :
  exists res meta' r', forall a,
    DepthRules.maybeUnlock depth actConfig
      {| DepthRules.rng := Some r; DepthRules.ambient := a |} meta
    = (res, meta', {| DepthRules.rng := Some r'; DepthRules.ambient := a |}).
Proof.
  unfold DepthRules.maybeUnlock.
  destruct (DepthRules.ensureMeta meta) as [d m0].
  destruct (depth <? _); [now eexists _, _, r |].
  destruct (_ <=? _); [now eexists _, _, r |].
  destruct (filter _ _) as [| c cs]; [now eexists _, _, r |].
  destruct (weightedPick_seeded (c :: cs) r) as (res & r' & Hp).
  destruct res as [picked |]; eexists _, _, r'; intros a; rewrite Hp; reflexivity.
Qed.

Lemma fill_seeded slots available : forall picked r,
  exists res r', forall a,
    DepthRules.fill slots available picked
      {| DepthRules.rng := Some r; DepthRules.ambient := a |}
    = (res, {| DepthRules.rng := Some r'; DepthRules.ambient := a |}).
Proof.
  induction slots as [| slots IH]; intros picked r; cbn [DepthRules.fill].
  - now eexists _, r.
  - destruct (filter _ available) as [| c cs]; [now eexists _, r |].
    destruct (weightedPick_seeded (c :: cs) r) as (res & r' & Hp).
    destruct res as [p |].
    + destruct (IH (picked ++ [mod_id p]) r') as (res' & r'' & Hf).
      exists res', r''. intros a. rewrite Hp. apply Hf.
    + exists picked, r'. intros a. now rewrite Hp.
Qed.

Lemma sampleActive_seeded depth actConfig r meta :
  exists res meta' r', forall a,
    DepthRules.sampleActive depth actConfig
      {| DepthRules.rng := Some r; DepthRules.ambient := a |} meta
    = (res, meta', {| DepthRules.rng := Some r'; DepthRules.ambient := a |}).
Proof.
  unfold DepthRules.sampleActive.
  destruct (DepthRules.ensureMeta meta) as [d m0].
  destruct (filter _ _) as [| c cs] eqn:Hf; [now eexists _, _, r |].
  destruct (fill_seeded (Z.to_nat (DepthRules.clamp (DepthRules.modifierSlots depth) 0 8))
              (c :: cs) [] r) as (res & r' & Hfill).
  eexists _, _, r'. intros a. rewrite Hfill. reflexivity.
Qed.

Section WithEnv.
Context {math : Js.Math} {factory : Enemies}.

(** The zone installed by [loadZone] is a function of the zone index,
    the current act, the profile record and the configuration. *)
Lemma loadZone_zone_independent index w1 w2 :
  currentAct w1 = currentAct w2 ->
  meta (state w1) = meta (state w2) ->
  data_config (state w1) = data_config (state w2) ->
  (currentZone <$> loadZone index w1) = (currentZone <$> loadZone index w2).
Proof.
  intros Hact Hmeta Hcfg. unfold loadZone. rewrite <- Hact, <- Hmeta, <- Hcfg.
  destruct (currentAct w1) as [act |]; [| reflexivity].
  cbn [mbind option_bind].
  match goal with
  | |- context [DepthRules.maybeUnlock ?d ?a
                  {| DepthRules.rng := Some ?r; DepthRules.ambient := _ |} ?m] =>
    destruct (maybeUnlock_seeded d a r m) as (res1 & meta1 & r1 & H1)
  end.
  rewrite !H1. cbn [DepthRules.ambient].
  match goal with
  | |- context [DepthRules.sampleActive ?d ?a
                  {| DepthRules.rng := Some ?r; DepthRules.ambient := _ |} ?m] =>
    destruct (sampleActive_seeded d a r m) as (res2 & meta2 & r2 & H2)
  end.
  rewrite !H2.
  repeat match goal with
         | |- context [let (_, _) := ?e in _] => destruct e
         end.
  reflexivity.
Qed.

(** What [loadZone] does to the ambient generator: nothing. *)
Lemma loadZone_random index w w' :
  loadZone index w = Some w' -> random (state w') = random (state w).
Proof.
  unfold loadZone. destruct (currentAct w) as [act |]; [| discriminate].
  cbn [mbind option_bind].
  match goal with
  | |- context [DepthRules.maybeUnlock ?d ?a
                  {| DepthRules.rng := Some ?r; DepthRules.ambient := _ |} ?m] =>
    destruct (maybeUnlock_seeded d a r m) as (res1 & meta1 & r1 & H1)
  end.
  rewrite !H1. cbn [DepthRules.ambient].
  match goal with
  | |- context [DepthRules.sampleActive ?d ?a
                  {| DepthRules.rng := Some ?r; DepthRules.ambient := _ |} ?m] =>
    destruct (sampleActive_seeded d a r m) as (res2 & meta2 & r2 & H2)
  end.
  rewrite !H2. cbn [DepthRules.ambient].
  repeat match goal with
         | |- context [let (_, _) := ?e in _] => destruct e
         end.
  intros [= <-]. reflexivity.
Qed.

(** X31.  Loading a zone never consults [Math.random()]: the milestone
    unlock and the modifier sampling, which fall back to it when they
    are given no stream, are always given a seeded one.  So the zone
    that [loadZone] installs is the same in any two worlds that agree on
    the act, the profile record and the configuration, whatever the
    ambient generator, the player, the entities and the previous zone
    are; and the ambient generator is left where it was. *)
Theorem loadZone_ignores_ambient index w1 w2 :
  currentAct w1 = currentAct w2 ->
  meta (state w1) = meta (state w2) ->
  data_config (state w1) = data_config (state w2) ->
  (currentZone <$> loadZone index w1) = (currentZone <$> loadZone index w2)
  /\ (forall w', loadZone index w1 = Some w' ->
                 random (state w') = random (state w1)).
Proof.
  intros Hact Hmeta Hcfg. split.
  - now apply loadZone_zone_independent.
  - intros w'. apply loadZone_random.
Qed.

End WithEnv.

End DeterminismFacts.

(** ** The theorems at concrete inputs *)

Module Instances.

Import MapGenerator World Samples.
#[local] Existing Instance Samples.math.
#[local] Existing Instance Samples.factory.

(** C2, as stated, fails for the elite count: a 50 by 50 zone has one
    elite spawn, above [50 * 50 * 0.00025 = 0.625]. *)
Lemma density_caps_elite_counterexample :
  let zone := generate smallAct 42 noOptions in
  length (eliteSpawns zone) = 1%nat
  /\ (width zone * height zone * 0.00025 == 0.625)%Q
  /\ ~ (inject_Z (Z.of_nat (length (eliteSpawns zone)))
        <= width zone * height zone * 0.00025)%Q.
Proof.
  vm_compute. split; [reflexivity |]. split; [reflexivity |].
  intros H. apply H. reflexivity.
Qed.

Lemma density_caps_witness :
  let zone := generate smallAct 42 noOptions in
  (0 <= width zone * height zone)%Q
  /\ (inject_Z (Z.of_nat (length (enemySpawns zone)))
      <= width zone * height zone * 0.0012)%Q
  /\ (inject_Z (Z.of_nat (length (obstacles zone)))
      <= width zone * height zone * 0.0008)%Q
  /\ (inject_Z (Z.of_nat (length (eliteSpawns zone)))
      <= Js.max 1 (width zone * height zone * 0.00025))%Q.
Proof.
  cbv zeta.
  assert (Harea : (0 <= width (generate smallAct 42 noOptions)
                       * height (generate smallAct 42 noOptions))%Q)
    by (vm_compute; discriminate).
  split; [exact Harea |].
  apply (MapGeneratorFacts.density_caps smallAct 42 noOptions Harea).
Defined.

Lemma boss_materialized_then_despawned_when_far_witness :
  (bossActive (checkBossSpawn dormantWorld) = Some true
   /\ activeEnemies (checkBossSpawn dormantWorld) = [0%nat])
  /\ bossActive (despawnFar activeWorld) = Some false.
Proof.
  split.
  - destruct (BossFacts.boss_materialized_then_despawned_when_far dormantWorld)
      as (Hspawn & _ & _).
    destruct (Hspawn (arena false) (bossDescriptor false)) as (H1 & H2 & _);
      try reflexivity.
    split; [exact H1 | exact H2].
  - destruct (BossFacts.boss_materialized_then_despawned_when_far activeWorld)
      as (_ & _ & Hdespawn).
    apply (Hdespawn 0%nat bossEntity); try reflexivity.
    + exists true. reflexivity.
    + left. reflexivity.
Defined.

Lemma loadZone_boss_zone_witness :
  exists w' zone,
    loadZone 3 (set_currentAct (Some emptyAct) world0) = Some w'
    /\ currentZone w' = Some zone
    /\ isBossZone zone = true
    /\ is_Some (bossSpawn zone)
    /\ enemySpawns zone = []
    /\ eliteSpawns zone = [].
Proof.
  destruct (WorldFacts.loadZone_boss_zone 3 (set_currentAct (Some emptyAct) world0)
              emptyAct eq_refl)
    as (w' & zone & Hload & Hzone & _ & _ & _ & _ & _ & Hfour).
  destruct (Hfour ltac:(reflexivity)) as [_ H4].
  destruct (H4 eq_refl) as (Hb & Hs & He & Hl).
  exists w', zone. repeat split; assumption.
Defined.

Lemma init_missing_act_witness :
  exists w',
    init "nowhere" None world0 = Some (false, w')
    /\ currentAct w' = None
    /\ currentZone w' = None
    /\ zoneIndex w' = 0
    /\ player (state w') = player state0.
Proof.
  destruct (WorldFacts.init_missing_act "nowhere" None world0)
    as (w' & Hinit & Hact & Hzone & Hidx & _ & _ & _ & _ & Hpl & _).
  - vm_compute. reflexivity.
  - exists w'. repeat split; assumption.
Defined.

Lemma query_sound_witness :
  In {| px := 700; py := 650 |}
     (SpawnGrid.query
        (SpawnGrid.insert px py {| px := 10; py := 10 |}
           (SpawnGrid.build px py points (SpawnGrid.new 600)))
        400 400 400).
Proof.
  apply (SpawnGridFacts.query_sound px py 600 points [ {| px := 10; py := 10 |} ]
           {| px := 700; py := 650 |} 400 400 400).
  - left. right. right. left. reflexivity.
  - discriminate.
  - vm_compute. discriminate.
Defined.

End Instances.

(* ===================================================================== *)
(** * Further properties of the modelled code *)
(* ===================================================================== *)

(** ** The seeded generator *)

Module RandomFacts.

Import SeededRandom.

Lemma next_spec r : (0 <= fst (next r) < 1)%Q.
Proof.
  unfold next. cbv zeta. cbn [fst].
  match goal with
  | |- context [(inject_Z (Js.toUint32 ?e) / _)%Q] =>
    pose proof (JsFacts.toUint32_range e) as Hu;
      generalize dependent (Js.toUint32 e)
  end.
  intros u Hu. unfold Js.two32 in *. split.
  - apply Qle_shift_div_l; [reflexivity |]. rewrite Qmult_0_l.
    change 0%Q with (inject_Z 0). rewrite <- Zle_Qle. lia.
  - apply Qlt_shift_div_r; [reflexivity |]. rewrite Qmult_1_l.
    rewrite <- Zlt_Qlt. lia.
Qed.

Lemma range_spec min max r :
  (min <= max)%Q ->
  (min <= fst (range min max r) <= max)%Q
  /\ ((min < max)%Q -> (fst (range min max r) < max)%Q).
Proof.
  intros Hle. unfold range, bind, ret.
  pose proof (next_spec r) as [H0 H1]. destruct (next r) as [n r']. cbn [fst] in *.
  assert (Hd : (0 <= max - min)%Q) by lra.
  assert (Hp : (0 <= n * (max - min))%Q) by (now apply Qmult_le_0_compat).
  assert (Hq : (n * (max - min) <= 1 * (max - min))%Q)
    by (apply Qmult_le_compat_r; [now apply Qlt_le_weak | exact Hd]).
  repeat split; try lra.
  intros Hlt.
  assert (Hs : (n * (max - min) < 1 * (max - min))%Q)
    by (apply Qmult_lt_compat_r; [lra | exact H1]).
  lra.
Qed.

Lemma int_spec (lo hi : Z) r :
  lo <= hi ->
  lo <= fst (int (inject_Z lo) (inject_Z hi) r) <= hi.
Proof.
  intros Hle. unfold int, bind, ret.
  assert (Hq : (inject_Z lo < inject_Z hi + 1)%Q).
  { change 1%Q with (inject_Z 1). rewrite <- inject_Z_plus, <- Zlt_Qlt. lia. }
  destruct (range_spec (inject_Z lo) (inject_Z hi + 1) r (Qlt_le_weak _ _ Hq))
    as [[H0 _] H1].
  specialize (H1 Hq).
  destruct (range (inject_Z lo) (inject_Z hi + 1) r) as [v r']. cbn [fst] in *.
  unfold Js.floor. split.
  - apply Qfloor_resp_le in H0. now rewrite Qfloor_Z in H0.
  - assert (Hlt : Qfloor v < hi + 1); [| lia].
    rewrite Zlt_Qlt. eapply Qle_lt_trans; [apply Qfloor_le |].
    rewrite inject_Z_plus. exact H1.
Qed.

Lemma one_draw {A} (f : Q -> A) r :
  snd (bind next (fun n => ret (f n)) r) = snd (next r).
Proof. unfold bind, ret. now destruct (next r). Qed.

(** X1.  [next()] returns a number in [[0, 1)], keeps the stored seed and
    leaves a 32-bit state. *)
Theorem next_unit_interval r :
  (0 <= fst (next r) < 1)%Q
  /\ seed (snd (next r)) = seed r
  /\ 0 <= state (snd (next r)) < Js.two32.
Proof.
  split; [apply next_spec |]. split; [reflexivity |].
  unfold next. cbv zeta. cbn [snd state]. apply JsFacts.toUint32_range.
Qed.

(** X2.  On integer bounds [lo <= hi] of magnitude at most [2^19], where
    each operation of the code's double arithmetic is exact, [range(lo,
    hi)] returns a value between [lo] and [hi], below [hi] when the bounds
    differ, and takes one number from the stream. *)
Theorem range_bounds (lo hi : Z) r :
  - 524288 <= lo -> lo <= hi -> hi <= 524288 ->
  (inject_Z lo <= fst (range (inject_Z lo) (inject_Z hi) r) <= inject_Z hi)%Q
  /\ (lo < hi -> (fst (range (inject_Z lo) (inject_Z hi) r) < inject_Z hi)%Q)
  /\ snd (range (inject_Z lo) (inject_Z hi) r) = snd (next r).
Proof.
  intros _ Hle _.
  assert (Hq : (inject_Z lo <= inject_Z hi)%Q) by now rewrite <- Zle_Qle.
  destruct (range_spec (inject_Z lo) (inject_Z hi) r Hq) as [H1 H2].
  split; [exact H1 |]. split; [| apply one_draw].
  intros Hlt. apply H2. now rewrite <- Zlt_Qlt.
Qed.

(** X3.  On integers [lo <= hi] of magnitude at most [2^19], where each
    operation of the code's double arithmetic is exact, [int(lo, hi)]
    returns an integer between [lo] and [hi], both included, and takes
    one number from the stream. *)
Theorem int_bounds (lo hi : Z) r :
  - 524288 <= lo -> lo <= hi -> hi <= 524288 ->
  lo <= fst (int (inject_Z lo) (inject_Z hi) r) <= hi
  /\ snd (int (inject_Z lo) (inject_Z hi) r) = snd (next r).
Proof.
  intros _ Hle _. split; [now apply int_spec |].
  unfold int, range, bind, ret. now destruct (next r).
Qed.

(** X4.  [pick] on an empty array returns [null] and draws nothing; on an
    array with elements it returns one of them. *)
Theorem pick_member {A} (array : list A) r :
  match array with
  | [] => pick array r = (None, r)
  | _ => exists a, fst (pick array r) = Some a /\ In a array
  end.
Proof.
  destruct array as [| a0 rest]; [reflexivity |].
  unfold pick, bind, ret.
  pose proof (int_spec 0 (Z.of_nat (length (a0 :: rest)) - 1) r) as Hb.
  assert (Heq : (inject_Z (Z.of_nat (length (a0 :: rest)) - 1)
                 = inject_Z (Z.of_nat (length (a0 :: rest))) - 1)%Q).
  { unfold Zminus. rewrite inject_Z_plus. reflexivity. }
  change (inject_Z 0) with 0%Q in Hb.
  rewrite Heq in Hb.
  destruct (int 0 (inject_Z (Z.of_nat (length (a0 :: rest))) - 1)%Q r) as [i r'].
  cbn [fst] in *.
  assert (Hi : 0 <= i <= Z.of_nat (length (a0 :: rest)) - 1).
  { apply Hb. cbn [length]. lia. }
  destruct (Z.ltb_spec i 0); [lia |].
  destruct ((a0 :: rest) !! Z.to_nat i) as [a |] eqn:Hl.
  - exists a. split; [reflexivity |].
    apply list_elem_of_In. eapply list_elem_of_lookup_2, Hl.
  - apply lookup_ge_None in Hl. lia.
Qed.

Lemma swap_Permutation {A} i j (l : list A) : Permutation (swap i j l) l.
Proof.
  unfold swap.
  destruct (l !! i) as [a |] eqn:Hi; [| reflexivity].
  destruct (l !! j) as [b |] eqn:Hj; [| reflexivity].
  now apply Permutation_insert_swap.
Qed.

(** X5.  [shuffle] returns a rearrangement of its argument: the same elements
    with the same multiplicities. *)
Theorem shuffle_Permutation {A} (array : list A) r :
  Permutation (fst (shuffle array r)) array
  /\ length (fst (shuffle array r)) = length array.
Proof.
  assert (H : forall i (l : list A) r, Permutation (fst (shuffleFrom i l r)) l).
  { induction i as [| i IH]; intros l r0; cbn [shuffleFrom].
    - reflexivity.
    - unfold bind. destruct (int 0 _ r0) as [j r1].
      rewrite IH. apply swap_Permutation. }
  split; [apply H |]. apply Permutation_length, H.
Qed.

Lemma next_seed r : seed (snd (next r)) = seed r.
Proof. reflexivity. Qed.

(** X6.  [reset()] rewinds a stream to where [new SeededRandom(seed)] started,
    however many numbers were drawn from it. *)
Theorem reset_after_draws s n :
  reset (Nat.iter n (fun r => snd (next r)) (new s)) = new s.
Proof.
  assert (Hseed : seed (Nat.iter n (fun r => snd (next r)) (new s)) = Js.toUint32 s).
  { induction n as [| n IH]; [reflexivity |].
    rewrite Nat.iter_succ, next_seed. exact IH. }
  unfold reset. rewrite Hseed, JsFacts.toUint32_idem. reflexivity.
Qed.

End RandomFacts.

(** ** Seeds *)

Module SeedFacts.

Import Js JsFacts SeedUtil SeedUtilFacts MapGenerator.

Lemma seedFromParts_distinct_part pre post p q :
  partToU32 p <> partToU32 q ->
  0 <= partToU32 p < two32 -> 0 <= partToU32 q < two32 ->
  seedFromParts (pre ++ p :: post) <> seedFromParts (pre ++ q :: post).
Proof.
  intros Hpq Hp Hq. rewrite !seedFromParts_fold.
  rewrite !fold_left_app, !fold_left_cons.
  apply fold_distinct; [apply mixSeed_range .. |].
  intros H. apply mixSeed_inj_value in H.
  rewrite !toUint32_small in H by assumption. contradiction.
Qed.

Lemma fromString_range s : 0 <= SeededRandom.fromString s < two32.
Proof. unfold SeededRandom.fromString. apply toUint32_range. Qed.

(** X7.  The six stream seeds that [loadZone] derives from a zone seed are
    pairwise distinct, for every zone seed: no two streams of a zone
    start from the same state. *)
Theorem stream_seeds_distinct zoneSeed :
  NoDup (map (fun tag => seedFromParts [PNum zoneSeed; PStr tag])
             ["MACRO"; "MESO"; "MICRO"; "MODS"; "ENCOUNTERS"; "LOOT"]%string).
Proof.
  assert (H : forall t1 t2,
             SeededRandom.fromString t1 <> SeededRandom.fromString t2 ->
             seedFromParts [PNum zoneSeed; PStr t1]
             <> seedFromParts [PNum zoneSeed; PStr t2]).
  { intros t1 t2 Hne.
    apply (seedFromParts_distinct_part [PNum zoneSeed] [] (PStr t1) (PStr t2));
      [exact Hne | apply fromString_range ..]. }
  cbn [map].
  repeat (constructor;
          [ rewrite ?not_elem_of_cons; repeat split;
            try apply not_elem_of_nil; apply H; vm_compute; discriminate | ]).
  constructor.
Qed.

(** X8.  [createZoneSeed] returns a 32-bit seed, and two zone indices get the
    same seed under one act seed only when they agree modulo [2^32]. *)
Theorem createZoneSeed_injective actSeed i j :
  0 <= createZoneSeed actSeed i < two32
  /\ (createZoneSeed actSeed i = createZoneSeed actSeed j ->
      toUint32 (i + 1) = toUint32 (j + 1)).
Proof.
  split; [apply toUint32_range |].
  unfold createZoneSeed. rewrite !toUint32_xor. intros H.
  apply lxor_cancel_l in H.
  apply (imul_step_inj _ 0x144cbc89) in H; [| reflexivity].
  now rewrite !toUint32_idem in H.
Qed.

End SeedFacts.

(** ** Generated zones *)

Module ZoneFacts.

Import MapGenerator.

Lemma for_push_Forall {A} (P : A -> Prop) (body : Z -> SeededRandom.M A) n :
  (forall i r, P (fst (body i r))) ->
  forall i out rng,
    Forall P out -> Forall P (fst (for_push n i body out rng)).
Proof.
  intros Hbody. induction n as [| n IH]; intros i out rng Hout; cbn [for_push].
  - exact Hout.
  - unfold SeededRandom.bind. specialize (Hbody i rng).
    destruct (body i rng) as [a rng']. apply IH.
    apply Forall_app. split; [exact Hout | now constructor].
Qed.

Lemma placeEnemies_dormant pool count w h spawn exit layout fuel :
  forall i spawns rng,
    Forall dormant spawns ->
    Forall dormant
      (placed (fst (placeEnemies pool count w h spawn exit layout fuel i spawns rng))).
Proof.
  induction fuel as [| fuel IH]; intros i spawns rng Hd; cbn [placeEnemies];
    destruct ((i <? count * 3) && (Z.of_nat (length spawns) <? count));
    try exact Hd.
  MapGeneratorFacts.draws.
  repeat match goal with
         | |- context [if ?b then _ else _] => destruct b
         end;
    try (apply IH; exact Hd).
  MapGeneratorFacts.draws. apply IH.
  apply Forall_app. split; [exact Hd |]. constructor; [| constructor].
  repeat split.
Qed.

Section WithMath.
Context {math : Js.Math}.

(** X9.  Every spawn descriptor of a freshly generated zone is dormant. *)
Theorem generated_spawns_dormant actConfig zoneSeed options :
  let zone := generate actConfig zoneSeed options in
  let arena := generateBossZone actConfig zoneSeed options in
  Forall dormant (enemySpawns zone)
  /\ Forall dormant (eliteSpawns zone)
  /\ bossSpawn zone = None
  /\ (exists boss, bossSpawn arena = Some boss /\ dormant boss)
  /\ enemySpawns arena = [] /\ eliteSpawns arena = [].
Proof.
  cbv zeta.
  destruct (MapGeneratorFacts.generate_lists actConfig zoneSeed options)
    as (ed & eld & od & pool & epool & sp & ex & lay & dep & mods
        & r1 & r2 & r3 & _ & _ & _ & He & Hel & _).
  rewrite He, Hel. split; [| split; [| split; [| split]]].
  - unfold generateEnemySpawns, enemyPlacement, SeededRandom.bind, SeededRandom.ret.
    pose proof (placeEnemies_dormant pool
                  (Js.floor (width (generate actConfig zoneSeed options)
                             * height (generate actConfig zoneSeed options) * ed))
                  (width (generate actConfig zoneSeed options))
                  (height (generate actConfig zoneSeed options))
                  sp ex (str_or lay "OPEN")
                  (Z.to_nat (Js.floor (width (generate actConfig zoneSeed options)
                             * height (generate actConfig zoneSeed options) * ed) * 3))
                  0 [] r1 (List.Forall_nil _)) as H.
    destruct (placeEnemies _ _ _ _ _ _ _ _ _ _ _) as [run rng']. exact H.
  - unfold generateEliteSpawns. apply for_push_Forall; [| constructor].
    intros i r. MapGeneratorFacts.draws. repeat split.
  - apply WorldFacts.isBossZone_generate.
  - unfold generateBossZone. MapGeneratorFacts.draws.
    eexists. split; [reflexivity |]. repeat split.
  - unfold generateBossZone. MapGeneratorFacts.draws. split; reflexivity.
Qed.

(** X10.  A boss arena has the configured size (1200 by 1000 by default), the
    player spawn at the bottom centre, the boss spawn at the top
    centre, no exit, and two to four pillars of radius 40 that cannot
    be destroyed. *)
Theorem boss_arena_shape actConfig zoneSeed options :
  let zone := generateBossZone actConfig zoneSeed options in
  let cfg := default {| cfg_arenaWidth := None; cfg_arenaHeight := None;
                        cfg_boss_type := None |} (act_boss actConfig) in
  width zone = num_or (cfg_arenaWidth cfg) 1200
  /\ height zone = num_or (cfg_arenaHeight cfg) 1000
  /\ spawn zone = {| px := width zone / 2; py := height zone - 100 |}%Q
  /\ exit zone = None
  /\ (exists boss,
        bossSpawn zone = Some boss
        /\ sx boss = (width zone / 2)%Q /\ sy boss = 200%Q
        /\ stype boss = Some (str_or (cfg_boss_type cfg) "sentinel"))
  /\ (2 <= length (obstacles zone) <= 4)%nat
  /\ Forall (fun o => otype o = Some "pillar"%string /\ radius o = 40
                      /\ destructible o = false)
            (obstacles zone).
Proof.
  cbv zeta. unfold generateBossZone.
  destruct (generateBossArenaObstacles _ _ _) as [obs rng'] eqn:Hobs.
  destruct (generateParallax _ _ _ _ _) as [par rng''].
  cbn [width height spawn exit bossSpawn obstacles].
  repeat split; try reflexivity.
  - eexists. repeat split.
  - apply (f_equal fst) in Hobs. cbn [fst] in Hobs. subst obs.
    unfold generateBossArenaObstacles, SeededRandom.bind.
    pose proof (RandomFacts.int_spec 2 4
                  (SeededRandom.new
                     (default zoneSeed
                        (seeds_meso (default noSeeds (opt_seeds options)))))
                  ltac:(lia)) as Hb.
    change (inject_Z 2) with 2%Q in Hb. change (inject_Z 4) with 4%Q in Hb.
    destruct (SeededRandom.int 2 4 _) as [n r1]. cbn [fst] in Hb.
    rewrite MapGeneratorFacts.for_push_length. cbn [length]. lia.
  - apply (f_equal fst) in Hobs. cbn [fst] in Hobs. subst obs.
    unfold generateBossArenaObstacles, SeededRandom.bind.
    pose proof (RandomFacts.int_spec 2 4
                  (SeededRandom.new
                     (default zoneSeed
                        (seeds_meso (default noSeeds (opt_seeds options)))))
                  ltac:(lia)) as Hb.
    change (inject_Z 2) with 2%Q in Hb. change (inject_Z 4) with 4%Q in Hb.
    destruct (SeededRandom.int 2 4 _) as [n r1]. cbn [fst] in Hb.
    rewrite MapGeneratorFacts.for_push_length. cbn [length]. lia.
  - apply (f_equal fst) in Hobs. cbn [fst] in Hobs. subst obs.
    unfold generateBossArenaObstacles, SeededRandom.bind.
    destruct (SeededRandom.int 2 4 _) as [n r1].
    apply for_push_Forall; [| constructor].
    intros i r. MapGeneratorFacts.draws. repeat split.
Qed.

Lemma ltb_lt a b : Js.ltb a b = true <-> (a < b)%Q.
Proof.
  unfold Js.ltb. rewrite negb_true_iff. split.
  - intros H. apply Qnot_le_lt. intros Hle. apply Qle_bool_iff in Hle. congruence.
  - intros H. destruct (Qle_bool b a) eqn:Hb; [| reflexivity].
    apply Qle_bool_iff in Hb. exfalso. eapply Qlt_irrefl, Qlt_le_trans; eassumption.
Qed.

Lemma half_eq (h : Q) : (h / 2 == h * (1 # 2))%Q.
Proof. unfold Qdiv. reflexivity. Qed.

(** The spawn and exit points of a generated zone come from
    [generateSpawnPoint] and [generateExitPoint] on its dimensions. *)
Lemma generate_points actConfig zoneSeed options :
  let zone := generate actConfig zoneSeed options in
  exists r1 r2,
    spawn zone = fst (generateSpawnPoint (width zone) (height zone) r1)
    /\ exit zone
       = Some (fst (generateExitPoint (spawn zone) (width zone) (height zone) r2)).
Proof.
  unfold generate. MapGeneratorFacts.draws. cbn [spawn exit width height].
  do 2 eexists. split;
    match goal with
    | H : ?e = (?v, _) |- ?v = fst _ =>
      transitivity (fst e); [now rewrite H | reflexivity]
    | H : ?e = (?v, _) |- Some ?v = Some (fst _) =>
      f_equal; transitivity (fst e); [now rewrite H | reflexivity]
    end.
Qed.

Lemma generateSpawnPoint_edge w h r :
  let p := fst (generateSpawnPoint w h r) in
  py p = (h - 100)%Q \/ px p = 100%Q \/ px p = (w - 100)%Q.
Proof.
  unfold generateSpawnPoint. MapGeneratorFacts.draws.
  repeat match goal with
         | |- context [if ?b then _ else _] => destruct b
         end;
    MapGeneratorFacts.draws; cbn [fst px py]; tauto.
Qed.

(** X11.  In a zone wider and higher than 200, the spawn point lies on the
    bottom, left or right margin line, and the exit lies either on the
    top margin line with the spawn in the lower half, or on the side
    margin line opposite to the spawn's. *)
Theorem exit_opposite_spawn actConfig zoneSeed options :
  let zone := generate actConfig zoneSeed options in
  (200 < width zone)%Q -> (200 < height zone)%Q ->
  (py (spawn zone) = (height zone - 100)%Q \/ px (spawn zone) = 100%Q
   \/ px (spawn zone) = (width zone - 100)%Q)
  /\ exists e,
       exit zone = Some e
       /\ ((py e = 100%Q /\ (height zone / 2 < py (spawn zone))%Q)
           \/ (px e = (width zone - 100)%Q /\ px (spawn zone) = 100%Q)
           \/ (px e = 100%Q /\ px (spawn zone) = (width zone - 100)%Q)).
Proof.
  cbv zeta. intros Hw Hh.
  destruct (generate_points actConfig zoneSeed options) as (r1 & r2 & Hs & He).
  pose proof (generateSpawnPoint_edge (width (generate actConfig zoneSeed options))
                (height (generate actConfig zoneSeed options)) r1) as Hedge.
  cbv zeta in Hedge. rewrite <- Hs in Hedge.
  split; [exact Hedge |].
  rewrite He. eexists. split; [reflexivity |].
  clear He Hs.
  generalize dependent (spawn (generate actConfig zoneSeed options)).
  generalize dependent (width (generate actConfig zoneSeed options)).
  generalize dependent (height (generate actConfig zoneSeed options)).
  intros h Hh w Hw s Hedge.
  unfold generateExitPoint.
  destruct (Js.ltb (h / 2) (py s)) eqn:Hlow.
  - MapGeneratorFacts.draws. cbn [fst px py]. left. split; [reflexivity |].
    now apply ltb_lt.
  - assert (Hnb : py s <> (h - 100)%Q).
    { intros Hb. rewrite Hb in Hlow.
      assert (Ht : Js.ltb (h / 2) (h - 100) = true) by (apply ltb_lt; rewrite half_eq; lra).
      congruence. }
    destruct (Js.ltb (px s) (w / 2)) eqn:Hleft.
    + MapGeneratorFacts.draws. cbn [fst px py]. right. left.
      split; [reflexivity |].
      destruct Hedge as [Hb | [Hl | Hr]]; [contradiction | exact Hl |].
      exfalso. rewrite Hr in Hleft. apply ltb_lt in Hleft. rewrite half_eq in Hleft. lra.
    + MapGeneratorFacts.draws. cbn [fst px py]. right. right.
      split; [reflexivity |].
      destruct Hedge as [Hb | [Hl | Hr]]; [contradiction | | exact Hr].
      exfalso. rewrite Hl in Hleft.
      assert (Ht : Js.ltb 100 (w / 2) = true) by (apply ltb_lt; rewrite half_eq; lra).
      congruence.
Qed.

(** X12.  Changing the configured obstacle density of an act changes nothing
    of a generated zone but its obstacles: dimensions, spawn, exit,
    enemy and elite spawns, decorations and parallax stay the same. *)
Theorem obstacle_density_independent actConfig v zoneSeed options :
  let z1 := generate (withObstacleDensity v actConfig) zoneSeed options in
  let z2 := generate actConfig zoneSeed options in
  width z1 = width z2 /\ height z1 = height z2
  /\ spawn z1 = spawn z2 /\ exit z1 = exit z2
  /\ enemySpawns z1 = enemySpawns z2 /\ eliteSpawns z1 = eliteSpawns z2
  /\ decorations z1 = decorations z2 /\ parallax z1 = parallax z2.
Proof.
  unfold generate, generateParallax, withObstacleDensity.
  cbn [act_generation act_enemies act_parallax act_biome act_boss
       act_modifiers default from_option id cfg_enemyDensity cfg_eliteDensity
       cfg_obstacleDensity cfg_width cfg_height].
  repeat match goal with
         | |- context [String.eqb ?a ?b] => destruct (String.eqb a b)
         end;
    cbv beta iota;
    MapGeneratorFacts.draws;
    cbn [width height spawn exit enemySpawns eliteSpawns decorations parallax];
    repeat split; congruence.
Qed.

(** Unfold the sequencing of draws, deciding each branch. *)
Ltac branches :=
  unfold SeededRandom.bind, SeededRandom.ret;
  repeat (cbv beta iota;
          match goal with
          | |- context [if ?b then _ else _] => destruct b
          | |- context [let (_, _) := ?e in _] =>
            lazymatch e with
            | (let (_, _) := _ in _) => fail
            | (if _ then _ else _) => fail
            | (if _ then _ else _) _ => fail
            | _ => idtac
            end;
            let v := fresh "v" in
            let r := fresh "r" in
            destruct e as [v r] eqn:?
          end).

Ltac draw_bounds :=
  repeat match goal with
         | H : SeededRandom.range ?a ?b ?r = (?v, _) |- _ =>
           first [ assert (a <= v <= b)%Q
                     by (pose proof (RandomFacts.range_spec a b r ltac:(lra)) as X;
                         rewrite H in X; apply X)
                 | idtac ];
           clear H
         | H : SeededRandom.int 30 80 ?r = (?v, _) |- _ =>
           assert (30 <= v <= 80)
             by (pose proof (RandomFacts.int_spec 30 80 r ltac:(lia)) as X;
                 change (inject_Z 30) with 30%Q in X;
                 change (inject_Z 80) with 80%Q in X;
                 rewrite H in X; exact X);
           clear H
         | H : SeededRandom.int 15 30 ?r = (?v, _) |- _ =>
           assert (15 <= v <= 30)
             by (pose proof (RandomFacts.int_spec 15 30 r ltac:(lia)) as X;
                 change (inject_Z 15) with 15%Q in X;
                 change (inject_Z 30) with 30%Q in X;
                 rewrite H in X; exact X);
           clear H
         end.

Lemma generateObstacles_within density w h depth mods layout rng :
  (400 <= w)%Q -> (200 <= h)%Q ->
  Forall (fun o => (100 <= ox o <= w - 100)%Q
                   /\ (100 <= oy o <= h - 100)%Q
                   /\ 15 <= radius o <= 80
                   /\ destructible o = true)
         (fst (generateObstacles density w h depth mods layout rng)).
Proof.
  intros Hw Hh. unfold generateObstacles. cbv zeta.
  apply for_push_Forall; [| constructor].
  intros i r. branches; draw_bounds; cbn [fst ox oy radius destructible];
    repeat split; first [lra | lia].
Qed.

(** X13.  In a generated zone at least 400 wide and 200 high, every obstacle
    keeps a margin of 100 to each edge of the zone, has a radius
    between 15 and 80, and can be destroyed. *)
Theorem obstacles_within_margin actConfig zoneSeed options :
  let zone := generate actConfig zoneSeed options in
  (400 <= width zone)%Q -> (200 <= height zone)%Q ->
  Forall (fun o => (100 <= ox o <= width zone - 100)%Q
                   /\ (100 <= oy o <= height zone - 100)%Q
                   /\ 15 <= radius o <= 80
                   /\ destructible o = true)
         (obstacles zone).
Proof.
  cbv zeta. intros Hw Hh.
  destruct (MapGeneratorFacts.generate_lists actConfig zoneSeed options)
    as (ed & eld & od & pool & epool & sp & ex & lay & dep & mods
        & r1 & r2 & r3 & _ & _ & _ & _ & _ & Ho).
  rewrite Ho. now apply generateObstacles_within.
Qed.

End WithMath.

End ZoneFacts.

(** ** The spatial index holds what it was built from *)

Module GridFacts.

Import SpawnGrid.

Section Grid.
Context {A : Type} (spawn_x spawn_y : A -> Q).

Lemma insert_stored (P : A -> Prop) s g :
  P s ->
  (forall k l, cells g !! k = Some l -> Forall P l) ->
  forall k l, cells (insert spawn_x spawn_y s g) !! k = Some l -> Forall P l.
Proof.
  intros Hs Hg k l. unfold insert. destruct (_cellCoord g _ _) as [cx cy].
  cbn [cells]. destruct (decide (_key cx cy = k)) as [<- | Hne].
  - rewrite lookup_insert_eq. intros [= <-]. apply Forall_app. split.
    + destruct (cells g !! _key cx cy) as [arr |] eqn:Hk; cbn [default].
      * eapply Hg, Hk.
      * constructor.
    + constructor; [exact Hs | constructor].
  - rewrite lookup_insert_ne by exact Hne. apply Hg.
Qed.

Lemma build_steps_stored (P : A -> Prop) (spawns : list (option A)) :
  Forall (fun o => match o with Some s => P s | None => True end) spawns ->
  forall g,
    (forall k l, cells g !! k = Some l -> Forall P l) ->
    forall k l,
      cells (fold_left (fun g o => match o with
                                   | Some s => insert spawn_x spawn_y s g
                                   | None => g
                                   end) spawns g) !! k = Some l ->
      Forall P l.
Proof.
  induction 1 as [| o spawns Ho _ IH]; intros g Hg; cbn [fold_left];
    [exact Hg |].
  apply IH. destruct o as [s |]; [| exact Hg]. now apply insert_stored.
Qed.

Lemma query_stored (P : A -> Prop) g x y r :
  (forall k l, cells g !! k = Some l -> Forall P l) ->
  Forall P (query g x y r).
Proof.
  intros Hg. unfold query. apply List.Forall_flat_map, List.Forall_forall.
  intros cx _. apply List.Forall_flat_map, List.Forall_forall. intros cy _.
  destruct (cells g !! _key cx cy) as [arr |] eqn:Hk; cbn [default].
  - eapply Hg, Hk.
  - constructor.
Qed.

(** X14.  Whatever the grid held before, after [build(spawns)] a query returns
    only entries of [spawns]: rebuilding leaves nothing of an earlier
    zone behind. *)
Theorem query_only_built (spawns : list (option A)) g x y r :
  Forall (fun s => In (Some s) spawns)
         (query (build spawn_x spawn_y spawns g) x y r).
Proof.
  apply query_stored. unfold build. apply build_steps_stored.
  - apply List.Forall_forall. intros [s |] Hin; [exact Hin | exact I].
  - intros k l. unfold clear. cbn [cells]. rewrite lookup_empty. discriminate.
Qed.

End Grid.

End GridFacts.

(** ** The anti-repetition memory *)

Module FreshnessFacts.

Import Meta Freshness.

Lemma ensure_spec meta cfgWindow :
  let '(f, meta') := ensure meta cfgWindow in
  freshness meta' = Some f
  /\ 1 <= window f <= 64
  /\ Z.of_nat (length (recent f)) <= window f
  /\ exists dropped,
       from_option recent [] (freshness meta) = dropped ++ recent f.
Proof.
  unfold ensure. cbv zeta. cbn [set_freshness freshness window recent].
  set (w := Z.max 1 (Z.min 64 _)).
  assert (Hw : 1 <= w <= 64) by (unfold w; lia).
  clearbody w.
  split; [reflexivity |]. split; [exact Hw |].
  assert (Hr : from_option recent [] (freshness meta)
               = recent (default {| window := 8; recent := [] |} (freshness meta)))
    by now destruct (freshness meta).
  rewrite Hr.
  generalize (recent (default {| window := 8; recent := [] |} (freshness meta))).
  intros l. destruct (Z.gtb_spec (Z.of_nat (length l)) w) as [Hgt | Hle].
  - split.
    + rewrite length_drop. lia.
    + exists (take (length l - Z.to_nat w) l). now rewrite take_drop.
  - split; [lia |]. now exists [].
Qed.

(** X15.  [ensure] leaves a record with a window between 1 and 64 and at most
    that many recent keys, which are the newest of the keys held
    before. *)
Theorem ensure_window_bounded meta cfgWindow :
  let f := fst (ensure meta cfgWindow) in
  freshness (snd (ensure meta cfgWindow)) = Some f
  /\ 1 <= window f <= 64
  /\ Z.of_nat (length (recent f)) <= window f
  /\ exists dropped,
       from_option recent [] (freshness meta) = dropped ++ recent f.
Proof.
  pose proof (ensure_spec meta cfgWindow) as H.
  destruct (ensure meta cfgWindow) as [f meta']. exact H.
Qed.

(** X16.  After [push(meta, key)] the memory ends with [key], holds at most
    [window] keys, and these are the newest of the keys held before
    followed by [key]; so [key] now counts at least once. *)
Theorem push_keeps_window meta key :
  exists f,
    freshness (push meta key) = Some f
    /\ 1 <= window f <= 64
    /\ Z.of_nat (length (recent f)) <= window f
    /\ last (recent f) = Some key
    /\ (exists dropped,
          from_option recent [] (freshness meta) ++ [key] = dropped ++ recent f)
    /\ (1 <= count (push meta key) key)%nat.
Proof.
  unfold push. pose proof (ensure_spec meta None) as H.
  destruct (ensure meta None) as [f meta'].
  destruct H as (_ & Hw & Hlen & dropped & Hd).
  set (rec := if _ >? _ then _ else _).
  assert (Hrec : Z.of_nat (length rec) <= window f
                 /\ exists pre mid, recent f = pre ++ mid /\ rec = mid ++ [key]).
  { unfold rec.
    destruct (Z.gtb_spec (Z.of_nat (length (recent f ++ [key]))) (window f))
      as [Hgt | Hle].
    - rewrite length_app in *. cbn [length] in *.
      rewrite drop_app_le by lia. split.
      + rewrite length_app, length_drop. cbn [length]. lia.
      + exists (take (length (recent f) + 1 - Z.to_nat (window f)) (recent f)).
        eexists. split; [now rewrite take_drop | reflexivity].
    - split; [exact Hle |]. exists [], (recent f). now split. }
  clearbody rec.
  destruct Hrec as (Hl & pre & mid & Hpre & ->).
  exists {| window := window f; recent := mid ++ [key] |}.
  cbn [set_freshness freshness window recent].
  split; [reflexivity |]. split; [exact Hw |]. split; [exact Hl |].
  split; [apply last_snoc |].
  split.
  - exists (dropped ++ pre). rewrite Hd, Hpre. now rewrite <- !app_assoc.
  - unfold count. cbn [set_freshness freshness recent].
    rewrite filter_app, length_app.
    rewrite filter_cons_True by reflexivity. cbn [length]. lia.
Qed.

Section Pick.
Context {A : Type} (weight : A -> option Q) (keyFn : A -> string).

Lemma scan_member r (weights : list (Row (A := A))) : forall acc opt key,
  scan r acc weights = Some (opt, key) ->
  exists w, In (opt, key, w) weights.
Proof.
  induction weights as [| [[o k] w] rest IH]; intros acc opt key;
    cbn [scan]; [discriminate |].
  destruct (Js.leb r (acc + w)).
  - intros [= <- <-]. exists w. now left.
  - intros H. destruct (IH _ _ _ H) as [w' Hin]. exists w'. now right.
Qed.

Lemma last_member {B} (l : list B) b : last l = Some b -> In b l.
Proof.
  intros H. apply last_Some in H. destruct H as [l' ->].
  apply in_or_app. right. now left.
Qed.

Lemma row_member (f : A -> Q) options opt key w :
  In (opt, key, w) (map (fun o => (o, keyFn o, f o)) options) ->
  In opt options /\ key = keyFn opt.
Proof.
  intros H. apply in_map_iff in H. destruct H as (o & [= <- <- <-] & Hin).
  now split.
Qed.

(** X18.  [pick] returns [null] only for an empty option list; otherwise it
    returns one of the options together with that option's key. *)
Theorem pick_returns_option options meta penaltyBase rng :
  match fst (pick weight keyFn options meta penaltyBase rng) with
  | None => options = []
  | Some (opt, key) => In opt options /\ key = keyFn opt
  end.
Proof.
  unfold pick. destruct options as [| fallback rest]; [reflexivity |].
  set (options := fallback :: rest).
  assert (Hdraw : forall (f : A -> Q) total r,
             match fst (SeededRandom.bind (SeededRandom.range 0 total)
                          (fun v => SeededRandom.ret
                             match scan v 0 (map (fun o => (o, keyFn o, f o)) options) with
                             | Some row => Some row
                             | None =>
                               option_map (fun row => (fst (fst row), snd (fst row)))
                                 (last (map (fun o => (o, keyFn o, f o)) options))
                             end) r) with
             | None => False
             | Some (opt, key) => In opt options /\ key = keyFn opt
             end).
  { intros f total r. unfold SeededRandom.bind, SeededRandom.ret.
    destruct (SeededRandom.range 0 total r) as [v r']. cbn [fst].
    destruct (scan v 0 _) as [[opt key] |] eqn:Hscan.
    - apply scan_member in Hscan. destruct Hscan as [w Hin].
      eapply row_member, Hin.
    - destruct (last _) as [[[opt key] w] |] eqn:Hlast; cbn [option_map fst snd].
      + apply last_member in Hlast. eapply row_member, Hlast.
      + apply last_None in Hlast. discriminate. }
  destruct (Js.leb (sumW _) 0).
  - destruct (Js.leb (sumW _) 0).
    + cbn. split; [now left | reflexivity].
    + pose proof (Hdraw (fun o => Js.max 0 (default 1%Q (weight o)))) as H.
      specialize (H (sumW (map (fun opt => (opt, keyFn opt,
                                  Js.max 0 (default 1%Q (weight opt)))) options)) rng).
      destruct (fst _) as [[opt key] |]; [exact H | contradiction].
  - pose proof (Hdraw (fun o => applyPenalty (Js.max 0 (default 1%Q (weight o)))
                                  (count meta (keyFn o)) penaltyBase)) as H.
    specialize (H (sumW (map (fun opt => (opt, keyFn opt,
                                applyPenalty (Js.max 0 (default 1%Q (weight opt)))
                                  (count meta (keyFn opt)) penaltyBase)) options)) rng).
    destruct (fst _) as [[opt key] |]; [exact H | contradiction].
Qed.

End Pick.

End FreshnessFacts.

(** ** Modifier sampling and unlocking *)

Module ModifierFacts.

Import MapGenerator Meta DepthRules.

Lemma fill_spec slots available : forall picked s,
  NoDup picked ->
  (forall id, id ∈ picked -> id ∈ mod_id <$> available) ->
  let res := fst (fill slots available picked s) in
  NoDup res
  /\ (forall id, id ∈ res -> id ∈ mod_id <$> available)
  /\ (length res <= length picked + slots)%nat.
Proof.
  induction slots as [| n IH]; intros picked s Hnd Hin; cbn [fill].
  - cbn [fst]. repeat split; [assumption | assumption | lia].
  - destruct (filter _ available) as [| c cs] eqn:Hf.
    + cbn [fst]. repeat split; [assumption | assumption | lia].
    + pose proof (DepthRulesFacts.weightedPick_member (c :: cs) s) as Hmem.
      destruct (weightedPick (c :: cs) s) as [[p |] s'].
      * specialize (Hmem p eq_refl). rewrite <- Hf in Hmem.
        apply list_elem_of_In, list_elem_of_filter in Hmem.
        destruct Hmem as [Hnew Hav].
        rewrite elem_of_list_to_set in Hnew.
        specialize (IH (picked ++ [mod_id p]) s').
        cbv zeta in IH. rewrite length_app in IH. cbn [length] in IH.
        destruct IH as (H1 & H2 & H3).
        -- apply NoDup_app. split; [assumption |]. split.
           ++ intros x Hx Hx'. apply list_elem_of_singleton in Hx'. now subst.
           ++ apply NoDup_singleton.
        -- intros x Hx. apply elem_of_app in Hx. destruct Hx as [Hx | Hx].
           ++ now apply Hin.
           ++ apply list_elem_of_singleton in Hx. subst.
              apply list_elem_of_fmap. now exists p.
        -- repeat split; [assumption | assumption | lia].
      * cbn [fst]. repeat split; [assumption | assumption | lia].
Qed.

Lemma unlockedOf_ensured meta :
  unlocked (default {| bestDepth := 1; unlocked := []; lastUnlockAt := 0 |}
                    (Meta.depth meta))
  = unlockedOf meta.
Proof. unfold unlockedOf. now destruct (Meta.depth meta). Qed.

(** X19.  The modifiers sampled for a zone are pairwise distinct, at most eight
    and at most [modifierSlots(depth)] many; each is the id of a pool
    entry that is unlocked or in the act's baseline.  Sampling unlocks
    nothing. *)
Theorem sampleActive_spec depth actConfig s meta :
  let '(picked, meta', _) := sampleActive depth actConfig s meta in
  NoDup picked
  /\ (length picked <= 8)%nat
  /\ Z.of_nat (length picked) <= Z.max 0 (modifierSlots depth)
  /\ (forall id, id ∈ picked ->
        id ∈ mod_id <$> poolOf actConfig
        /\ (id ∈ unlockedOf meta \/ id ∈ baselineOf actConfig))
  /\ unlockedOf meta' = unlockedOf meta.
Proof.
  unfold sampleActive, ensureMeta. cbv zeta.
  change (match actConfig with
          | Some act =>
            match act_modifiers act with
            | Some m => default ["ELITE_PACKS"%string] (cfg_baseline m)
            | None => ["ELITE_PACKS"%string]
            end
          | None => ["ELITE_PACKS"%string]
          end) with (baselineOf actConfig).
  assert (Hu : unlockedOf (set_depth
                 (default {| bestDepth := 1; unlocked := []; lastUnlockAt := 0 |}
                          (Meta.depth meta)) meta) = unlockedOf meta).
  { unfold unlockedOf at 1. cbn [set_depth Meta.depth]. apply unlockedOf_ensured. }
  rewrite unlockedOf_ensured.
  destruct (filter _ (poolOf actConfig)) as [| a av] eqn:Hf.
  - repeat split; try assumption; cbn [length]; try lia.
    + constructor.
    + inversion H.
    + inversion H.
  - rewrite <- Hf.
    pose proof (fill_spec (Z.to_nat (clamp (modifierSlots depth) 0 8))
                  (filter (fun m => mod_id m ∈
                             (list_to_set (unlockedOf meta) ∪
                              list_to_set (baselineOf actConfig) : gset string))
                          (poolOf actConfig)) [] s) as Hfill.
    cbv zeta in Hfill.
    destruct (fill _ _ [] s) as [picked s']. cbn [fst length] in Hfill.
    destruct Hfill as (Hnd & Hin & Hlen).
    { constructor. }
    { intros id Hid. inversion Hid. }
    unfold clamp in Hlen.
    split; [exact Hnd |]. split; [lia |]. split; [lia |]. split; [| exact Hu].
    intros id Hid. apply Hin, list_elem_of_fmap in Hid.
    destruct Hid as (m & -> & Hm). apply list_elem_of_filter in Hm.
    destruct Hm as [Hun Hpool]. split.
    + apply list_elem_of_fmap. now exists m.
    + apply elem_of_union in Hun.
      destruct Hun as [Hun | Hun]; apply elem_of_list_to_set in Hun; tauto.
Qed.

(** X20.  A milestone check that returns an id was made at depth 25 or more;
    the id belongs to a pool entry, was not unlocked before, and is
    appended to the unlocked list.  A check that returns [null] leaves
    the unlocked list as it was. *)
Theorem maybeUnlock_fresh depth actConfig s meta :
  let '(r, meta', _) := maybeUnlock depth actConfig s meta in
  match r with
  | Some id =>
    UNLOCK_EVERY_DEPTH <= depth
    /\ (id ∉ unlockedOf meta)
    /\ id ∈ mod_id <$> poolOf actConfig
    /\ unlockedOf meta' = unlockedOf meta ++ [id]
  | None => unlockedOf meta' = unlockedOf meta
  end.
Proof.
  unfold maybeUnlock, ensureMeta. cbv zeta.
  assert (Hu : unlockedOf (set_depth
                 (default {| bestDepth := 1; unlocked := []; lastUnlockAt := 0 |}
                          (Meta.depth meta)) meta) = unlockedOf meta).
  { unfold unlockedOf at 1. cbn [set_depth Meta.depth]. apply unlockedOf_ensured. }
  rewrite !unlockedOf_ensured.
  destruct (Z.ltb_spec depth UNLOCK_EVERY_DEPTH) as [Hlt | Hge]; [exact Hu |].
  destruct (_ <=? _); [exact Hu |].
  destruct (filter _ (poolOf actConfig)) as [| c cs] eqn:Hf.
  - unfold unlockedOf. cbn [set_depth Meta.depth unlocked]. reflexivity.
  - pose proof (DepthRulesFacts.weightedPick_member (c :: cs) s) as Hmem.
    destruct (weightedPick (c :: cs) s) as [[p |] s']; [| exact Hu].
    specialize (Hmem p eq_refl). rewrite <- Hf in Hmem.
    apply list_elem_of_In, list_elem_of_filter in Hmem.
    destruct Hmem as [Hnew Hpool]. rewrite elem_of_list_to_set in Hnew.
    split; [exact Hge |]. split; [exact Hnew |]. split.
    + apply list_elem_of_fmap. now exists p.
    + unfold unlockedOf. cbn [set_depth Meta.depth unlocked]. reflexivity.
Qed.

(** X21.  The number of modifier slots is at least one and never decreases
    with depth. *)
Theorem modifierSlots_monotone d1 d2 :
  d1 <= d2 -> 1 <= modifierSlots d1 <= modifierSlots d2.
Proof.
  intros Hle. unfold modifierSlots.
  assert (Hdiv : forall d, 200 <= d -> 0 <= (d - 200) / 150)
    by (intros d Hd; apply Z.div_pos; lia).
  assert (Hmono : 200 <= d1 -> (d1 - 200) / 150 <= (d2 - 200) / 150)
    by (intros Hd; apply Z.div_le_mono; lia).
  repeat match goal with
         | |- context [?a <? ?b] => destruct (Z.ltb_spec a b)
         end;
    try lia;
    try (specialize (Hdiv d1 ltac:(lia)); lia);
    try (specialize (Hdiv d2 ltac:(lia)); lia).
Qed.

End ModifierFacts.

(** ** Loot drops *)

Module LootFacts.

Import Loot.

Lemma leb_false a b : Qle_bool a b = false -> (b < a)%Q.
Proof.
  intros H. apply Qnot_le_lt. intros Hle. apply Qle_bool_iff in Hle. congruence.
Qed.

Lemma min_cases a b :
  (a <= b /\ Js.min a b = a)%Q \/ (b < a /\ Js.min a b = b)%Q.
Proof.
  unfold Js.min. destruct (Qle_bool a b) eqn:H.
  - left. split; [now apply Qle_bool_iff | reflexivity].
  - right. split; [now apply leb_false | reflexivity].
Qed.

Lemma max_cases a b :
  (a <= b /\ Js.max a b = b)%Q \/ (b < a /\ Js.max a b = a)%Q.
Proof.
  unfold Js.max. destruct (Qle_bool a b) eqn:H.
  - left. split; [now apply Qle_bool_iff | reflexivity].
  - right. split; [now apply leb_false | reflexivity].
Qed.

Lemma tiltOf_range depth : (0 <= tiltOf depth <= 0.25)%Q.
Proof.
  unfold tiltOf. cbv zeta.
  generalize ((inject_Z (Z.max 1 (if depth =? 0 then 1 else depth)) - 50) / 400)%Q.
  intros q.
  destruct (max_cases 0 q) as [[H1 ->] | [H1 ->]];
    [destruct (min_cases 0.25 q) as [[H2 ->] | [H2 ->]] |
     destruct (min_cases 0.25 0) as [[H2 ->] | [H2 ->]]];
    lra.
Qed.

(** X22.  The rarity tilt lies between 0 and 0.25, and it is positive exactly
    from depth 51 on. *)
Theorem tilt_bounded depth :
  (0 <= tiltOf depth <= 0.25)%Q /\ ((0 < tiltOf depth)%Q <-> 50 < depth).
Proof.
  unfold tiltOf. cbv zeta.
  set (d := Z.max 1 (if depth =? 0 then 1 else depth)).
  assert (Hd : 50 < d <-> 50 < depth)
    by (unfold d; destruct (Z.eqb_spec depth 0); lia).
  rewrite <- Hd. clearbody d.
  assert (Hq : (0 < (inject_Z d - 50) / 400)%Q <-> 50 < d).
  { assert (E : ((inject_Z d - 50) / 400 == (inject_Z d - 50) * (1 # 400))%Q)
      by (unfold Qdiv; reflexivity).
    rewrite E, Zlt_Qlt. change (inject_Z 50) with 50%Q.
    split; intros H; lra. }
  set (q := ((inject_Z d - 50) / 400)%Q) in *. clearbody q.
  destruct (max_cases 0 q) as [[H1 ->] | [H1 ->]];
    [destruct (min_cases 0.25 q) as [[H2 ->] | [H2 ->]] |
     destruct (min_cases 0.25 0) as [[H2 ->] | [H2 ->]]].
  - split; [lra |]. rewrite <- Hq. split; intros _; lra.
  - split; [lra |]. exact Hq.
  - lra.
  - split; [lra |]. rewrite <- Hq. split; intros H; lra.
Qed.

Lemma get_set_same key v w : get key (set key v w) = Some v.
Proof.
  induction w as [| [k v'] rest IH]; cbn [set get].
  - now rewrite String.eqb_refl.
  - destruct (String.eqb k key) eqn:Hk; cbn [get]; rewrite Hk;
      [reflexivity | exact IH].
Qed.

Lemma get_set_other key key' v w :
  key' <> key -> get key' (set key v w) = get key' w.
Proof.
  intros Hne. induction w as [| [k v'] rest IH]; cbn [set get].
  - destruct (String.eqb_spec key key'); [congruence | reflexivity].
  - destruct (String.eqb_spec k key) as [-> | Hk]; cbn [get].
    + destruct (String.eqb_spec key key'); [congruence | reflexivity].
    + destruct (String.eqb k key'); [reflexivity | exact IH].
Qed.

Lemma get_scaleKey_same key f w :
  get key (scaleKey key f w) = Some (default 0 (get key w) * f)%Q.
Proof. apply get_set_same. Qed.

Lemma get_scaleKey_other key key' f w :
  key' <> key -> get key' (scaleKey key f w) = get key' w.
Proof. apply get_set_other. Qed.

Lemma get_nonneg key w :
  Forall (fun e => (0 <= snd e)%Q) w -> (0 <= default 0 (get key w))%Q.
Proof.
  induction 1 as [| [k v] rest Hv _ IH]; cbn [get default]; [lra |].
  destruct (String.eqb k key); [exact Hv | exact IH].
Qed.

Lemma scale_down (c f : Q) : (0 <= c -> f <= 1 -> c * f <= c)%Q.
Proof.
  intros Hc Hf.
  assert (H : (f * c <= 1 * c)%Q) by (apply Qmult_le_compat_r; assumption).
  lra.
Qed.

Lemma scale_up (c f : Q) : (0 <= c -> 1 <= f -> c <= c * f)%Q.
Proof.
  intros Hc Hf.
  assert (H : (1 * c <= f * c)%Q) by (apply Qmult_le_compat_r; assumption).
  lra.
Qed.

(** X23.  On a table of non-negative weights the depth tilt never raises the
    weights of common and uncommon, never lowers those of legendary and
    mythic, and leaves every other rarity as it is. *)
Theorem tilt_favours_high_rarity depth (w : Weights) :
  Forall (fun e => (0 <= snd e)%Q) w ->
  let w' := tilted (tiltOf depth) w in
  (default 0 (get "common" w') <= default 0 (get "common" w))%Q
  /\ (default 0 (get "uncommon" w') <= default 0 (get "uncommon" w))%Q
  /\ (default 0 (get "legendary" w) <= default 0 (get "legendary" w'))%Q
  /\ (default 0 (get "mythic" w) <= default 0 (get "mythic" w'))%Q
  /\ forall key,
       key <> "common"%string -> key <> "uncommon"%string ->
       key <> "legendary"%string -> key <> "mythic"%string ->
       get key w' = get key w.
Proof.
  intros Hw. cbv zeta. unfold tilted.
  destruct (tiltOf_range depth) as [Ht0 Ht1].
  generalize dependent (tiltOf depth). intros t Ht0 Ht1.
  destruct (Js.ltb 0 t); [| repeat split; apply Qle_refl].
  pose proof (get_nonneg "common" w Hw) as Hc.
  pose proof (get_nonneg "uncommon" w Hw) as Hu.
  pose proof (get_nonneg "legendary" w Hw) as Hl.
  pose proof (get_nonneg "mythic" w Hw) as Hm.
  repeat split.
  - rewrite !get_scaleKey_other by discriminate.
    rewrite get_scaleKey_same. cbn [default].
    apply scale_down; [exact Hc | lra].
  - rewrite !get_scaleKey_other by discriminate.
    rewrite get_scaleKey_same. cbn [default].
    rewrite get_scaleKey_other by discriminate.
    apply scale_down; [exact Hu | lra].
  - rewrite get_scaleKey_other by discriminate.
    rewrite get_scaleKey_same. cbn [default].
    rewrite !get_scaleKey_other by discriminate.
    apply scale_up; [exact Hl | lra].
  - rewrite get_scaleKey_same. cbn [default].
    rewrite !get_scaleKey_other by discriminate.
    apply scale_up; [exact Hm | lra].
  - intros key H1 H2 H3 H4. now rewrite !get_scaleKey_other.
Qed.

Lemma sum_ge (entries : Weights) : forall acc,
  Forall (fun e => (0 < snd e)%Q) entries ->
  (acc <= fold_left (fun total e => total + snd e) entries acc)%Q.
Proof.
  induction entries as [| e rest IH]; intros acc H; cbn [fold_left].
  - apply Qle_refl.
  - inversion H as [| ? ? He Hrest]; subst.
    eapply Qle_trans; [| apply IH, Hrest]. lra.
Qed.

Lemma sum_pos (entries : Weights) :
  Forall (fun e => (0 < snd e)%Q) entries -> entries <> [] ->
  (0 < fold_left (fun total e => total + snd e) entries 0)%Q.
Proof.
  destruct entries as [| e rest]; intros H Hne; [contradiction |].
  inversion H as [| ? ? He Hrest]; subst. cbn [fold_left].
  eapply Qlt_le_trans; [| apply sum_ge, Hrest]. lra.
Qed.

Lemma scan_key r (entries : Weights) : forall k,
  scan r entries = Some k -> exists v, In (k, v) entries.
Proof.
  revert r. induction entries as [| [k' v] rest IH]; intros r k; cbn [scan];
    [discriminate |].
  destruct (Js.leb (r - v) 0).
  - intros [= <-]. exists v. now left.
  - intros H. destruct (IH _ _ H) as [v' Hin]. exists v'. now right.
Qed.

(** X24.  The rarity picked for a drop is a key of the tilted table of the
    kill's tier whose weight is positive.  [null] is returned only when
    the table has no positive weight, and then the stream is not
    advanced. *)
Theorem pickRarityForDrop_positive cfg kill depth rng :
  let table := tilted (tiltOf depth) (tierWeights cfg kill) in
  match fst (pickRarityForDrop cfg kill depth rng) with
  | Some k => exists v, In (k, v) table /\ (0 < v)%Q
  | None =>
    Forall (fun e => (snd e <= 0)%Q) table
    /\ snd (pickRarityForDrop cfg kill depth rng) = rng
  end.
Proof.
  cbv zeta. unfold pickRarityForDrop. cbv zeta.
  generalize (tilted (tiltOf depth) (tierWeights cfg kill)). intros w.
  assert (Hpos : Forall (fun e : string * Q => (0 < snd e)%Q)
                        (List.filter (fun e => Js.ltb 0 (snd e)) w)).
  { apply List.Forall_forall. intros e He. apply filter_In in He.
    now apply ZoneFacts.ltb_lt. }
  assert (Hsub : forall k v,
             In (k, v) (List.filter (fun e => Js.ltb 0 (snd e)) w) ->
             exists v', In (k, v') w /\ (0 < v')%Q).
  { intros k v Hin. apply filter_In in Hin. destruct Hin as [Hin Hv].
    exists v. split; [exact Hin | now apply ZoneFacts.ltb_lt in Hv]. }
  destruct (Js.leb _ 0) eqn:Htotal.
  - cbn [SeededRandom.ret fst snd]. split; [| reflexivity].
    apply Qle_bool_iff in Htotal.
    destruct (List.filter (fun e => Js.ltb 0 (snd e)) w) as [| e rest] eqn:Hf.
    + apply List.Forall_forall. intros e He.
      destruct (Js.ltb 0 (snd e)) eqn:Hb.
      * assert (Hin : In e (List.filter (fun e => Js.ltb 0 (snd e)) w))
          by (apply filter_In; now split).
        rewrite Hf in Hin. contradiction.
      * unfold Js.ltb in Hb. apply negb_false_iff in Hb.
        now apply Qle_bool_iff in Hb.
    + exfalso. pose proof (sum_pos (e :: rest) Hpos ltac:(discriminate)) as Hs.
      eapply Qlt_irrefl, Qlt_le_trans; eassumption.
  - unfold SeededRandom.bind, SeededRandom.ret.
    destruct (SeededRandom.next rng) as [n rng']. cbn [fst].
    destruct (scan _ _) as [k |] eqn:Hscan.
    + apply scan_key in Hscan. destruct Hscan as [v Hin]. eapply Hsub, Hin.
    + destruct (last _) as [[k v] |] eqn:Hlast; cbn [fmap option_fmap option_map fst].
      * apply FreshnessFacts.last_member in Hlast. eapply Hsub, Hlast.
      * exfalso. apply last_None in Hlast. rewrite Hlast in Htotal.
        cbn [fold_left] in Htotal. unfold Js.leb in Htotal. discriminate.
Qed.

Ltac pickup_facts :=
  cbn [length]; repeat split; try lia;
  repeat constructor; cbn [itemSeed ptype value]; eauto.

(** X25.  With a loot configuration, a kill adds between one and three pickups,
    in this order: at most one item, exactly one cells pickup whose value
    is 50, 20 or 5 by tier, at most one scrap pickup.  The loot serial
    advances by the number of items dropped, each item carries a seed,
    and the run seed is kept. *)
Theorem checkLootDrop_pickups kill st c :
  cfg st = Some c ->
  let st' := checkLootDrop kill st in
  exists items cells scraps,
    pickups st' = pickups st ++ items ++ [cells] ++ scraps
    /\ (length items <= 1)%nat
    /\ (length scraps <= 1)%nat
    /\ Forall (fun p => ptype p = "item"%string /\ is_Some (itemSeed p)) items
    /\ ptype cells = "cells"%string
    /\ value cells = Some (if isBoss kill then 50 else if isElite kill then 20 else 5)
    /\ Forall (fun p => ptype p = "scrap"%string) scraps
    /\ Bullets.lootSerial (run st')
       = Bullets.lootSerial (run st) + Z.of_nat (length items)
    /\ Bullets.run_seed (run st') = Bullets.run_seed (run st).
Proof.
  intros Hc. cbv zeta. unfold checkLootDrop. rewrite Hc.
  unfold Bullets.itemSeed. cbv zeta.
  repeat (cbv beta iota;
          match goal with
          | |- context [if ?b then _ else _] => is_var b; destruct b
          | |- context [let (_, _) := ?e in _] =>
            lazymatch e with
            | (let (_, _) := _ in _) => fail
            | (if _ then _ else _) => fail
            | _ => idtac
            end;
            destruct e as [? ?] eqn:?
          end);
    cbn [pickups run Bullets.lootSerial Bullets.run_seed];
    rewrite <- ?app_assoc;
    first
      [ solve [eexists [_], _, [_]; split; [reflexivity |]; pickup_facts]
      | solve [eexists [_], _, []; split; [reflexivity |]; pickup_facts]
      | solve [eexists [], _, [_]; split; [reflexivity |]; pickup_facts]
      | solve [eexists [], _, []; split; [reflexivity |]; pickup_facts] ].
Qed.

End LootFacts.

(** ** Materializing and despawning *)

Module PassFacts.

Import MapGenerator World.

(** Reduce the projections of updated records. *)
Ltac fields :=
  cbn [World.currentZone World.currentAct World.zoneIndex World.spawnRadius
       World.despawnRadius World.activeEnemies World.enemyGrid World.eliteGrid
       World.rngEncounters World.spawnedEnemyCount World.spawnedEliteCount
       World.bossSpawned World.state World.data_acts World.data_config
       World.meta World.run_seed World.world_zoneIndex World.world_seed
       World.world_seeds World.player World.enemies World.objects World.nextId
       World.scene World.announcements World.hubRendered World.console
       World.canvas World.camera World.random World.id World.x World.y
       World.vx World.vy World.speed World.dead World.isBoss World.name
       World.spawnRef World.level World.epatrol World.epatrolRadius
       World.patrolOrigin World.patrolAngle World.player_x World.player_y
       World.player_vx World.player_vy World.set_active World.set_killed
       World.set_enemyId World.set_enemySpawns World.set_eliteSpawns
       World.set_bossSpawn World.set_portals World.set_depth World.set_mods
       World.set_layout World.set_backdrop World.set_signature World.set_seeds
       World.set_e_id World.set_e_x World.set_e_y World.set_e_vx World.set_e_vy
       World.set_e_spawnRef World.set_e_level World.set_e_epatrol
       World.set_e_epatrolRadius World.set_e_patrolOrigin
       World.set_e_patrolAngle World.set_data_acts World.set_meta
       World.set_world_zoneIndex World.set_world_seed World.set_world_seeds
       World.set_player World.set_enemies World.set_objects World.set_nextId
       World.set_scene World.set_announcements World.set_hubRendered
       World.set_console World.set_camera World.set_random
       World.set_currentZone World.set_currentAct World.set_zoneIndex
       World.set_spawnRadius World.set_despawnRadius World.set_activeEnemies
       World.set_enemyGrid World.set_eliteGrid World.set_rngEncounters
       World.set_spawnedEnemyCount World.set_spawnedEliteCount
       World.set_bossSpawned World.set_state
       sx sy stype patrol patrolRadius active killed enemyId
       width height spawn exit enemySpawns eliteSpawns bossSpawn portals depth
       mbind option_bind fmap option_fmap option_map fst snd].

Section WithEnv.
Context {math : Js.Math} {factory : Enemies}.

Lemma getSpawn_updSpawn_ne f ref ref' zone :
  ref <> ref' -> getSpawn (updSpawn f ref zone) ref' = getSpawn zone ref'.
Proof.
  intros Hne. destruct ref as [i | i |], ref' as [j | j |];
    cbn [getSpawn updSpawn set_enemySpawns set_eliteSpawns set_bossSpawn
         enemySpawns eliteSpawns bossSpawn];
    try reflexivity; try congruence;
    apply list_lookup_alter_ne; congruence.
Qed.

Lemma getSpawn_updSpawn_eq f ref zone :
  getSpawn (updSpawn f ref zone) ref = f <$> getSpawn zone ref.
Proof.
  destruct ref as [i | i |];
    cbn [getSpawn updSpawn set_enemySpawns set_eliteSpawns set_bossSpawn
         enemySpawns eliteSpawns bossSpawn];
    try reflexivity; apply list_lookup_alter_eq.
Qed.

(** *** Passes leave the other descriptors alone *)

Lemma spawnEnemy_descriptor ref isElite w ref' :
  ref <> ref' ->
  descriptor (spawnEnemy ref isElite w) ref' = descriptor w ref'.
Proof.
  intros Hne. unfold spawnEnemy, descriptor.
  destruct (currentZone w) as [zone |] eqn:Hz; [| now rewrite Hz].
  destruct (getSpawn zone ref) as [s |]; [| now rewrite Hz].
  destruct (Enemies_spawn _ _ _ _ _ _) as [addr st].
  destruct (rngEncounters w) as [g |];
    [destruct (SeededRandom.next g) | destruct (Ambient.random _)];
    fields; now apply getSpawn_updSpawn_ne.
Qed.

Lemma spawnBoss_descriptor w ref' :
  RefBoss <> ref' -> descriptor (spawnBoss w) ref' = descriptor w ref'.
Proof.
  intros Hne. unfold spawnBoss, descriptor.
  destruct (currentZone w) as [zone |] eqn:Hz; [| now rewrite Hz].
  destruct (bossSpawn zone) as [s |]; [| now rewrite Hz].
  destruct (Enemies_spawn _ _ _ _ _ _) as [addr st].
  fields. now apply getSpawn_updSpawn_ne.
Qed.

Lemma despawnEnemy_descriptor ref w ref' :
  ref <> ref' -> descriptor (despawnEnemy ref w) ref' = descriptor w ref'.
Proof.
  intros Hne. unfold despawnEnemy, descriptor.
  destruct (currentZone w) as [zone |] eqn:Hz; [| now rewrite Hz].
  destruct (getSpawn zone ref) as [s |]; [| now rewrite Hz].
  fields. now apply getSpawn_updSpawn_ne.
Qed.

Lemma considerSpawn_keeps isElite w ref' ref s :
  descriptor w ref = Some s -> killed s = true ->
  descriptor (considerSpawn isElite w ref') ref = Some s.
Proof.
  intros Hd Hk. unfold considerSpawn.
  destruct (currentZone w) as [zone |] eqn:Hz; [| exact Hd].
  destruct (getSpawn zone ref') as [s' |] eqn:Hs'; [| exact Hd].
  destruct (decide (ref' = ref)) as [-> | Hne].
  - unfold descriptor in Hd. rewrite Hz in Hd. cbn [mbind option_bind] in Hd.
    assert (s' = s) as -> by congruence. rewrite Hk.
    unfold descriptor. rewrite Hz. exact Hd.
  - destruct (killed s'); [exact Hd |].
    destruct (_ && _); [| exact Hd].
    now rewrite spawnEnemy_descriptor.
Qed.

Lemma considerDespawn_keeps w addr ref s :
  descriptor w ref = Some s -> active s = false ->
  descriptor (considerDespawn w addr) ref = Some s.
Proof.
  intros Hd Ha. unfold considerDespawn.
  destruct (currentZone w) as [zone |] eqn:Hz; [| exact Hd].
  destruct (objects (state w) !! addr) as [enemy |]; [| exact Hd].
  destruct (dead enemy); [exact Hd |].
  destruct (spawnRef enemy) as [ref' |]; [| exact Hd].
  destruct (getSpawn zone ref') as [s' |] eqn:Hs'; [| exact Hd].
  destruct (decide (ref' = ref)) as [-> | Hne].
  - unfold descriptor in Hd. rewrite Hz in Hd. cbn [mbind option_bind] in Hd.
    assert (s' = s) as -> by congruence. rewrite Ha. cbn [andb].
    unfold descriptor. rewrite Hz. exact Hd.
  - destruct (_ && _); [| exact Hd].
    now rewrite despawnEnemy_descriptor.
Qed.

Lemma checkBossSpawn_keeps w ref s :
  descriptor w ref = Some s -> killed s = true ->
  descriptor (checkBossSpawn w) ref = Some s.
Proof.
  intros Hd Hk. unfold checkBossSpawn.
  destruct (currentZone w) as [zone |] eqn:Hz; [| exact Hd].
  destruct (bossSpawn zone) as [s' |] eqn:Hs'; [| exact Hd].
  destruct (decide (RefBoss = ref)) as [<- | Hne].
  - unfold descriptor in Hd. rewrite Hz in Hd.
    cbn [mbind option_bind getSpawn] in Hd.
    assert (s' = s) as -> by congruence. rewrite Hk.
    unfold descriptor. rewrite Hz. exact Hd.
  - destruct (killed s'); [exact Hd |].
    destruct (_ && _); [| exact Hd].
    now rewrite spawnBoss_descriptor.
Qed.

(** X26.  A descriptor that is killed and inactive comes out of the spawn and
    despawn passes of [update] exactly as it went in: nothing is
    materialized from it again, whatever the player's position, the
    grids and the active entities are. *)
Theorem killed_descriptor_untouched w ref s :
  descriptor w ref = Some s ->
  killed s = true ->
  active s = false ->
  descriptor (spawnPasses w) ref = Some s.
Proof.
  intros Hd Hk Ha. unfold spawnPasses.
  apply checkBossSpawn_keeps; [| exact Hk].
  assert (H1 : descriptor (checkEnemySpawns w) ref = Some s).
  { unfold checkEnemySpawns. destruct (currentZone w); [| exact Hd].
    apply (SeedUtilFacts.fold_left_invariant _
             (fun w => descriptor w ref = Some s)); [| exact Hd].
    intros a b H. now apply considerSpawn_keeps. }
  assert (H2 : descriptor (despawnFar (checkEnemySpawns w)) ref = Some s).
  { unfold despawnFar.
    apply (SeedUtilFacts.fold_left_invariant _
             (fun w => descriptor w ref = Some s)); [| exact H1].
    intros a b H. now apply considerDespawn_keeps. }
  unfold checkEliteSpawns. destruct (currentZone _); [| exact H2].
  apply (SeedUtilFacts.fold_left_invariant _
           (fun w => descriptor w ref = Some s)); [| exact H2].
  intros a b H. now apply considerSpawn_keeps.
Qed.

(** *** Materializing, then despawning *)

Lemma spawnEnemy_effect ref isElite w zone s :
  currentZone w = Some zone ->
  getSpawn zone ref = Some s ->
  let addr := nextId (state w) in
  let w1 := spawnEnemy ref isElite w in
  currentZone w1
  = Some (updSpawn (fun s => set_enemyId (Some addr) (set_active true s)) ref zone)
  /\ enemies (state w1) = enemies (state w) ++ [addr]
  /\ activeEnemies w1 = activeEnemies w ++ [addr]
  /\ nextId (state w1) = S addr
  /\ rngEncounters w1 = (fun g => snd (SeededRandom.next g)) <$> rngEncounters w
  /\ (exists e,
        objects (state w1) !! addr = Some e
        /\ id e = addr /\ spawnRef e = Some ref
        /\ x e = sx s /\ y e = sy s
        /\ patrolOrigin e = Some {| px := sx s; py := sy s |})
  /\ (forall a, a <> addr -> objects (state w1) !! a = objects (state w) !! a).
Proof.
  intros Hz Hs. cbv zeta. unfold spawnEnemy. rewrite Hz, Hs.
  unfold Enemies_spawn. cbv beta iota zeta.
  destruct (rngEncounters w) as [g |];
    cbn [fmap option_fmap option_map];
    [destruct (SeededRandom.next g) as [r g'] |
     destruct (Ambient.random _) as [r a']];
    fields;
    match goal with
    | |- context [alter ?f ?k (<[?k := ?v]> ?m) !! ?k] =>
      rewrite (lookup_alter_eq f (<[k := v]> m) k), (lookup_insert_eq m k v)
    end;
    fields;
    (repeat split;
     [ eexists; split; [reflexivity |];
       fields; repeat split
     | intros a Ha; rewrite lookup_alter_ne, lookup_insert_ne by congruence;
       reflexivity ]).
Qed.

Lemma removeFirstById_snoc objs i l a :
  Forall (fun b => (id <$> objs !! b) <> Some i) l ->
  (id <$> objs !! a) = Some i ->
  removeFirstById objs (Some i) (l ++ [a]) = l.
Proof.
  intros Hl Ha. induction Hl as [| b l Hb _ IH]; cbn [app removeFirstById].
  - rewrite bool_decide_eq_true_2; [reflexivity |].
    split; [exact Ha |]. destruct (objs !! a); [eauto | discriminate].
  - rewrite bool_decide_eq_false_2 by tauto. now rewrite IH.
Qed.

Lemma filter_keep_snoc {A} (f : A -> bool) l a :
  Forall (fun b => f b = true) l -> f a = false ->
  List.filter f (l ++ [a]) = l.
Proof.
  intros Hl Ha. rewrite List.filter_app. cbn [List.filter]. rewrite Ha.
  rewrite app_nil_r. induction Hl as [| b l Hb _ IH]; cbn [List.filter];
    [reflexivity |]. now rewrite Hb, IH.
Qed.

(** X27.  Materializing a dormant descriptor and despawning it again restores
    the descriptor, [State.enemies] and the active list, when the next
    identity is unused and no active entity refers to the descriptor.
    What the round trip leaves behind is one identity and one draw of
    the encounter stream consumed. *)
Theorem materialize_despawn_roundtrip ref isElite w zone s :
  currentZone w = Some zone ->
  getSpawn zone ref = Some s ->
  active s = false ->
  enemyId s = None ->
  Forall (fun a => a <> nextId (state w)
                   /\ (id <$> objects (state w) !! a) <> Some (nextId (state w)))
         (enemies (state w)) ->
  Forall (fun a => a <> nextId (state w)
                   /\ (e ← objects (state w) !! a; spawnRef e) <> Some ref)
         (activeEnemies w) ->
  let w' := despawnEnemy ref (spawnEnemy ref isElite w) in
  descriptor w' ref = Some s
  /\ enemies (state w') = enemies (state w)
  /\ activeEnemies w' = activeEnemies w
  /\ nextId (state w') = S (nextId (state w))
  /\ rngEncounters w'
     = (fun g => snd (SeededRandom.next g)) <$> rngEncounters w.
Proof.
  intros Hz Hs Hact Hid Hen Hav. cbv zeta.
  destruct (spawnEnemy_effect ref isElite w zone s Hz Hs)
    as (Hz1 & Hen1 & Hav1 & Hn1 & Hr1 & (e & He & Heid & Heref & _) & Hother).
  cbv zeta in *.
  generalize dependent (spawnEnemy ref isElite w). intros w1 **.
  unfold despawnEnemy, descriptor. rewrite Hz1, getSpawn_updSpawn_eq, Hs.
  fields. rewrite getSpawn_updSpawn_eq, getSpawn_updSpawn_eq, Hs. fields.
  split; [| split; [| split; [| split]]].
  - destruct s. cbn in Hact, Hid. subst. reflexivity.
  - rewrite Hen1. apply removeFirstById_snoc.
    + eapply Forall_impl; [exact Hen |]. intros a [Ha Hi]. cbv beta.
      now rewrite Hother.
    + now rewrite He, <- Heid.
  - rewrite Hav1. apply filter_keep_snoc.
    + eapply Forall_impl; [exact Hav |]. intros a [Ha Hr]. cbv beta.
      rewrite Hother by exact Ha. now apply bool_decide_eq_true_2.
    + rewrite He. cbn [mbind option_bind]. rewrite Heref.
      apply bool_decide_eq_false_2. tauto.
  - exact Hn1.
  - exact Hr1.
Qed.

End WithEnv.

End PassFacts.

(** ** Entering an act and a zone *)

Module ZoneEntryFacts.

Import MapGenerator World.

Lemma clamp_range (b v : Q) :
  (0 <= Js.max 0 (Js.min b v) <= Js.max 0 b)%Q.
Proof.
  destruct (LootFacts.min_cases b v) as [[H1 ->] | [H1 ->]];
    destruct (LootFacts.max_cases 0 b) as [[H2 E2] | [H2 E2]];
    try (destruct (LootFacts.max_cases 0 v) as [[H3 E3] | [H3 E3]]);
    rewrite ?E2, ?E3; lra.
Qed.

Section WithEnv.
Context {math : Js.Math} {factory : Enemies}.

Lemma loadZone_effect index w act :
  currentAct w = Some act ->
  exists w' zone,
    loadZone index w = Some w'
    /\ currentZone w' = Some zone
    /\ currentAct w' = Some act
    /\ depth zone = Some (index + 1)
    /\ zoneIndex w' = index
    /\ world_zoneIndex (state w') = Some index
    /\ activeEnemies w' = []
    /\ spawnedEnemyCount w' = 0
    /\ spawnedEliteCount w' = 0
    /\ bossSpawned w' = false
    /\ player (state w')
       = {| player_x := px (spawn zone); player_y := py (spawn zone);
            player_vx := 0; player_vy := 0 |}
    /\ camera (state w')
       = (Js.max 0
            (Js.min (num_or (Some (width zone)) 2000
                     - num_or (fst <$> canvas (state w)) 800)
                    (px (spawn zone) - num_or (fst <$> canvas (state w)) 800 / 2)),
          Js.max 0
            (Js.min (num_or (Some (height zone)) 2000
                     - num_or (snd <$> canvas (state w)) 600)
                    (py (spawn zone) - num_or (snd <$> canvas (state w)) 600 / 2)))%Q
    /\ enemies (state w') = enemies (state w)
    /\ objects (state w') = objects (state w)
    /\ data_acts (state w') = data_acts (state w).
Proof.
  intros Hact. unfold loadZone. rewrite Hact. cbn [mbind option_bind].
  repeat match goal with
         | |- context [let (_, _) := ?e in _] => destruct e
         end.
  do 2 eexists. cbv zeta. split; [reflexivity |].
  PassFacts.fields. split; [reflexivity |]. repeat split.
Qed.

(** X28.  With an act set, [loadZone(index)] succeeds and starts the zone
    afresh: depth [index + 1], no active entity, counters at zero, the
    player at rest on the spawn point, and the camera inside the zone
    on both axes.  [State.enemies] is not cleared. *)
Theorem loadZone_resets index w act :
  currentAct w = Some act ->
  exists w' zone,
    loadZone index w = Some w'
    /\ currentZone w' = Some zone
    /\ depth zone = Some (index + 1)
    /\ zoneIndex w' = index
    /\ world_zoneIndex (state w') = Some index
    /\ activeEnemies w' = []
    /\ spawnedEnemyCount w' = 0
    /\ spawnedEliteCount w' = 0
    /\ bossSpawned w' = false
    /\ player (state w')
       = {| player_x := px (spawn zone); player_y := py (spawn zone);
            player_vx := 0; player_vy := 0 |}
    /\ (0 <= fst (camera (state w'))
        <= Js.max 0 (num_or (Some (width zone)) 2000
                     - num_or (fst <$> canvas (state w)) 800))%Q
    /\ (0 <= snd (camera (state w'))
        <= Js.max 0 (num_or (Some (height zone)) 2000
                     - num_or (snd <$> canvas (state w)) 600))%Q
    /\ enemies (state w') = enemies (state w).
Proof.
  intros Hact.
  destruct (loadZone_effect index w act Hact)
    as (w' & zone & Hl & Hz & _ & Hd & Hi & Hwi & Ha & Hc1 & Hc2 & Hb & Hp
        & Hcam & He & _).
  exists w', zone. rewrite Hcam. cbn [fst snd].
  repeat split; try assumption; apply clamp_range.
Qed.

(** X29.  When the act configuration of the requested id is present, [init]
    returns [true]: the act is current, it carries the id and a 32-bit
    seed (the given seed when there is one), the configuration stored
    under the id is that same act, and the first zone is loaded at
    depth 1. *)
Theorem init_known_act actId seed w actConfig :
  (acts ← data_acts (state w); acts !! actId) = Some actConfig ->
  exists w' act zone,
    init actId seed w = Some (true, w')
    /\ currentAct w' = Some act
    /\ act_id act = Some actId
    /\ (exists s, act_seed act = Some s /\ 0 <= s < Js.two32)
    /\ (forall s0, seed = Some s0 -> act_seed act = Some (Js.toUint32 s0))
    /\ (acts ← data_acts (state w'); acts !! actId) = Some act
    /\ zoneIndex w' = 0
    /\ currentZone w' = Some zone
    /\ depth zone = Some 1
    /\ activeEnemies w' = [].
Proof.
  intros Hcfg.
  assert (Hfound : lookupAct (state w) actId = OwnAct actConfig).
  { unfold lookupAct. destruct (data_acts (state w)) as [acts |];
      [| discriminate]. cbn [mbind option_bind] in Hcfg. now rewrite Hcfg. }
  unfold init. rewrite Hfound. cbv beta iota zeta.
  match goal with
  | |- context [loadZone 0 ?w0] =>
    match w0 with
    | context [set_currentAct (Some ?a)] =>
      destruct (loadZone_effect 0 w0 a eq_refl)
        as (w' & zone & Hl & Hz & Ha & Hd & Hi & _ & Hact & _ & _ & _ & _
            & _ & _ & _ & Hacts);
      rewrite Hl; exists w', a, zone
    end
  end.
  cbn [mbind option_bind].
  split; [reflexivity |]. split; [exact Ha |]. split; [reflexivity |].
  cbn [act_seed]. split.
  { eexists. split; [reflexivity |]. apply JsFacts.toUint32_range. }
  split.
  { intros s0 ->. now rewrite JsFacts.toUint32_idem. }
  split.
  { rewrite Hacts. PassFacts.fields.
    destruct (data_acts (state w)) as [acts |]; [| discriminate].
    cbn [fmap option_fmap option_map mbind option_bind].
    apply lookup_insert_eq. }
  repeat split; assumption.
Qed.

(** X30.  With the player within 50 of the exit, the exit check loads the
    next zone: the zone index goes up by one, the new zone is one
    level deeper, and no entity is active.  Farther away the check
    changes nothing. *)
Theorem exit_advances_zone w zone e act :
  currentZone w = Some zone ->
  exit zone = Some e ->
  currentAct w = Some act ->
  if Js.hypot_lt (player_x (player (state w)) - px e)
                 (player_y (player (state w)) - py e) 50
  then exists w' zone',
         checkExit w = Some w'
         /\ zoneIndex w' = zoneIndex w + 1
         /\ currentZone w' = Some zone'
         /\ depth zone' = Some (zoneIndex w + 2)
         /\ activeEnemies w' = []
  else checkExit w = Some w.
Proof.
  intros Hz He Hact. unfold checkExit. rewrite Hz, He.
  destruct (Js.hypot_lt _ _ 50); [| reflexivity].
  unfold onExitReached.
  destruct (loadZone_effect (zoneIndex w + 1) w act Hact)
    as (w' & zone' & Hl & Hz' & _ & Hd & Hi & _ & Ha & _).
  exists w', zone'. rewrite Hd.
  repeat split; try assumption. f_equal. lia.
Qed.

(** On a name every object inherits and the table has no entry of its
    own for, [init] takes the path of a configured act. *)
Lemma init_inherited actId seed w :
  lookupAct (state w) actId = InheritedValue ->
  exists w' act zone,
    init actId seed w = Some (true, w')
    /\ currentAct w' = Some act
    /\ act_id act = Some actId
    /\ zoneIndex w' = 0
    /\ currentZone w' = Some zone
    /\ depth zone = Some 1
    /\ player (state w')
       = {| player_x := px (spawn zone); player_y := py (spawn zone);
            player_vx := 0; player_vy := 0 |}
    /\ data_acts (state w') = data_acts (state w).
Proof.
  intros Hfound. unfold init. rewrite Hfound. cbv beta iota zeta.
  match goal with
  | |- context [loadZone 0 ?w0] =>
    match w0 with
    | context [set_currentAct (Some ?a)] =>
      destruct (loadZone_effect 0 w0 a eq_refl)
        as (w' & zone & Hl & Hz & Ha & Hd & Hi & _ & _ & _ & _ & _ & Hp
            & _ & _ & _ & Hacts);
      rewrite Hl; exists w', a, zone
    end
  end.
  cbn [mbind option_bind].
  split; [reflexivity |]. split; [exact Ha |]. split; [reflexivity |].
  split; [exact Hi |]. split; [exact Hz |]. split; [exact Hd |].
  split; [exact Hp |]. exact Hacts.
Qed.

End WithEnv.

#[local] Existing Instance Samples.math.
#[local] Existing Instance Samples.factory.

(** C9.  The absence check of [init] misses the names every object
    inherits.  In a world with no current act and no zone, whose act table
    has the entries [boss] and [small] only, [init("constructor")] does
    not report a missing act: it returns [true], makes an act with the id
    [constructor] current, loads zone 0 at depth 1 and puts the player on
    its spawn point. *)
Theorem init_inherited_name :
  (acts ← data_acts (state Samples.world0); acts !! "constructor"%string) = None
  /\ currentAct Samples.world0 = None
  /\ currentZone Samples.world0 = None
  /\ exists w' act zone,
       init "constructor" None Samples.world0 = Some (true, w')
       /\ currentAct w' = Some act
       /\ act_id act = Some "constructor"%string
       /\ zoneIndex w' = 0
       /\ currentZone w' = Some zone
       /\ depth zone = Some 1
       /\ player (state w')
          = {| player_x := px (spawn zone); player_y := py (spawn zone);
               player_vx := 0; player_vy := 0 |}.
Proof.
  split; [vm_compute; reflexivity |]. split; [reflexivity |].
  split; [reflexivity |].
  destruct (init_inherited "constructor" None Samples.world0)
    as (w' & act & zone & Hi & Ha & Hid & Hzi & Hz & Hd & Hp & _).
  - vm_compute. reflexivity.
  - exists w', act, zone. repeat split; assumption.
Qed.

End ZoneEntryFacts.

(** ** The further properties at concrete inputs *)

Module FurtherInstances.

Import MapGenerator World Samples.
#[local] Existing Instance Samples.math.
#[local] Existing Instance Samples.factory.

Lemma range_bounds_witness :
  (inject_Z 100 <= fst (SeededRandom.range (inject_Z 100) (inject_Z 900)
                          (SeededRandom.new 42))
   < inject_Z 900)%Q.
Proof.
  destruct (RandomFacts.range_bounds 100 900 (SeededRandom.new 42)
              ltac:(lia) ltac:(lia) ltac:(lia)) as [[Hlo _] [Hhi _]].
  split; [exact Hlo | apply Hhi; lia].
Defined.

Lemma int_bounds_witness :
  2 <= fst (SeededRandom.int (inject_Z 2) (inject_Z 4) (SeededRandom.new 42)) <= 4.
Proof.
  destruct (RandomFacts.int_bounds 2 4 (SeededRandom.new 42)
              ltac:(lia) ltac:(lia) ltac:(lia)) as [Hb _].
  exact Hb.
Defined.

Lemma exit_opposite_spawn_witness :
  (200 < width (generate midAct 42 noOptions))%Q
  /\ (200 < height (generate midAct 42 noOptions))%Q
  /\ exists e, exit (generate midAct 42 noOptions) = Some e.
Proof.
  assert (Hw : (200 < width (generate midAct 42 noOptions))%Q)
    by (vm_compute; reflexivity).
  assert (Hh : (200 < height (generate midAct 42 noOptions))%Q)
    by (vm_compute; reflexivity).
  split; [exact Hw |]. split; [exact Hh |].
  destruct (ZoneFacts.exit_opposite_spawn midAct 42 noOptions Hw Hh)
    as (_ & e & He & _).
  exists e. exact He.
Defined.

Lemma obstacles_within_margin_witness :
  (400 <= width (generate midAct 42 noOptions))%Q
  /\ (200 <= height (generate midAct 42 noOptions))%Q
  /\ Forall (fun o => 15 <= radius o <= 80)
            (obstacles (generate midAct 42 noOptions)).
Proof.
  assert (Hw : (400 <= width (generate midAct 42 noOptions))%Q)
    by (vm_compute; discriminate).
  assert (Hh : (200 <= height (generate midAct 42 noOptions))%Q)
    by (vm_compute; discriminate).
  split; [exact Hw |]. split; [exact Hh |].
  eapply Forall_impl;
    [apply (ZoneFacts.obstacles_within_margin midAct 42 noOptions Hw Hh) |].
  intros o H. apply H.
Defined.

Lemma modifierSlots_monotone_witness :
  60 <= 400 /\ DepthRules.modifierSlots 60 <= DepthRules.modifierSlots 400.
Proof.
  assert (H : 60 <= 400) by lia.
  split; [exact H |].
  destruct (ModifierFacts.modifierSlots_monotone 60 400 H) as [_ Hm].
  exact Hm.
Defined.

Lemma tilt_favours_high_rarity_witness :
  Forall (fun e : string * Q => (0 <= snd e)%Q) Loot.defaults_boss
  /\ (default 0 (Loot.get "mythic" Loot.defaults_boss)
      <= default 0 (Loot.get "mythic"
                      (Loot.tilted (Loot.tiltOf 60) Loot.defaults_boss)))%Q.
Proof.
  assert (H : Forall (fun e : string * Q => (0 <= snd e)%Q) Loot.defaults_boss)
    by (repeat constructor; vm_compute; discriminate).
  split; [exact H |].
  destruct (LootFacts.tilt_favours_high_rarity 60 Loot.defaults_boss H)
    as (_ & _ & _ & Hm & _).
  exact Hm.
Defined.

Lemma checkLootDrop_pickups_witness :
  exists items cells scraps,
    Loot.pickups (Loot.checkLootDrop bossKill lootState)
    = Loot.pickups lootState ++ items ++ [cells] ++ scraps
    /\ Loot.value cells = Some 50.
Proof.
  destruct (LootFacts.checkLootDrop_pickups bossKill lootState _ eq_refl)
    as (items & cells & scraps & Hp & _ & _ & _ & _ & Hv & _).
  exists items, cells, scraps. split; [exact Hp | exact Hv].
Defined.

Lemma killed_descriptor_untouched_witness :
  descriptor (spawnPasses (outpostWorld true 400 400)) (RefEnemy 0)
  = Some (scout true).
Proof.
  apply (PassFacts.killed_descriptor_untouched (outpostWorld true 400 400)
           (RefEnemy 0) (scout true));
    reflexivity.
Defined.

Lemma materialize_despawn_roundtrip_witness :
  descriptor (despawnEnemy (RefEnemy 0)
                (spawnEnemy (RefEnemy 0) false (outpostWorld false 400 400)))
             (RefEnemy 0)
  = Some (scout false).
Proof.
  refine (proj1 (PassFacts.materialize_despawn_roundtrip (RefEnemy 0) false
                   (outpostWorld false 400 400) (outpost false) (scout false)
                   eq_refl eq_refl eq_refl eq_refl _ _));
    constructor.
Defined.

Lemma loadZone_resets_witness :
  exists w' zone,
    loadZone 0 (set_currentAct (Some smallAct) world0) = Some w'
    /\ currentZone w' = Some zone
    /\ depth zone = Some 1
    /\ activeEnemies w' = [].
Proof.
  destruct (ZoneEntryFacts.loadZone_resets 0
              (set_currentAct (Some smallAct) world0) smallAct eq_refl)
    as (w' & zone & Hl & Hz & Hd & _ & _ & Ha & _).
  exists w', zone. repeat split; assumption.
Defined.

Lemma init_known_act_witness :
  exists w' act,
    init "small" (Some 42) world0 = Some (true, w')
    /\ currentAct w' = Some act
    /\ act_seed act = Some 42.
Proof.
  destruct (ZoneEntryFacts.init_known_act "small" (Some 42) world0 smallAct)
    as (w' & act & zone & Hi & Ha & _ & _ & Hs & _).
  - vm_compute. reflexivity.
  - exists w', act. split; [exact Hi |]. split; [exact Ha |].
    apply (Hs 42 eq_refl).
Defined.

Lemma exit_advances_zone_witness :
  exists w' zone',
    checkExit (outpostWorld false 500 100) = Some w'
    /\ zoneIndex w' = 3
    /\ currentZone w' = Some zone'
    /\ depth zone' = Some 4.
Proof.
  pose proof (ZoneEntryFacts.exit_advances_zone (outpostWorld false 500 100)
                (outpost false) {| px := 500; py := 100 |} smallAct
                eq_refl eq_refl eq_refl) as H.
  change (Js.hypot_lt
            (player_x (player (state (outpostWorld false 500 100))) - 500)
            (player_y (player (state (outpostWorld false 500 100))) - 100) 50)
    with true in H.
  destruct H as (w' & zone' & Hc & Hi & Hz & Hd & _).
  exists w', zone'. repeat split; assumption.
Defined.

Lemma loadZone_ignores_ambient_witness :
  let w1 := set_currentAct (Some smallAct) world0 in
  let w2 := movePlayer 5 5 (set_currentZone (Some (arena true)) w1) in
  (currentZone <$> loadZone 0 w1) = (currentZone <$> loadZone 0 w2).
Proof.
  intros w1 w2.
  destruct (DeterminismFacts.loadZone_ignores_ambient 0 w1 w2
              eq_refl eq_refl eq_refl) as [Hzone _].
  exact Hzone.
Defined.

End FurtherInstances.
